(** * A weather-reactive three.js field: the effects engine and the scene builder

    A shallow embedding of [src/components/WeatherEffects.tsx] and of the
    scene construction in [src/components/Field.tsx], with the data
    fetching of [src/components/Weather.tsx] and
    [src/components/SoilMetrics.tsx], the connection cache of
    [src/lib/mongodb.ts] and the earlier scene builder of
    [unnamed/part_001].

    JavaScript numbers are IEEE-754 binary64 values; they are embedded as
    Rocq's primitive [float]s, whose [+ - * /] and comparisons are the
    same operations bit for bit.  Objects that the program mutates
    through two references (an effect handle and the scene's child list)
    carry an identity; the child list stores a reference to the object. *)

From Stdlib Require Import Floats ZArith NArith List String Ascii Bool Lia.
Import ListNotations.

Set Warnings "-inexact-float".
Set Implicit Arguments.

(* ================================================================== *)
(** ** The JavaScript base: numbers, [Math], typed arrays, strings     *)
(* ================================================================== *)

Module JS.

Local Open Scope float_scope.

(** [Math.PI], the binary64 value nearest to pi. *)
Definition Math_PI : float := 0x1.921fb54442d18p+1.

(** The signed mantissa of a finite non-zero number [(-1)^s * m * 2^e]. *)
Definition signed_mantissa (s : bool) (m : positive) : Z :=
  if s then Zneg m else Zpos m.

(** The integer below a number ([None] for NaN and the infinities).
    [Z.shiftl] by a negative amount is a shift right, which rounds
    toward minus infinity. *)
Definition floorZ (x : float) : option Z :=
  match Prim2SF x with
  | S754_zero _ => Some 0%Z
  | S754_finite s m e => Some (Z.shiftl (signed_mantissa s m) e)
  | S754_infinity _ | S754_nan => None
  end.

(** An integer as a number (round to nearest even beyond 2^53). *)
Definition of_Z (z : Z) : float :=
  SF2Prim (binary_normalize prec emax z 0 false).

(** [Math.floor]: NaN, the infinities and both zeros are returned as
    they are; a number in (0,1) gives +0. *)
Definition Math_floor (x : float) : float :=
  match floorZ x with
  | Some z => if is_zero x then x else of_Z z
  | None => x
  end.

(** [Math.round]: the nearest integer, a tie going up.  NaN, the
    infinities, the zeros and every number without a fraction are
    returned as they are; a result of zero keeps the sign of the
    argument. *)
Definition Math_round (x : float) : float :=
  match Prim2SF x with
  | S754_finite s m e =>
      if (0 <=? e)%Z then x
      else
        let r := Z.shiftl (2 * signed_mantissa s m + 2 ^ (- e)) (e - 1) in
        if (r =? 0)%Z then (if s then PrimFloat.neg_zero else PrimFloat.zero) else of_Z r
  | _ => x
  end.

(** [Math.abs] is the primitive [abs]; [Math.sqrt] is the primitive
    [sqrt] (both are exactly specified by IEEE-754). *)
Definition Math_abs (x : float) : float := abs x.
Definition Math_sqrt (x : float) : float := sqrt x.

(** [Math.fround]: the nearest binary32 value, as a binary64 number.
    This is what a store into a [Float32Array] keeps. *)
Definition Math_fround (x : float) : float :=
  match Prim2SF x with
  | S754_finite s m e => SF2Prim (binary_round 24 128 s m e)
  | _ => x
  end.

(** JavaScript's [x > y] is [y < x] (false when an operand is NaN). *)
Definition gtb (x y : float) : bool := y <? x.

(** How often the body of [for (let i = 0; i < bound; i++)] runs.
    The counter is a number: it counts 0, 1, 2, ... exactly up to 2^53
    and then stays at 2^53, because 2^53 + 1 rounds back to 2^53.  So
    the loop does not terminate when [bound] exceeds 2^53 ([None]); it
    runs [ceil bound] times for a positive [bound] up to 2^53, and not
    at all when [bound] is zero, negative or NaN. *)
Definition loop_trips (bound : float) : option N :=
  match Prim2SF bound with
  | S754_finite false m e =>
      let c := Z.opp (Z.shiftl (Zneg m) e) in
      if (c <=? 2 ^ 53)%Z then Some (Z.to_N c) else None
  | S754_infinity false => None
  | _ => Some 0%N
  end.

(** The length of [new Float32Array(len)] for a number [len]
    (ECMAScript's ToIndex): NaN counts as 0, the fraction is dropped,
    and a result outside [0, 2^53 - 1] raises a RangeError ([None]).
    Memory is taken to be unbounded. *)
Definition ToIndex (len : float) : option N :=
  match Prim2SF len with
  | S754_nan | S754_zero _ => Some 0%N
  | S754_infinity _ => None
  | S754_finite s m e =>
      let t := Z.shiftl (Zpos m) e in
      if s then (if (t =? 0)%Z then Some 0%N else None)
      else if (t <=? 2 ^ 53 - 1)%Z then Some (Z.to_N t) else None
  end.

(** [new Float32Array(len)]: [len] zeros.  A length that [ToIndex]
    takes always gives a buffer: the limit that an engine puts on the
    size of a buffer, below 2^53 - 1, is not modelled. *)
Definition Float32Array_new (len : float) : option (list float) :=
  match ToIndex len with
  | Some n => Some (repeat 0 (N.to_nat n))
  | None => None
  end.

(** [a[i] = v] on a [Float32Array]: the value is rounded to binary32;
    a store past the end is ignored. *)
Fixpoint store (i : nat) (v : float) (a : list float) : list float :=
  match a, i with
  | [], _ => []
  | _ :: rest, O => Math_fround v :: rest
  | x :: rest, S i' => x :: store i' v rest
  end.

(** [a[i]] read as a number: an element past the end is [undefined],
    which arithmetic and comparisons turn into NaN. *)
Definition load (i : nat) (a : list float) : float := nth i a nan.

(** An [Object | null] reference used as a condition. *)
Definition truthy {A : Type} (o : option A) : bool :=
  match o with Some _ => true | None => false end.

(** *** Strings

    A string is a sequence of code units.  [toLowerCase] maps the
    letters A-Z to a-z and keeps every other code unit.  (The program
    only asks whether the lower-case label includes "rain" or "cloud";
    a letter outside ASCII cannot add an occurrence of these words,
    since none has one of their letters as its whole lower-case form.) *)

Definition lower_ascii (c : ascii) : ascii :=
  let n := nat_of_ascii c in
  if (65 <=? n)%nat && (n <=? 90)%nat then ascii_of_nat (n + 32) else c.

Fixpoint toLowerCase (s : string) : string :=
  match s with
  | EmptyString => EmptyString
  | String c rest => String (lower_ascii c) (toLowerCase rest)
  end.

(** [s.includes(needle)]: [needle] occurs in [s] at some position. *)
Fixpoint includes (s needle : string) : bool :=
  String.prefix needle s ||
  match s with
  | EmptyString => false
  | String _ rest => includes rest needle
  end.

End JS.

(* ================================================================== *)
(** ** The part of three.js the program uses                           *)
(* ================================================================== *)

Module THREE.

Import JS.
Local Open Scope float_scope.

Record Vector3 := vec3 { vx : float; vy : float; vz : float }.

(** [THREE.FogExp2]: never changed after its construction. *)
Record FogExp2 := { fog_color : Z; fog_density : float }.

(** [MathUtils.degToRad]: a multiplication by the constant
    [DEG2RAD = Math.PI / 180]. *)
Definition DEG2RAD : float := Math_PI / 180.
Definition degToRad (degrees : float) : float := degrees * DEG2RAD.

(** The objects a scene holds before the effects engine adds its own:
    the two kinds of light the engine looks for, and everything else
    (meshes, groups), which it never inspects. *)
Inductive Object3D :=
| AmbientLight (color : Z) (intensity : float)
| DirectionalLight (position : Vector3) (color : Z) (intensity : float)
| OtherObject (name : string).

(** The four effects that live in the scene graph. *)
Inductive EffectKind := Clouds | Rain | WindLines | WindIndicator.

Definition EffectKind_eqb (a b : EffectKind) : bool :=
  match a, b with
  | Clouds, Clouds | Rain, Rain | WindLines, WindLines
  | WindIndicator, WindIndicator => true
  | _, _ => false
  end.

(** An entry of [scene.children]: an object that was there before, or a
    reference to an object the engine created.  The engine's objects
    are reached through its handles as well, so the child list keeps
    the reference and the handle keeps the state.  A reference is the
    identity of the object together with the effect it was created
    for (a cloud [Group], rain [Points], wind [LineSegments], the
    indicator [Group]). *)
Inductive SceneChild :=
| Foreign (o : Object3D)
| Effect (k : EffectKind) (id : nat).

Definition is_ref (k : EffectKind) (id : nat) (c : SceneChild) : bool :=
  match c with
  | Effect k' id' => EffectKind_eqb k k' && Nat.eqb id id'
  | Foreign _ => false
  end.

(** [Object3D.add] of an object that has no parent yet: it is pushed
    at the end of the child list. *)
Definition add (c : SceneChild) (children : list SceneChild) : list SceneChild :=
  children ++ [c].

(** [Object3D.remove]: the first entry that is this object (the
    [indexOf] of the child list) is spliced out; nothing happens when
    the object is not a child. *)
Fixpoint remove (k : EffectKind) (id : nat) (children : list SceneChild)
  : list SceneChild :=
  match children with
  | [] => []
  | c :: rest => if is_ref k id c then rest else c :: remove k id rest
  end.

(** The identities of the children of one effect kind, in scene order. *)
Fixpoint refs (k : EffectKind) (children : list SceneChild) : list nat :=
  match children with
  | [] => []
  | Effect k' id :: rest =>
      if EffectKind_eqb k k' then id :: refs k rest else refs k rest
  | Foreign _ :: rest => refs k rest
  end.

(** [Array.prototype.find] gives the first element that satisfies the
    predicate; its position is what lets the caller mutate it. *)
Fixpoint find_index {A : Type} (p : A -> bool) (l : list A) : option nat :=
  match l with
  | [] => None
  | x :: rest => if p x then Some O
                 else match find_index p rest with
                      | Some i => Some (S i)
                      | None => None
                      end
  end.

(** A mutation of the object at one position of a list. *)
Fixpoint update_at {A : Type} (i : nat) (f : A -> A) (l : list A) : list A :=
  match l, i with
  | [], _ => []
  | x :: rest, O => f x :: rest
  | x :: rest, S i' => x :: update_at i' f rest
  end.

End THREE.

(* ================================================================== *)
(** ** [class WeatherEffects]                                          *)
(* ================================================================== *)

Module WeatherEffects.

Import JS THREE.
Local Open Scope string_scope.
Local Open Scope float_scope.

(** [interface WeatherState].  A numeric field that is missing at run
    time reads as [undefined], which every use below (arithmetic and
    comparison) turns into NaN; NaN stands for it here. *)
Record WeatherState := {
  conditions : string;
  temperature : float;
  windSpeed : float;
  humidity : float;
  windDirection : float
}.

(** One sphere of the cloud group. *)
Record CloudMesh := { cloud_position : Vector3; cloud_scale : Vector3 }.

(** The [THREE.Group] of clouds. *)
Record CloudGroup := {
  clouds_id : nat;
  clouds_position_x : float;
  clouds_children : list CloudMesh
}.

(** A [THREE.Points] or [THREE.LineSegments] with its position
    attribute: the [Float32Array] and the attribute's version, which
    [needsUpdate = true] increments. *)
Record ParticleObject := {
  particles_id : nat;
  positions : list float;
  positions_version : nat
}.

(** The compass group of the wind indicator, and its arrow mesh (a
    child of the group that the engine also holds directly). *)
Record IndicatorGroup := {
  indicator_id : nat;
  indicator_position : Vector3;
  indicator_rotation_y : float
}.

Record ArrowMesh := {
  arrow_position : Vector3;
  arrow_rotation_x : float;
  arrow_rotation_z : float;
  arrow_scale : Vector3
}.

(** The fields of a [WeatherEffects] object, with the scene it was
    given ([scene_children] and [scene_fog] are [this.scene.children]
    and [this.scene.fog]), the allocation counter that gives every new
    object its identity, and the number of [Math.random()] calls made
    so far. *)
Record t := mk {
  scene_children : list SceneChild;
  scene_fog : option FogExp2;
  clouds : option CloudGroup;
  rainParticles : option ParticleObject;
  windLines : option ParticleObject;
  fog : option FogExp2;
  weatherState : option WeatherState;
  windIndicator : option IndicatorGroup;
  windArrow : option ArrowMesh;
  next_id : nat;
  random_calls : nat
}.

Definition set_scene_children (s : t) (v : list SceneChild) : t :=
  mk v (scene_fog s) (clouds s) (rainParticles s) (windLines s) (fog s)
     (weatherState s) (windIndicator s) (windArrow s) (next_id s) (random_calls s).
Definition set_scene_fog (s : t) (v : option FogExp2) : t :=
  mk (scene_children s) v (clouds s) (rainParticles s) (windLines s) (fog s)
     (weatherState s) (windIndicator s) (windArrow s) (next_id s) (random_calls s).
Definition set_clouds (s : t) (v : option CloudGroup) : t :=
  mk (scene_children s) (scene_fog s) v (rainParticles s) (windLines s) (fog s)
     (weatherState s) (windIndicator s) (windArrow s) (next_id s) (random_calls s).
Definition set_rainParticles (s : t) (v : option ParticleObject) : t :=
  mk (scene_children s) (scene_fog s) (clouds s) v (windLines s) (fog s)
     (weatherState s) (windIndicator s) (windArrow s) (next_id s) (random_calls s).
Definition set_windLines (s : t) (v : option ParticleObject) : t :=
  mk (scene_children s) (scene_fog s) (clouds s) (rainParticles s) v (fog s)
     (weatherState s) (windIndicator s) (windArrow s) (next_id s) (random_calls s).
Definition set_fog (s : t) (v : option FogExp2) : t :=
  mk (scene_children s) (scene_fog s) (clouds s) (rainParticles s) (windLines s) v
     (weatherState s) (windIndicator s) (windArrow s) (next_id s) (random_calls s).
Definition set_weatherState (s : t) (v : option WeatherState) : t :=
  mk (scene_children s) (scene_fog s) (clouds s) (rainParticles s) (windLines s) (fog s)
     v (windIndicator s) (windArrow s) (next_id s) (random_calls s).
Definition set_windIndicator (s : t) (v : option IndicatorGroup) : t :=
  mk (scene_children s) (scene_fog s) (clouds s) (rainParticles s) (windLines s) (fog s)
     (weatherState s) v (windArrow s) (next_id s) (random_calls s).
Definition set_windArrow (s : t) (v : option ArrowMesh) : t :=
  mk (scene_children s) (scene_fog s) (clouds s) (rainParticles s) (windLines s) (fog s)
     (weatherState s) (windIndicator s) v (next_id s) (random_calls s).
Definition set_next_id (s : t) (v : nat) : t :=
  mk (scene_children s) (scene_fog s) (clouds s) (rainParticles s) (windLines s) (fog s)
     (weatherState s) (windIndicator s) (windArrow s) v (random_calls s).
Definition set_random_calls (s : t) (v : nat) : t :=
  mk (scene_children s) (scene_fog s) (clouds s) (rainParticles s) (windLines s) (fog s)
     (weatherState s) (windIndicator s) (windArrow s) (next_id s) v.

(** How a call ends: it returns, it throws (the object keeps what was
    written before the throw), or it never returns. *)
Inductive Error := TypeError | RangeError.

Inductive Outcome :=
| Returned (s : t)
| Threw (e : Error) (s : t)
| Diverged.

Definition and_then (o : Outcome) (f : t -> Outcome) : Outcome :=
  match o with
  | Returned s => f s
  | Threw e s => Threw e s
  | Diverged => Diverged
  end.

Local Notation "o ;; f" := (and_then o f) (at level 61, left associativity).

(** [this.weatherState!.field]: the non-null assertion is erased by the
    compiler, so reading a field of [null] throws a TypeError. *)
Definition with_weather (s : t) (k : WeatherState -> Outcome) : Outcome :=
  match weatherState s with
  | Some w => k w
  | None => Threw TypeError s
  end.

(** [constructor(scene)] *)
Definition new (children : list Object3D) (scene_fog0 : option FogExp2) : t :=
  mk (map Foreign children) scene_fog0 None None None None None None None 0 0.

Section Engine.

(** [Math_random n] is what the [n]-th call of [Math.random()] returns. *)
Variable Math_random : nat -> float.

(** *** createWindDirectionIndicator

    The compass disc and the four label sprites are fixed children of
    the group; the arrow is the child that is updated later. *)
Definition createWindDirectionIndicator (s : t) : Outcome :=
  let arrow := {| arrow_position := vec3 0 0.12 0;
                  arrow_rotation_x := Math_PI / 2;
                  arrow_rotation_z := 0;
                  arrow_scale := vec3 1 1 1 |} in
  let group := {| indicator_id := next_id s;
                  indicator_position := vec3 (-40) 0 (-40);
                  indicator_rotation_y := Math_PI |} in
  let s := set_windArrow s (Some arrow) in
  let s := set_scene_children s
             (add (Effect WindIndicator (indicator_id group)) (scene_children s)) in
  let s := set_windIndicator s (Some group) in
  Returned (set_next_id s (S (next_id s))).

(** *** updateWindDirection *)
Definition updateWindDirection (s : t) : Outcome :=
  match windArrow s, weatherState s with
  | Some arrow, Some w =>
      let radians := degToRad (windDirection w - 180) in
      let scale := 1 + (windSpeed w / 10) in
      Returned (set_windArrow s (Some
        {| arrow_position := arrow_position arrow;
           arrow_rotation_x := arrow_rotation_x arrow;
           arrow_rotation_z := radians;
           arrow_scale := vec3 scale scale scale |}))
  | _, _ => Returned s
  end.

(** *** updateFog *)
Definition updateFog (s : t) : Outcome :=
  let s := if truthy (fog s) then set_scene_fog s None else s in
  with_weather s (fun w =>
    let fogDensity := 0.001 + (humidity w / 100) * 0.002 in
    let f := {| fog_color := 0x87ceeb; fog_density := fogDensity |} in
    let s := set_fog s (Some f) in
    Returned (set_scene_fog s (Some f))).

(** *** updateLighting *)
Definition is_AmbientLight (c : SceneChild) : bool :=
  match c with Foreign (AmbientLight _ _) => true | _ => false end.

Definition is_high_DirectionalLight (c : SceneChild) : bool :=
  match c with
  | Foreign (DirectionalLight position _ _) => gtb (vy position) 20
  | _ => false
  end.

Definition set_intensity (i : float) (c : SceneChild) : SceneChild :=
  match c with
  | Foreign (AmbientLight color _) => Foreign (AmbientLight color i)
  | Foreign (DirectionalLight p color _) => Foreign (DirectionalLight p color i)
  | other => other
  end.

Definition set_color (hex : Z) (c : SceneChild) : SceneChild :=
  match c with
  | Foreign (AmbientLight _ i) => Foreign (AmbientLight hex i)
  | Foreign (DirectionalLight p _ i) => Foreign (DirectionalLight p hex i)
  | other => other
  end.

Definition updateLighting (s : t) : Outcome :=
  match find_index is_AmbientLight (scene_children s),
        find_index is_high_DirectionalLight (scene_children s) with
  | Some ambientLight, Some directionalLight =>
      with_weather s (fun w =>
        let label := toLowerCase (conditions w) in
        if includes label "rain" || includes label "cloud" then
          let c := update_at ambientLight (set_intensity 0.4) (scene_children s) in
          let c := update_at directionalLight (set_intensity 0.5) c in
          let c := update_at directionalLight (set_color 0xccccff) c in
          Returned (set_scene_children s c)
        else
          let c := update_at ambientLight (set_intensity 0.6) (scene_children s) in
          let c := update_at directionalLight (set_intensity 0.8) c in
          let c := update_at directionalLight (set_color 0xfff4e6) c in
          Returned (set_scene_children s c))
  | _, _ => Returned s
  end.

(** *** updateClouds *)

(** The body of the cloud loop, [n] times; [r] is the number of
    [Math.random()] calls made before.  One cloud draws seven numbers,
    in the order of the source: the size, the three coordinates, the
    three scale increments. *)
Fixpoint make_clouds (n : nat) (r : nat) : list CloudMesh :=
  match n with
  | O => []
  | S n' =>
      let size := 2 + Math_random r * 3 in
      let px := Math_random (r + 1) * 100 - 50 in
      let py := 10 + Math_random (r + 2) * 10 in
      let pz := Math_random (r + 3) * 100 - 50 in
      let sx := size + Math_random (r + 4) * 2 in
      let sy := size * 0.5 + Math_random (r + 5) * 1 in
      let sz := size * 0.5 + Math_random (r + 6) * 2 in
      {| cloud_position := vec3 px py pz; cloud_scale := vec3 sx sy sz |}
        :: make_clouds n' (r + 7)
  end.

Definition cloudCount (w : WeatherState) : float :=
  if includes (toLowerCase (conditions w)) "rain" then 15 + windSpeed w * 2
  else if includes (toLowerCase (conditions w)) "cloud" then 10 + windSpeed w
  else 5.

Definition updateClouds (s : t) : Outcome :=
  let s := match clouds s with
           | Some c => set_scene_children s (remove Clouds (clouds_id c) (scene_children s))
           | None => s
           end in
  with_weather s (fun w =>
    match loop_trips (cloudCount w) with
    | None => Diverged
    | Some n =>
        let cloudGroup := {| clouds_id := next_id s;
                             clouds_position_x := 0;
                             clouds_children := make_clouds (N.to_nat n) (random_calls s) |} in
        let s := set_next_id s (S (next_id s)) in
        let s := set_random_calls s (random_calls s + 7 * N.to_nat n) in
        let s := set_scene_children s
                   (add (Effect Clouds (clouds_id cloudGroup)) (scene_children s)) in
        Returned (set_clouds s (Some cloudGroup))
    end).

(** *** updateRain *)

(** The body of the rain loop for [i], [i+1], ..., [n] times. *)
Fixpoint fill_rain (n i r : nat) (a : list float) : list float :=
  match n with
  | O => a
  | S n' =>
      let a := store (i * 3) (Math_random r * 100 - 50) a in
      let a := store (i * 3 + 1) (Math_random (r + 1) * 50) a in
      let a := store (i * 3 + 2) (Math_random (r + 2) * 100 - 50) a in
      fill_rain n' (S i) (r + 3) a
  end.

Definition particleCount (w : WeatherState) : float :=
  Math_floor (5000 * (humidity w / 100)).

Definition updateRain (s : t) : Outcome :=
  let s := match rainParticles s with
           | Some p =>
               set_rainParticles
                 (set_scene_children s (remove Rain (particles_id p) (scene_children s)))
                 None
           | None => s
           end in
  with_weather s (fun w =>
    if negb (includes (toLowerCase (conditions w)) "rain") then Returned s
    else
      match Float32Array_new (particleCount w * 3) with
      | None => Threw RangeError s
      | Some zeros =>
          match loop_trips (particleCount w) with
          | None => Diverged
          | Some n =>
              let rain := {| particles_id := next_id s;
                             positions := fill_rain (N.to_nat n) 0 (random_calls s) zeros;
                             positions_version := 0 |} in
              let s := set_next_id s (S (next_id s)) in
              let s := set_random_calls s (random_calls s + 3 * N.to_nat n) in
              let s := set_scene_children s
                         (add (Effect Rain (particles_id rain)) (scene_children s)) in
              Returned (set_rainParticles s (Some rain))
          end
      end).

(** *** updateWind *)

(** The body of the streak loop for [i], [i+1], ..., [n] times: a start
    point and an end point offset by the wind speed. *)
Fixpoint fill_wind (speed : float) (n i r : nat) (a : list float) : list float :=
  match n with
  | O => a
  | S n' =>
      let x := Math_random r * 100 - 50 in
      let y := 0.5 + Math_random (r + 1) * 2 in
      let z := Math_random (r + 2) * 100 - 50 in
      let a := store (i * 6) x a in
      let a := store (i * 6 + 1) y a in
      let a := store (i * 6 + 2) z a in
      let a := store (i * 6 + 3) (x - speed * (0.5 + Math_random (r + 3))) a in
      let a := store (i * 6 + 4) (y - speed * 0.2 * Math_random (r + 4)) a in
      let a := store (i * 6 + 5) (z + speed * (0.5 - Math_random (r + 5))) a in
      fill_wind speed n' (S i) (r + 6) a
  end.

Definition lineCount : nat := 50.

Definition updateWind (s : t) : Outcome :=
  let s := match windLines s with
           | Some l =>
               set_windLines
                 (set_scene_children s (remove WindLines (particles_id l) (scene_children s)))
                 None
           | None => s
           end in
  with_weather s (fun w =>
    if windSpeed w <=? 3 then Returned s
    else
      let lines := {| particles_id := next_id s;
                      positions := fill_wind (windSpeed w) lineCount 0 (random_calls s)
                                     (repeat 0 (lineCount * 6));
                      positions_version := 0 |} in
      let s := set_next_id s (S (next_id s)) in
      let s := set_random_calls s (random_calls s + 6 * lineCount) in
      let s := set_scene_children s
                 (add (Effect WindLines (particles_id lines)) (scene_children s)) in
      Returned (set_windLines s (Some lines))).

(** *** updateEffects: the wind-indicator branch at its end *)
Definition updateIndicator (s : t) : Outcome :=
  with_weather s (fun w =>
    if gtb (windSpeed w) 0 then
      (if negb (truthy (windIndicator s))
       then createWindDirectionIndicator s
       else Returned s) ;; updateWindDirection
    else
      match windIndicator s with
      | Some g =>
          let s := set_scene_children s
                     (remove WindIndicator (indicator_id g) (scene_children s)) in
          let s := set_windIndicator s None in
          Returned (set_windArrow s None)
      | None => Returned s
      end).

(** *** updateEffects *)
Definition updateEffects (s : t) : Outcome :=
  if negb (truthy (weatherState s)) then Returned s
  else
    updateFog s ;; updateLighting ;; updateClouds ;; updateRain ;; updateWind
      ;; updateIndicator.

(** *** updateWeather *)
Definition updateWeather (weather : WeatherState) (s : t) : Outcome :=
  updateEffects (set_weatherState s (Some weather)).

(** *** animate *)

(** The rain loop of [animate]: [i] advances by 3, [n] times.  A
    particle that fell below the ground is put back above the scene. *)
Fixpoint animate_rain (delta : float) (n i r : nat) (a : list float)
  : list float * nat :=
  match n with
  | O => (a, r)
  | S n' =>
      let a := store (i + 1) (load (i + 1) a - 10 * delta) a in
      if load (i + 1) a <? 0 then
        let a := store (i + 1) (20 + Math_random r * 30) a in
        let a := store i (Math_random (r + 1) * 100 - 50) a in
        let a := store (i + 2) (Math_random (r + 2) * 100 - 50) a in
        animate_rain delta n' (i + 3) (r + 3) a
      else animate_rain delta n' (i + 3) r a
  end.

(** The streak loop of [animate]: [i] advances by 6, [n] times. *)
Fixpoint animate_wind (speed delta : float) (n i r : nat) (a : list float)
  : list float * nat :=
  match n with
  | O => (a, r)
  | S n' =>
      let a := store i (load i a - speed * delta * 0.2) a in
      let a := store (i + 3) (load (i + 3) a - speed * delta * 0.2) a in
      if load i a <? -60 then
        let x := 60 in
        let y := 0.5 + Math_random r * 2 in
        let z := Math_random (r + 1) * 100 - 50 in
        let a := store i x a in
        let a := store (i + 1) y a in
        let a := store (i + 2) z a in
        let a := store (i + 3) (x - speed * (0.5 + Math_random (r + 2))) a in
        let a := store (i + 4) (y - speed * 0.2 * Math_random (r + 3)) a in
        let a := store (i + 5) (z + speed * (0.5 - Math_random (r + 4))) a in
        animate_wind speed delta n' (i + 6) (r + 5) a
      else animate_wind speed delta n' (i + 6) r a
  end.

(** The number of times [for (i = 0; i < length; i += step)] runs. *)
Definition strides (length step : nat) : nat := (length + step - 1) / step.

Definition animate_clouds (delta : float) (s : t) : t :=
  match clouds s, weatherState s with
  | Some c, Some w =>
      let x := clouds_position_x c + windSpeed w * delta * 0.05 in
      let x := if gtb x 60 then -60 else x in
      set_clouds s (Some {| clouds_id := clouds_id c;
                            clouds_position_x := x;
                            clouds_children := clouds_children c |})
  | _, _ => s
  end.

Definition animate_rainParticles (delta : float) (s : t) : t :=
  match rainParticles s, weatherState s with
  | Some p, Some w =>
      let '(a, r) := animate_rain delta (strides (List.length (positions p)) 3) 0
                       (random_calls s) (positions p) in
      set_random_calls
        (set_rainParticles s (Some {| particles_id := particles_id p;
                                      positions := a;
                                      positions_version := S (positions_version p) |}))
        r
  | _, _ => s
  end.

Definition animate_windLines (delta : float) (s : t) : t :=
  match windLines s, weatherState s with
  | Some l, Some w =>
      let '(a, r) := animate_wind (windSpeed w) delta (strides (List.length (positions l)) 6) 0
                       (random_calls s) (positions l) in
      set_random_calls
        (set_windLines s (Some {| particles_id := particles_id l;
                                  positions := a;
                                  positions_version := S (positions_version l) |}))
        r
  | _, _ => s
  end.

Definition animate (delta : float) (s : t) : Outcome :=
  Returned (animate_windLines delta (animate_rainParticles delta (animate_clouds delta s))).

(** *** dispose *)
Definition dispose (s : t) : Outcome :=
  let s := match clouds s with
           | Some c => set_scene_children s (remove Clouds (clouds_id c) (scene_children s))
           | None => s
           end in
  let s := match rainParticles s with
           | Some p => set_scene_children s (remove Rain (particles_id p) (scene_children s))
           | None => s
           end in
  let s := match windLines s with
           | Some l => set_scene_children s (remove WindLines (particles_id l) (scene_children s))
           | None => s
           end in
  let s := if truthy (fog s) then set_scene_fog s None else s in
  let s := match windIndicator s with
           | Some g =>
               set_scene_children s (remove WindIndicator (indicator_id g) (scene_children s))
           | None => s
           end in
  Returned s.

(** *** Sequences of calls *)

(** The object after a call, when the call ends. *)
Definition state_after (o : Outcome) : option t :=
  match o with
  | Returned s | Threw _ s => Some s
  | Diverged => None
  end.

(** The object after a sequence of [updateWeather] calls.  A call that
    throws leaves the object as it was at the throw and does not keep
    the caller from calling again; after a call that does not return
    there is no later call. *)
Fixpoint after_updates (s : t) (ws : list WeatherState) : option t :=
  match ws with
  | [] => Some s
  | w :: rest =>
      match state_after (updateWeather w s) with
      | Some s' => after_updates s' rest
      | None => None
      end
  end.

End Engine.

End WeatherEffects.

(* ================================================================== *)
(** ** [Field.tsx]: the asset pipeline, the terrain and the frame loop *)
(* ================================================================== *)

Module Field.

Import JS THREE.
Local Open Scope string_scope.
Local Open Scope float_scope.

(** *** Textures *)

Inductive Wrapping := ClampToEdgeWrapping | RepeatWrapping | MirroredRepeatWrapping.
Inductive ColorSpace := NoColorSpace | SRGBColorSpace | LinearSRGBColorSpace.

(** What a loader decides about a texture it creates. *)
Record TextureData := {
  data_wrapS : Wrapping;
  data_wrapT : Wrapping;
  data_repeat : float * float;
  data_colorSpace : ColorSpace
}.

(** A [THREE.Texture]; [texture_id] is the object's identity (three.js
    numbers its textures as it creates them). *)
Record Texture := {
  texture_id : nat;
  texture_url : string;
  wrapS : Wrapping;
  wrapT : Wrapping;
  repeat : float * float;
  colorSpace : ColorSpace
}.

(** [interface TextureMaps] *)
Record TextureMaps := {
  soilColor : Texture;
  soilNormal : Texture;
  soilRoughness : Texture;
  soilDisplacement : Texture;
  grassColor : Texture;
  grassNormal : Texture;
  grassRoughness : Texture
}.

(** How a promise settles. *)
Inductive Settled (A : Type) :=
| Resolved (a : A)
| Rejected (reason : string).
Arguments Resolved {A} a.
Arguments Rejected {A} reason.

(** A loaded glTF file: the number of animation clips is all that the
    scene builder reads from it, besides the scene it clones. *)
Record GLTF := { gltf_animations : nat }.

(** The asset server with the decoders: what each resource path gives. *)
Record Assets := {
  texture_at : string -> Settled TextureData;
  model_at : string -> Settled GLTF
}.

(** [loader.loadAsync(url)]: the loader creates the texture object
    (here with identity [id]) and the promise settles with it. *)
Definition loadAsync (assets : Assets) (id : nat) (url : string) : Settled Texture :=
  match texture_at assets url with
  | Resolved d => Resolved {| texture_id := id; texture_url := url;
                              wrapS := data_wrapS d; wrapT := data_wrapT d;
                              repeat := data_repeat d;
                              colorSpace := data_colorSpace d |}
  | Rejected reason => Rejected reason
  end.

(** Waiting for a promise among those of a [Promise.all]: the next
    one is looked at when this one resolved, and the whole rejects when
    this one rejects.  (Which reason is reported when several reject
    depends on timing; the callers only log it.) *)
Definition await_all {A B : Type} (p : Settled A) (k : A -> Settled B) : Settled B :=
  match p with
  | Resolved a => k a
  | Rejected reason => Rejected reason
  end.

Local Notation "x <- p ;; k" := (await_all p (fun x => k))
  (at level 61, p at next level, right associativity).

(** The callback of [textures.forEach] in [loadTextures]; the test
    [tex !== grassNormal] compares object identities. *)
Definition configure (grassNormal : Texture) (tex : Texture) : Texture :=
  {| texture_id := texture_id tex;
     texture_url := texture_url tex;
     wrapS := RepeatWrapping;
     wrapT := RepeatWrapping;
     repeat := (4, 4);
     colorSpace := if negb (Nat.eqb (texture_id tex) (texture_id grassNormal))
                   then SRGBColorSpace
                   else colorSpace tex |}.

(** *** The component's state *)

(** One ground mesh: its displaced position array, the normals computed
    from it, and the textures of its material. *)
Record GroundMesh := {
  ground_positions : list float;
  ground_normals : list float;
  ground_map : Texture;
  ground_normalMap : Texture;
  ground_roughnessMap : Texture;
  ground_displacementMap : Texture;
  ground_rotation_x : float;
  ground_receiveShadow : bool
}.

Record GrassMesh := {
  grass_position : Vector3;
  grass_rotation_x : float;
  grass_rotation_z : float;
  grass_scale : float
}.

Record PlantInstance := { plant_position : Vector3; plant_clips : nat }.

Inductive SceneObject :=
| Light (l : Object3D)
| Ground (g : GroundMesh)
| GrassGroup (blades : list GrassMesh)
| FieldGroup (instances : list PlantInstance).

(** [interface PlantModel] (with the name the loader adds). *)
Record PlantModel := {
  plant_animations : nat;
  plant_density : float;
  plant_scale : float;
  plant_name : string
}.

(** The React state [loading] and [loadingMessage], the scene, the
    animation mixers, and the number of [Math.random()] calls so far. *)
Record state := mk {
  loading : bool;
  loadingMessage : string;
  scene : list SceneObject;
  mixers : nat;
  random_calls : nat
}.

Definition setLoading (v : bool) (s : state) : state :=
  mk v (loadingMessage s) (scene s) (mixers s) (random_calls s).
Definition setLoadingMessage (v : string) (s : state) : state :=
  mk (loading s) v (scene s) (mixers s) (random_calls s).
Definition scene_add (o : SceneObject) (s : state) : state :=
  mk (loading s) (loadingMessage s) (scene s ++ [o]) (mixers s) (random_calls s).
Definition set_mixers (v : nat) (s : state) : state :=
  mk (loading s) (loadingMessage s) (scene s) v (random_calls s).
Definition set_random_calls (v : nat) (s : state) : state :=
  mk (loading s) (loadingMessage s) (scene s) (mixers s) v.

(** The state when the effect starts: [useState(true)],
    [useState('Loading assets...')], an empty scene. *)
Definition initial : state := mk true "Loading assets..." [] 0 0.

(** [loadingManager.onProgress]: the number given to [setProgress]. *)
Definition onProgress (itemsLoaded itemsTotal : float) : float :=
  Math_round ((itemsLoaded / itemsTotal) * 100).

Section Builder.

Variable assets : Assets.
Variable Math_random : nat -> float.
(** [Math.sin], [Math.cos], [Math.exp] and [Math.pow]: functions of
    their arguments, approximated as the engine chooses. *)
Variables Math_sin Math_cos Math_exp : float -> float.
Variable Math_pow : float -> float -> float.
(** The position array of [new THREE.PlaneGeometry(100, 100, 100, 100)]
    and what [computeVertexNormals] makes of a position array. *)
Variable PlaneGeometry_positions : list float.
Variable computeVertexNormals : list float -> list float.

(** *** loadTextures *)

(** The seven [loadAsync] calls (each creates its own texture), the
    [Promise.all] over them, and the [forEach] that configures the
    seven textures. *)
Definition load_all_textures : Settled TextureMaps :=
  soilColor <- loadAsync assets 0 "/textures/soil/Ground0825_2K-JPG_Color.jpg" ;;
  soilNormal <- loadAsync assets 1 "/textures/soil/Ground0825_2K-JPG_NormalGL.jpg" ;;
  soilRoughness <- loadAsync assets 2 "/textures/soil/Ground0825_2K-JPG_Roughness.jpg" ;;
  soilDisplacement <-
    loadAsync assets 3 "/textures/soil/Ground0825_2K-JPG_Displacement.jpg" ;;
  grassColor <- loadAsync assets 4 "/textures/grass/grass_path_3_diff_4k.jpg" ;;
  grassNormal <- loadAsync assets 5 "/textures/grass/grass_path_3_nor_gl_4k.exr" ;;
  grassRoughness <- loadAsync assets 6 "/textures/grass/grass_path_3_rough_4k.jpg" ;;
  let c := configure grassNormal in
  Resolved {| soilColor := c soilColor;
              soilNormal := c soilNormal;
              soilRoughness := c soilRoughness;
              soilDisplacement := c soilDisplacement;
              grassColor := c grassColor;
              grassNormal := c grassNormal;
              grassRoughness := c grassRoughness |}.

(** The [catch] block logs the error and throws it again. *)
Definition loadTextures (s : state) : Settled TextureMaps * state :=
  (load_all_textures, setLoadingMessage "Loading textures..." s).

(** *** createTerrain *)
Definition rowYPositions : list float := [-10; 0; 10].
Definition rowWidth : float := 3.

(** The callback of [rowYPositions.forEach] for the vertex at [i]. *)
Definition row_bump (i : nat) (y : float) (a : list float) (rowY : float) : list float :=
  if Math_abs (y - rowY) <? rowWidth then
    let distance := (y - rowY) / rowWidth in
    let bump := 0.3 * Math_exp (- Math_pow distance 4) in
    store (i + 2) (load (i + 2) a + bump) a
  else a.

(** The vertex loop: [i] advances by 3, [n] times. *)
Fixpoint displace (n i : nat) (a : list float) : list float :=
  match n with
  | O => a
  | S n' =>
      let x := load i a in
      let y := load (i + 1) a in
      let a := fold_left (row_bump i y) rowYPositions a in
      let noiseValue := 0.05 * (Math_sin (x * 0.1) * Math_cos (y * 0.1) +
                                0.03 * Math_sin (x * 0.3) * Math_cos (y * 0.3)) in
      let a := store (i + 2) (load (i + 2) a + noiseValue) a in
      displace n' (i + 3) a
  end.

Definition strides (length step : nat) : nat := (length + step - 1) / step.

Definition createTerrain (textures : TextureMaps) (s : state) : state :=
  let s := setLoadingMessage "Creating terrain..." s in
  let positions := displace (strides (List.length PlaneGeometry_positions) 3) 0
                     PlaneGeometry_positions in
  let ground := {| ground_positions := positions;
                   ground_normals := computeVertexNormals positions;
                   ground_map := soilColor textures;
                   ground_normalMap := soilNormal textures;
                   ground_roughnessMap := soilRoughness textures;
                   ground_displacementMap := soilDisplacement textures;
                   ground_rotation_x := - Math_PI / 2;
                   ground_receiveShadow := true |} in
  scene_add (Ground ground) s.

(** *** createGrass *)
Fixpoint make_grass (n r : nat) : list GrassMesh :=
  match n with
  | O => []
  | S n' =>
      let angle := Math_random r * Math_PI * 2 in
      let radius := Math_sqrt (Math_random (r + 1)) * 45 in
      {| grass_position := vec3 (radius * Math_cos angle) 0 (radius * Math_sin angle);
         grass_rotation_x := - Math_PI / 2;
         grass_rotation_z := Math_random (r + 2) * Math_PI;
         grass_scale := 0.8 + Math_random (r + 3) * 1.2 |} :: make_grass n' (r + 4)
  end.

Definition createGrass (textures : TextureMaps) (s : state) : state :=
  let s := setLoadingMessage "Creating grass..." s in
  let s := scene_add (GrassGroup (make_grass 200 (random_calls s))) s in
  set_random_calls (random_calls s + 4 * 200) s.

(** *** loadPlantModels *)
Definition plant_path : string := "/models/plants/tomato_plant.glb".

(** One entry of [plantTypes]: the [then] handler builds the model, the
    [catch] handler logs the error and gives [null]. *)
Definition load_plant (path : string) (scale density : float) (name : string)
  : option PlantModel :=
  match model_at assets path with
  | Resolved gltf => Some {| plant_animations := gltf_animations gltf;
                             plant_density := density;
                             plant_scale := scale;
                             plant_name := name |}
  | Rejected _ => None
  end.

(** [results.filter(Boolean)] *)
Fixpoint filter_Boolean {A : Type} (l : list (option A)) : list A :=
  match l with
  | [] => []
  | Some a :: rest => a :: filter_Boolean rest
  | None :: rest => filter_Boolean rest
  end.

Definition loadPlantModels (s : state) : list PlantModel * state :=
  let s := setLoadingMessage "Loading plants..." s in
  (filter_Boolean [load_plant plant_path 0.05 0.5 "Tomato"], s).

(** *** createPlantField *)
Definition rows : nat := 3.
Definition cols : nat := 5.
Definition rowSpacing : float := 10.
Definition plantSpacing : float := 5.
Definition baseX : float := - ((of_Z (Z.of_nat cols) - 1) * plantSpacing) / 2.
Definition baseZ : float := - ((of_Z (Z.of_nat rows) - 1) * rowSpacing) / 2.

(** The inner loop over the columns [c], [c+1], ... of row [r]. *)
Fixpoint plant_row (selectedPlant : PlantModel) (r : nat) (n c k : nat)
  : list PlantInstance :=
  match n with
  | O => []
  | S n' =>
      let x := baseX + of_Z (Z.of_nat c) * plantSpacing + (Math_random k - 0.5) * 0.5 in
      let z := baseZ + of_Z (Z.of_nat r) * rowSpacing + (Math_random (k + 1) - 0.5) * 0.5 in
      {| plant_position := vec3 x 0 z; plant_clips := plant_animations selectedPlant |}
        :: plant_row selectedPlant r n' (S c) (k + 2)
  end.

(** The outer loop over the rows [r], [r+1], ... *)
Fixpoint plant_rows (selectedPlant : PlantModel) (n r k : nat) : list PlantInstance :=
  match n with
  | O => []
  | S n' => plant_row selectedPlant r cols 0 k
              ++ plant_rows selectedPlant n' (S r) (k + 2 * cols)
  end.

Definition createPlantField (plants : list PlantModel) (s : state) : state :=
  match plants with
  | [] => s
  | selectedPlant :: _ =>
      let s := setLoadingMessage "Planting crops..." s in
      let s := scene_add (FieldGroup (plant_rows selectedPlant rows 0 (random_calls s))) s in
      let s := set_mixers (mixers s + rows * cols) s in
      set_random_calls (random_calls s + 2 * (rows * cols)) s
  end.

(** *** setupLighting *)
Definition setupLighting (s : state) : state :=
  let s := scene_add (Light (AmbientLight 0xffffff 0.6)) s in
  let s := scene_add (Light (DirectionalLight (vec3 20 30 10) 0xfff4e6 0.8)) s in
  scene_add (Light (DirectionalLight (vec3 (-10) 20 (-5)) 0xccf0ff 0.3)) s.

(** *** initializeScene: the [try] block and its [catch]

    The two [await]s are the only points where the function is
    suspended; what each awaited promise settles to is given by the
    asset server. *)
Definition initializeScene (s : state) : state :=
  let s := setupLighting s in
  match loadTextures s with
  | (Resolved textures, s) =>
      let s := createTerrain textures s in
      let s := createGrass textures s in
      let '(plants, s) := loadPlantModels s in
      let s := createPlantField plants s in
      setLoading false s
  | (Rejected error, s) =>
      setLoadingMessage "Failed to load. Please refresh." s
  end.

End Builder.

(** *** The frame loop and the effect's cleanup *)

(** What the browser and the renderer hold for the mounted component:
    the [animate] callbacks requested for the next frame, the [resize]
    listeners on [window], whether [mountRef.current] is set and holds
    the canvas, whether the renderer and the meshes' geometries and
    materials were disposed, and how many frames were rendered, in all
    and after the renderer's disposal. *)
Record Runtime := mkRuntime {
  frame_requests : nat;
  resize_listeners : nat;
  mountRef_current : bool;
  canvas_attached : bool;
  renderer_disposed : bool;
  meshes_disposed : bool;
  frames_rendered : nat;
  frames_rendered_disposed : nat
}.

(** [animate]: it requests itself for the next frame, advances the
    mixers and the controls, and renders. *)
Definition animate (rt : Runtime) : Runtime :=
  mkRuntime (S (frame_requests rt)) (resize_listeners rt) (mountRef_current rt)
            (canvas_attached rt) (renderer_disposed rt) (meshes_disposed rt)
            (S (frames_rendered rt))
            (if renderer_disposed rt then S (frames_rendered_disposed rt)
             else frames_rendered_disposed rt).

(** The effect, up to its [return], when it finds [mountRef.current]
    set: the canvas is appended, the resize listener added,
    [initializeScene()] started and [animate()] called. *)
Definition mount : Runtime :=
  animate (mkRuntime 0 1 true true false false 0 0).

(** The browser's next frame: every callback requested for it runs. *)
Definition next_frame (rt : Runtime) : Runtime :=
  Nat.iter (frame_requests rt) animate
    (mkRuntime 0 (resize_listeners rt) (mountRef_current rt) (canvas_attached rt)
               (renderer_disposed rt) (meshes_disposed rt) (frames_rendered rt)
               (frames_rendered_disposed rt)).

(** The cleanup the effect returns: [removeEventListener],
    [cleanupScene(renderer)], which detaches the canvas and disposes
    the renderer when [mountRef.current] is set, and the disposal of
    every mesh's geometry and material. *)
Definition cleanup (rt : Runtime) : Runtime :=
  let detached := mountRef_current rt in
  mkRuntime (frame_requests rt) (pred (resize_listeners rt)) (mountRef_current rt)
            (if detached then false else canvas_attached rt)
            (if detached then true else renderer_disposed rt)
            true (frames_rendered rt) (frames_rendered_disposed rt).

(** What React does to the ref when the [div] leaves the page:
    [mountRef.current] becomes null. *)
Definition detach_ref (rt : Runtime) : Runtime :=
  mkRuntime (frame_requests rt) (resize_listeners rt) false (canvas_attached rt)
            (renderer_disposed rt) (meshes_disposed rt) (frames_rendered rt)
            (frames_rendered_disposed rt).

(** An unmount: React clears the ref first and runs the cleanup of the
    effect afterwards, so that [cleanupScene] finds no mount point. *)
Definition unmount (rt : Runtime) : Runtime := cleanup (detach_ref rt).

End Field.

(* ================================================================== *)
(** ** What the components read from the network                       *)
(* ================================================================== *)

Module Web.

Import JS.
Local Open Scope string_scope.

(** A value that [JSON.parse] gives; the fields of an object are in
    the order of the text. *)
#[local] Unset Elimination Schemes.
Inductive JSON :=
| JNull
| JBool (b : bool)
| JNumber (n : float)
| JString (s : string)
| JArray (items : list JSON)
| JObject (fields : list (string * JSON)).
#[local] Set Elimination Schemes.

(** What an expression over such a value evaluates to: [None] is
    [undefined]. *)
Definition Value : Type := option JSON.

(** What a [throw] or a rejected promise carries: an [Error] object
    with its message, or a value that is no [Error]. *)
Inductive Thrown :=
| ErrorObject (message : string)
| OtherValue.

(** [err instanceof Error ? err.message : fallback] *)
Definition message_or (fallback : string) (err : Thrown) : string :=
  match err with
  | ErrorObject message => message
  | OtherValue => fallback
  end.

(** The own property [key] of a parsed object: with a repeated key the
    later entry of the text wins. *)
Fixpoint lookup (key : string) (fields : list (string * JSON)) : Value :=
  match fields with
  | [] => None
  | (k, v) :: rest =>
      match lookup key rest with
      | Some later => Some later
      | None => if String.eqb k key then Some v else None
      end
  end.

(** [j.key] for a value that is neither [null] nor [undefined], and a
    key that no prototype defines (the programs read [name], [main],
    [temp], [weather], [wind], [soil_pH] and the like): an own property
    of an object, [undefined] on everything else. *)
Definition own (j : JSON) (key : string) : Value :=
  match j with
  | JObject fields => lookup key fields
  | _ => None
  end.

(** [j[0]]: the first element of an array, the first character of a
    string, the own property ["0"] of an object. *)
Definition first (j : JSON) : Value :=
  match j with
  | JArray items => hd_error items
  | JString (String c _) => Some (JString (String c EmptyString))
  | JObject fields => lookup "0" fields
  | _ => None
  end.

(** [!v] is false: the value counts as true in a condition. *)
Definition ToBoolean (v : Value) : bool :=
  match v with
  | None | Some JNull => false
  | Some (JBool b) => b
  | Some (JNumber n) => negb (PrimFloat.is_zero n || PrimFloat.is_nan n)
  | Some (JString s) => negb (String.eqb s "")
  | Some (JArray _) | Some (JObject _) => true
  end.

Section Reads.

(** The message of the TypeError that reading a property of [null] or
    [undefined] throws (its wording is the engine's), and the number
    that a string, an array or an object converts to. *)
Variable TypeError_message : Value -> string -> string.
Variable ToNumber_text : JSON -> float.

(** [v.key] *)
Definition get (v : Value) (key : string) : Thrown + Value :=
  match v with
  | None | Some JNull => inl (ErrorObject (TypeError_message v key))
  | Some j => inr (own j key)
  end.

(** [v[0]] *)
Definition get_first (v : Value) : Thrown + Value :=
  match v with
  | None | Some JNull => inl (ErrorObject (TypeError_message v "0"))
  | Some j => inr (first j)
  end.

(** The number an arithmetic function makes of its argument. *)
Definition ToNumber (v : Value) : float :=
  match v with
  | None => nan
  | Some JNull => 0%float
  | Some (JBool true) => 1%float
  | Some (JBool false) => 0%float
  | Some (JNumber n) => n
  | Some other => ToNumber_text other
  end.

End Reads.

(** A [Response]: its status, and what [response.json()] settles to. *)
Record Response := { status : nat; json : Thrown + JSON }.

(** [response.ok]: the status is in the range 200 to 299. *)
Definition ok (response : Response) : bool :=
  (200 <=? status response)%nat && (status response <=? 299)%nat.

End Web.

(* ================================================================== *)
(** ** [Weather.tsx]: the weather card                                  *)
(* ================================================================== *)

Module Weather.

Import JS Web.
Local Open Scope string_scope.

(** [interface WeatherData], with what the fields hold at run time:
    the two rounded numbers, and for the others whatever the body of
    the response had at their place. *)
Record WeatherData := {
  location : Value;
  temperature : float;
  conditions : Value;
  humidity : Value;
  windSpeed : Value;
  windDeg : Value;
  icon : Value;
  feelsLike : float
}.

(** The three pieces of React state, and what the component did to
    its surroundings: the arguments it gave to [onWeatherUpdate]
    (latest first) and the number of [console.error] calls. *)
Record state := mk {
  weather : option WeatherData;
  loading : bool;
  error : option string;
  reported : list WeatherData;
  logged : nat
}.

Definition setWeather (v : option WeatherData) (s : state) : state :=
  mk v (loading s) (error s) (reported s) (logged s).
Definition setLoading (v : bool) (s : state) : state :=
  mk (weather s) v (error s) (reported s) (logged s).
Definition setError (v : option string) (s : state) : state :=
  mk (weather s) (loading s) v (reported s) (logged s).
Definition report (d : WeatherData) (s : state) : state :=
  mk (weather s) (loading s) (error s) (d :: reported s) (logged s).
Definition console_error (s : state) : state :=
  mk (weather s) (loading s) (error s) (reported s) (S (logged s)).

(** [useState(null)], [useState(true)], [useState(null)]. *)
Definition initial : state := mk None true None [] 0.

(** A [try] block: a computation on the state that ends with a value
    or with a thrown one. *)
Definition Try (A : Type) : Type := state -> (Thrown + A) * state.

Definition ret {A : Type} (a : A) : Try A := fun s => (inr a, s).
Definition throw {A : Type} (e : Thrown) : Try A := fun s => (inl e, s).
Definition bind {A B : Type} (m : Try A) (k : A -> Try B) : Try B :=
  fun s => match m s with
           | (inr a, s') => k a s'
           | (inl e, s') => (inl e, s')
           end.
(** An expression that may throw, or the result of an [await]. *)
Definition eval {A : Type} (r : Thrown + A) : Try A := fun s => (r, s).
Definition modify (f : state -> state) : Try unit := fun s => (inr tt, f s).

Local Notation "x <- m ;; k" := (bind m (fun x => k))
  (at level 61, m at next level, right associativity).
Local Notation "m ;;; k" := (bind m (fun _ => k))
  (at level 61, right associativity).

(** The same for an expression without effect. *)
Definition and_then {A B : Type} (r : Thrown + A) (k : A -> Thrown + B) : Thrown + B :=
  match r with
  | inr a => k a
  | inl e => inl e
  end.

Local Notation "x <~ r ;; k" := (and_then r (fun x => k))
  (at level 61, r at next level, right associativity).

Section Component.

Variable TypeError_message : Value -> string -> string.
Variable ToNumber_text : JSON -> float.

(** The prop [onWeatherUpdate]: absent, or a function of the caller
    that returns or throws. *)
Variable onWeatherUpdate : option (WeatherData -> option Thrown).

(** The object literal [weatherData]: its properties are evaluated in
    the order of the text, and the first read of a property of [null]
    or [undefined] throws. *)
Definition weatherData_of (data : JSON) : Thrown + WeatherData :=
  name <~ get TypeError_message (Some data) "name" ;;
  main <~ get TypeError_message (Some data) "main" ;;
  temp <~ get TypeError_message main "temp" ;;
  weather <~ get TypeError_message (Some data) "weather" ;;
  weather0 <~ get_first TypeError_message weather ;;
  weather0_main <~ get TypeError_message weather0 "main" ;;
  main' <~ get TypeError_message (Some data) "main" ;;
  main_humidity <~ get TypeError_message main' "humidity" ;;
  wind <~ get TypeError_message (Some data) "wind" ;;
  speed <~ get TypeError_message wind "speed" ;;
  wind' <~ get TypeError_message (Some data) "wind" ;;
  deg <~ get TypeError_message wind' "deg" ;;
  weather' <~ get TypeError_message (Some data) "weather" ;;
  weather0' <~ get_first TypeError_message weather' ;;
  weather0_icon <~ get TypeError_message weather0' "icon" ;;
  main'' <~ get TypeError_message (Some data) "main" ;;
  feels_like <~ get TypeError_message main'' "feels_like" ;;
  inr {| location := name;
         temperature := Math_round (ToNumber ToNumber_text temp);
         conditions := weather0_main;
         humidity := main_humidity;
         windSpeed := speed;
         windDeg := deg;
         icon := weather0_icon;
         feelsLike := Math_round (ToNumber ToNumber_text feels_like) |}.

(** [fetchWeather], up to its [await fetch(...)]. *)
Definition fetchWeather_begin (s : state) : state :=
  setError None (setLoading true s).

(** The rest of the [try] block, once the [fetch] has settled. *)
Definition fetchWeather_try (fetched : Thrown + Response) : Try unit :=
  response <- eval fetched ;;
  (if negb (ok response)
   then throw (ErrorObject (if Nat.eqb (status response) 401
                            then "Invalid API key"
                            else "Weather data unavailable"))
   else ret tt) ;;;
  data <- eval (json response) ;;
  weatherData <- eval (weatherData_of data) ;;
  modify (setWeather (Some weatherData)) ;;;
  match onWeatherUpdate with
  | Some callback =>
      modify (report weatherData) ;;;
      match callback weatherData with
      | Some thrown => throw thrown
      | None => ret tt
      end
  | None => ret tt
  end.

(** The [try] block with its [catch] and [finally]. *)
Definition fetchWeather_settle (fetched : Thrown + Response) (s : state) : state :=
  let s := match fetchWeather_try fetched s with
           | (inr _, s) => s
           | (inl err, s) =>
               setError (Some (message_or "Unknown error" err)) (console_error s)
           end in
  setLoading false s.

(** A whole [fetchWeather] call. *)
Definition fetchWeather (fetched : Thrown + Response) (s : state) : state :=
  fetchWeather_settle fetched (fetchWeather_begin s).

End Component.

(** What the component returns for its state: the placeholder, the
    error panel with the retry button, nothing, or the card. *)
Inductive Rendered :=
| Skeleton
| ErrorPanel (message : string)
| Nothing
| Card (w : WeatherData).

Definition render (s : state) : Rendered :=
  if loading s then Skeleton
  else if ToBoolean (option_map JString (error s))
       then ErrorPanel (match error s with Some m => m | None => "" end)
       else match weather s with
            | None => Nothing
            | Some w => Card w
            end.

(** *** The refresh interval

    The timers of the page ([intervals]: the identifiers that
    [setInterval] gave and [clearInterval] has not cleared), the
    interval that the cleanup of the last effect run holds, and the
    number of [fetchWeather] calls begun. *)
Record Timers := mkTimers {
  intervals : list nat;
  next_interval : nat;
  held : option nat;
  fetches : nat
}.

(** The effect: [fetchWeather()], and [setInterval(fetchWeather,
    600000)]; it returns the cleanup that clears this interval. *)
Definition effect (t : Timers) : Timers :=
  mkTimers (next_interval t :: intervals t) (S (next_interval t))
           (Some (next_interval t)) (S (fetches t)).

(** The cleanup that the last effect run returned. *)
Definition cleanup (t : Timers) : Timers :=
  match held t with
  | Some interval =>
      mkTimers (List.filter (fun i => negb (Nat.eqb i interval)) (intervals t))
               (next_interval t) None (fetches t)
  | None => t
  end.

(** A refresh period of 600000 ms passes: every interval that is
    still set calls [fetchWeather]. *)
Definition period_passes (t : Timers) : Timers :=
  mkTimers (intervals t) (next_interval t) (held t)
           (fetches t + List.length (intervals t)).

(** What happens to a mounted component: its dependencies change (the
    cleanup runs, then the effect again), or a refresh period passes. *)
Inductive Event := DependenciesChange | PeriodPasses.

Definition step (t : Timers) (e : Event) : Timers :=
  match e with
  | DependenciesChange => effect (cleanup t)
  | PeriodPasses => period_passes t
  end.

(** The component from its mount to its unmount. *)
Definition mounted (events : list Event) : Timers :=
  fold_left step events (effect (mkTimers [] 0 None 0)).

Definition unmounted (events : list Event) : Timers := cleanup (mounted events).

End Weather.

(* ================================================================== *)
(** ** [SoilMetrics.tsx]: the soil panel                                *)
(* ================================================================== *)

Module SoilMetrics.

Import JS Web.
Local Open Scope string_scope.

(** The React state: [soilData] is [null] ([JNull]) or whatever the
    body of the response was. *)
Record state := mk {
  soilData : JSON;
  loading : bool;
  error : option string;
  logged : nat
}.

(** [useState(null)], [useState(true)], [useState(null)]. *)
Definition initial : state := mk JNull true None 0.

(** [fetchSoilData], given what [fetch('/dummy_soil_data.json')]
    settles to: the [try] block, its [catch] and its [finally]. *)
Definition fetchSoilData (fetched : Thrown + Response) (s : state) : state :=
  let attempt : Thrown + JSON :=
    match fetched with
    | inl reason => inl reason
    | inr response =>
        if negb (ok response) then inl (ErrorObject "Failed to load soil data")
        else json response
    end in
  let s := match attempt with
           | inr data => mk data (loading s) (error s) (logged s)
           | inl err => mk (soilData s) (loading s) (Some "Failed to load soil data.")
                           (S (logged s))
           end in
  mk (soilData s) false (error s) (logged s).

(** The block that [{soilData && (...)}] leaves in the panel: nothing
    for [null], [false] and the empty string, the text of the number
    for a zero, and the six lines otherwise, each with the property
    of that name (or nothing, where the body has none). *)
Inductive DataBlock :=
| NoBlock
| ZeroText (n : float)
| Metrics (soil_pH nitrogen organic_carbon sand_content clay_content soil_moisture : Value).

(** What the component returns for its state. *)
Record Panel := {
  loading_line : bool;
  error_line : option string;
  data_block : DataBlock
}.

Definition render (s : state) : Panel :=
  {| loading_line := loading s;
     error_line := if ToBoolean (option_map JString (error s)) then error s else None;
     data_block :=
       if ToBoolean (Some (soilData s)) then
         Metrics (own (soilData s) "soil_pH") (own (soilData s) "nitrogen")
                 (own (soilData s) "organic_carbon") (own (soilData s) "sand_content")
                 (own (soilData s) "clay_content") (own (soilData s) "soil_moisture")
       else match soilData s with
            | JNumber n => ZeroText n
            | _ => NoBlock
            end |}.

End SoilMetrics.

(* ================================================================== *)
(** ** [lib/mongodb.ts]: the cached database connection                *)
(* ================================================================== *)

Module Mongodb.

Import Web.
Local Open Scope string_scope.

(** A [Mongoose] instance, by its identity. *)
Definition Mongoose : Type := nat.

(** The module's top level: it throws unless [MONGODB_URI] is set to a
    string that is not empty. *)
Definition check_environment (MONGODB_URI : option string) : Thrown + string :=
  match MONGODB_URI with
  | None | Some EmptyString =>
      inl (ErrorObject
             "Please define the MONGODB_URI environment variable inside .env.local")
  | Some uri => inr uri
  end.

(** A promise, as it stands. *)
Inductive PromiseState :=
| Pending
| Fulfilled (m : Mongoose)
| RejectedWith (e : Thrown).

(** [interface MongooseCache]: the promise is a reference to one of
    the promises that [dbConnect] made. *)
Record MongooseCache := { conn : option Mongoose; promise : option nat }.

(** The module's state: the cache, the promises made so far (a promise
    is referred to by its position), and the number of calls of
    [mongoose.connect].  Nothing in the program assigns
    [global.mongoose], so the cache starts empty. *)
Record state := mk {
  cached : MongooseCache;
  promises : list PromiseState;
  connects : nat
}.

Definition initial : state := mk {| conn := None; promise := None |} [] 0.

(** How [dbConnect] stands at its first suspension: it has returned
    the cached connection, or it awaits [cached.promise]. *)
Inductive Started :=
| Done (m : Mongoose)
| Awaiting (p : nat).

(** [dbConnect], up to [await cached.promise]. *)
Definition dbConnect_start (s : state) : Started * state :=
  match conn (cached s) with
  | Some c => (Done c, s)
  | None =>
      match promise (cached s) with
      | Some p => (Awaiting p, s)
      | None =>
          let p := List.length (promises s) in
          (Awaiting p,
           mk {| conn := None; promise := Some p |} (promises s ++ [Pending])
              (S (connects s)))
      end
  end.

(** The handlers on [mongoose.connect(...)]: [then] passes the
    instance on, [catch] throws an [Error] with a message of its own. *)
Definition connection_promise (outcome : Thrown + Mongoose) : PromiseState :=
  match outcome with
  | inr mongooseInstance => Fulfilled mongooseInstance
  | inl (ErrorObject message) =>
      RejectedWith (ErrorObject ("Database connection failed: " ++ message))
  | inl OtherValue => RejectedWith (ErrorObject "Database connection failed")
  end.

Fixpoint set_nth {A : Type} (i : nat) (a : A) (l : list A) : list A :=
  match l, i with
  | [], _ => []
  | _ :: rest, O => a :: rest
  | x :: rest, S i' => x :: set_nth i' a rest
  end.

(** The driver settles the connection attempt behind promise [p]. *)
Definition settle (p : nat) (outcome : Thrown + Mongoose) (s : state) : state :=
  match nth_error (promises s) p with
  | Some Pending => mk (cached s) (set_nth p (connection_promise outcome) (promises s))
                       (connects s)
  | _ => s
  end.

(** [dbConnect] from [await cached.promise] on, for a call that awaits
    promise [p]: nothing while the promise is pending. *)
Definition dbConnect_resume (p : nat) (s : state) : option ((Thrown + Mongoose) * state) :=
  match nth_error (promises s) p with
  | Some (Fulfilled m) =>
      Some (inr m, mk {| conn := Some m; promise := promise (cached s) |}
                      (promises s) (connects s))
  | Some (RejectedWith error) =>
      let s := mk {| conn := conn (cached s); promise := None |}
                  (promises s) (connects s) in
      Some (inl (match error with
                 | ErrorObject _ => error
                 | OtherValue => ErrorObject "Unknown database connection error"
                 end), s)
  | Some Pending | None => None
  end.

(** A call that nothing interleaves with: the driver settles the
    attempt while the call waits.  [driver p] is what the attempt
    behind promise [p] comes to. *)
Definition dbConnect (driver : nat -> Thrown + Mongoose) (s : state)
  : option ((Thrown + Mongoose) * state) :=
  match dbConnect_start s with
  | (Done m, s) => Some (inr m, s)
  | (Awaiting p, s) => dbConnect_resume p (settle p (driver p) s)
  end.

End Mongodb.

(* ================================================================== *)
(** ** The earlier [Field.tsx] ([unnamed/part_001])                    *)
(* ================================================================== *)

Module EarlierField.

Import JS THREE.
Local Open Scope string_scope.
Local Open Scope float_scope.

(** What this version puts into the scene: every grass blade and every
    plant is a child of the scene itself. *)
Inductive SceneObject :=
| Light (l : Object3D)
| Ground (g : Field.GroundMesh)
| Grass (blade : Field.GrassMesh)
| Plant (instance : Field.PlantInstance).

(** The React state [loading] and [progress], the scene, the mixers,
    the number of [Math.random()] calls, and what went to the console:
    the errors logged, and the exceptions and rejections that nothing
    caught. *)
Record state := mk {
  loading : bool;
  progress : float;
  scene : list SceneObject;
  mixers : nat;
  random_calls : nat;
  logged : nat;
  uncaught : list string
}.

Definition setLoading (v : bool) (s : state) : state :=
  mk v (progress s) (scene s) (mixers s) (random_calls s) (logged s) (uncaught s).
Definition setProgress (v : float) (s : state) : state :=
  mk (loading s) v (scene s) (mixers s) (random_calls s) (logged s) (uncaught s).
Definition scene_add (o : SceneObject) (s : state) : state :=
  mk (loading s) (progress s) (scene s ++ [o]) (mixers s) (random_calls s) (logged s)
     (uncaught s).
Definition scene_add_all (os : list SceneObject) (s : state) : state :=
  mk (loading s) (progress s) (scene s ++ os) (mixers s) (random_calls s) (logged s)
     (uncaught s).
Definition set_mixers (v : nat) (s : state) : state :=
  mk (loading s) (progress s) (scene s) v (random_calls s) (logged s) (uncaught s).
Definition set_random_calls (v : nat) (s : state) : state :=
  mk (loading s) (progress s) (scene s) (mixers s) v (logged s) (uncaught s).
Definition console_error (s : state) : state :=
  mk (loading s) (progress s) (scene s) (mixers s) (random_calls s) (S (logged s))
     (uncaught s).
Definition escape (what : string) (s : state) : state :=
  mk (loading s) (progress s) (scene s) (mixers s) (random_calls s) (logged s)
     (uncaught s ++ [what]).

(** [useState(true)], [useState(0)], an empty scene. *)
Definition initial : state := mk true 0 [] 0 0 0 [].

Section Builder.

Variable assets : Field.Assets.
Variable Math_random : nat -> float.
Variable Math_exp : float -> float.
Variable Math_pow : float -> float -> float.
Variable PlaneGeometry_positions : list float.
Variable computeVertexNormals : list float -> list float.

(** *** loadTextures: the wrap mode and the repeat are set, the colour
    space is left as the loader gave it. *)
Definition configure (tex : Field.Texture) : Field.Texture :=
  {| Field.texture_id := Field.texture_id tex;
     Field.texture_url := Field.texture_url tex;
     Field.wrapS := Field.RepeatWrapping;
     Field.wrapT := Field.RepeatWrapping;
     Field.repeat := (4, 4);
     Field.colorSpace := Field.colorSpace tex |}.

Definition loadTextures : Field.Settled Field.TextureMaps :=
  Field.await_all
    (Field.loadAsync assets 0 "/textures/soil/Ground0825_2K-JPG_Color.jpg")
    (fun soilColor =>
  Field.await_all
    (Field.loadAsync assets 1 "/textures/soil/Ground0825_2K-JPG_NormalGL.jpg")
    (fun soilNormal =>
  Field.await_all
    (Field.loadAsync assets 2 "/textures/soil/Ground0825_2K-JPG_Roughness.jpg")
    (fun soilRoughness =>
  Field.await_all
    (Field.loadAsync assets 3 "/textures/soil/Ground0825_2K-JPG_Displacement.jpg")
    (fun soilDisplacement =>
  Field.await_all
    (Field.loadAsync assets 4 "/textures/grass/grass_path_3_diff_4k.jpg")
    (fun grassColor =>
  Field.await_all
    (Field.loadAsync assets 5 "/textures/grass/grass_path_3_nor_gl_4k.exr")
    (fun grassNormal =>
  Field.await_all
    (Field.loadAsync assets 6 "/textures/grass/grass_path_3_rough_4k.jpg")
    (fun grassRoughness =>
  Field.Resolved
    {| Field.soilColor := configure soilColor;
       Field.soilNormal := configure soilNormal;
       Field.soilRoughness := configure soilRoughness;
       Field.soilDisplacement := configure soilDisplacement;
       Field.grassColor := configure grassColor;
       Field.grassNormal := configure grassNormal;
       Field.grassRoughness := configure grassRoughness |}))))))).

(** *** The ground *)
Definition rowYPositions : list float := [-10; 0; 10].
Definition rowWidth : float := 3.

(** The callback of [rowYPositions.forEach] for the vertex at [i]: the
    height is assigned from [z], which the loop read at [i + 3]. *)
Definition row_bump (i : nat) (y z : float) (a : list float) (rowY : float) : list float :=
  if Math_abs (y - rowY) <? rowWidth then
    let bump := 0.3 * Math_exp (- Math_pow ((y - rowY) / rowWidth) 2) in
    store (i + 2) (z + bump) a
  else a.

(** The vertex loop: [i] advances by 3, [n] times; one random number
    is drawn for each vertex. *)
Fixpoint displace (n i r : nat) (a : list float) : list float :=
  match n with
  | O => a
  | S n' =>
      let y := load (i + 1) a in
      let z := load (i + 3) a in
      let a := fold_left (row_bump i y z) rowYPositions a in
      let a := store (i + 2) (load (i + 2) a + (Math_random r - 0.5) * 0.05) a in
      displace n' (i + 3) (S r) a
  end.

Definition vertices : nat := Field.strides (List.length PlaneGeometry_positions) 3.

Definition add_ground (textures : Field.TextureMaps) (s : state) : state :=
  let positions := displace vertices 0 (random_calls s) PlaneGeometry_positions in
  let ground := {| Field.ground_positions := positions;
                   Field.ground_normals := computeVertexNormals positions;
                   Field.ground_map := Field.soilColor textures;
                   Field.ground_normalMap := Field.soilNormal textures;
                   Field.ground_roughnessMap := Field.soilRoughness textures;
                   Field.ground_displacementMap := Field.soilDisplacement textures;
                   Field.ground_rotation_x := - Math_PI / 2;
                   Field.ground_receiveShadow := true |} in
  set_random_calls (random_calls s + vertices) (scene_add (Ground ground) s).

(** *** The grass: 200 blades over a square of side 90. *)
Fixpoint make_grass (n r : nat) : list SceneObject :=
  match n with
  | O => []
  | S n' =>
      Grass {| Field.grass_position :=
                 vec3 ((Math_random r - 0.5) * 90) 0 ((Math_random (r + 1) - 0.5) * 90);
               Field.grass_rotation_x := - Math_PI / 2;
               Field.grass_rotation_z := Math_random (r + 2) * Math_PI;
               Field.grass_scale := 0.8 + Math_random (r + 3) * 1.2 |}
        :: make_grass n' (r + 4)
  end.

Definition add_grass (s : state) : state :=
  set_random_calls (random_calls s + 4 * 200)
                   (scene_add_all (make_grass 200 (random_calls s)) s).

(** *** The plants *)

(** [interface PlantModel], as far as it is read. *)
Record PlantModel := { plant_animations : nat; plant_density : float }.

Definition rows : nat := 3.
Definition cols : nat := 5.
Definition rowSpacing : float := 10.
Definition plantSpacing : float := 5.
Definition baseX : float := - ((of_Z (Z.of_nat cols) - 1) * plantSpacing) / 2.
Definition baseZ : float := - ((of_Z (Z.of_nat rows) - 1) * rowSpacing) / 2.

Fixpoint plant_row (selectedPlant : PlantModel) (r n c : nat) : list SceneObject :=
  match n with
  | O => []
  | S n' =>
      Plant {| Field.plant_position :=
                 vec3 (baseX + of_Z (Z.of_nat c) * plantSpacing) 0
                      (baseZ + of_Z (Z.of_nat r) * rowSpacing);
               Field.plant_clips := plant_animations selectedPlant |}
        :: plant_row selectedPlant r n' (S c)
  end.

Fixpoint plant_rows (selectedPlant : PlantModel) (n r : nat) : list SceneObject :=
  match n with
  | O => []
  | S n' => plant_row selectedPlant r cols 0 ++ plant_rows selectedPlant n' (S r)
  end.

(** [createField]: [plants[0]] is read in the first turn of the loops;
    with no plant it is [undefined], and reading its [gltf] throws a
    TypeError that leaves the loader's callback. *)
Definition createField (plants : list PlantModel) (s : state) : state :=
  match plants with
  | selectedPlant :: _ =>
      set_mixers (mixers s + rows * cols)
                 (scene_add_all (plant_rows selectedPlant rows 0) s)
  | [] => escape "TypeError" s
  end.

Definition plantTypes_length : nat := 1.

(** [tryCreateField], with [loadedCount] as it is before the call. *)
Definition tryCreateField (loadedCount : nat) (plants : list PlantModel) (s : state)
  : state :=
  let loadedCount := S loadedCount in
  let s := setProgress (Math_round (of_Z (Z.of_nat loadedCount)
                                    / of_Z (Z.of_nat plantTypes_length) * 100)) s in
  if Nat.eqb loadedCount plantTypes_length
  then createField plants (setLoading false s)
  else s.

(** The one [gltfLoader.load] call with its two callbacks. *)
Definition load_plants (s : state) : state :=
  match Field.model_at assets "/models/plants/tomato_plant.glb" with
  | Field.Resolved gltf =>
      tryCreateField 0 [{| plant_animations := Field.gltf_animations gltf;
                           plant_density := 0.5 |}] s
  | Field.Rejected _ => tryCreateField 0 [] (console_error s)
  end.

(** *** The effect: [loadTextures().then(...)] is started, the two
    lights are added, and later the promise settles; a rejection has
    no handler. *)
Definition add_lights (s : state) : state :=
  scene_add (Light (DirectionalLight (vec3 20 30 10) 0xffffff 0.8))
            (scene_add (Light (AmbientLight 0xffffff 0.6)) s).

Definition settled : state :=
  let s := add_lights initial in
  match loadTextures with
  | Field.Resolved textures => load_plants (add_grass (add_ground textures s))
  | Field.Rejected reason => escape "unhandled rejection" s
  end.

End Builder.

End EarlierField.

(* ================================================================== *)
(** ** Facts about the child list                                      *)
(* ================================================================== *)

Module SceneFacts.

Import JS THREE.

Lemma EffectKind_eqb_refl (k : EffectKind) : EffectKind_eqb k k = true.
Proof. destruct k; reflexivity. Qed.

Lemma EffectKind_eqb_eq (a b : EffectKind) : EffectKind_eqb a b = true -> a = b.
Proof. destruct a, b; simpl; intros H; try reflexivity; discriminate H. Qed.

Lemma EffectKind_eqb_neq (a b : EffectKind) : a <> b -> EffectKind_eqb a b = false.
Proof.
  intros H. destruct (EffectKind_eqb a b) eqn:E; [|reflexivity].
  elim H. now apply EffectKind_eqb_eq.
Qed.

Lemma refs_app (k : EffectKind) (a b : list SceneChild) :
  refs k (a ++ b) = refs k a ++ refs k b.
Proof.
  induction a as [|c a IH]; simpl; [reflexivity|].
  destruct c as [o|k' id]; [exact IH|].
  destruct (EffectKind_eqb k k'); simpl; now rewrite IH.
Qed.

Lemma refs_add_same (k : EffectKind) (id : nat) (cs : list SceneChild) :
  refs k (add (Effect k id) cs) = refs k cs ++ [id].
Proof. unfold add. rewrite refs_app. simpl. now rewrite EffectKind_eqb_refl. Qed.

Lemma refs_add_other (k k' : EffectKind) (id : nat) (cs : list SceneChild) :
  k <> k' -> refs k (add (Effect k' id) cs) = refs k cs.
Proof.
  intros H. unfold add. rewrite refs_app. simpl.
  rewrite (EffectKind_eqb_neq H). apply app_nil_r.
Qed.

Lemma refs_remove_other (k k' : EffectKind) (id : nat) (cs : list SceneChild) :
  k <> k' -> refs k (remove k' id cs) = refs k cs.
Proof.
  intros H. induction cs as [|c cs IH]; simpl; [reflexivity|].
  destruct c as [o|k2 id2]; simpl; [exact IH|].
  destruct (EffectKind_eqb k' k2) eqn:E2; simpl.
  - apply EffectKind_eqb_eq in E2. subst k2.
    rewrite (EffectKind_eqb_neq H).
    destruct (Nat.eqb id id2); simpl; [reflexivity|].
    rewrite (EffectKind_eqb_neq H). exact IH.
  - destruct (EffectKind_eqb k k2); now rewrite IH.
Qed.

(** Removing the only child of a kind leaves none of that kind. *)
Lemma refs_remove_only (k : EffectKind) (id : nat) (cs : list SceneChild) :
  refs k cs = [id] -> refs k (remove k id cs) = [].
Proof.
  induction cs as [|c cs IH]; simpl; [discriminate|].
  destruct c as [o|k2 id2]; simpl; [exact IH|].
  destruct (EffectKind_eqb k k2) eqn:E; simpl.
  - intros H. injection H as Hid Hrest. subst id2.
    now rewrite Nat.eqb_refl.
  - intros H. rewrite E. now apply IH.
Qed.

(** The objects of the scene that the engine did not create. *)
Fixpoint foreigns (cs : list SceneChild) : list Object3D :=
  match cs with
  | [] => []
  | Foreign o :: rest => o :: foreigns rest
  | Effect _ _ :: rest => foreigns rest
  end.

Lemma foreigns_app (a b : list SceneChild) : foreigns (a ++ b) = foreigns a ++ foreigns b.
Proof.
  induction a as [|c a IH]; simpl; [reflexivity|].
  destruct c; simpl; now rewrite IH.
Qed.

Lemma foreigns_add_effect (k : EffectKind) (id : nat) (cs : list SceneChild) :
  foreigns (add (Effect k id) cs) = foreigns cs.
Proof. unfold add. rewrite foreigns_app. apply app_nil_r. Qed.

Lemma foreigns_remove (k : EffectKind) (id : nat) (cs : list SceneChild) :
  foreigns (remove k id cs) = foreigns cs.
Proof.
  induction cs as [|c cs IH]; simpl; [reflexivity|].
  destruct c as [o|k2 id2]; simpl; [now rewrite IH|].
  destruct (EffectKind_eqb k k2 && Nat.eqb id id2); simpl; [reflexivity|exact IH].
Qed.

Lemma refs_map_Foreign (k : EffectKind) (l : list Object3D) : refs k (map Foreign l) = [].
Proof. induction l as [|o l IH]; simpl; [reflexivity|exact IH]. Qed.

(** A mutation that keeps references as they are keeps the references
    of every kind. *)
Lemma refs_update_at (k : EffectKind) (f : SceneChild -> SceneChild) (i : nat)
      (cs : list SceneChild) :
  (forall kk id, f (Effect kk id) = Effect kk id) ->
  (forall o, exists o', f (Foreign o) = Foreign o') ->
  refs k (update_at i f cs) = refs k cs.
Proof.
  intros He Hf. revert i.
  induction cs as [|c cs IH]; intros i; destruct i; simpl; try reflexivity.
  - destruct c as [o|kk id].
    + destruct (Hf o) as [o' ->]. reflexivity.
    + now rewrite He.
  - destruct c as [o|kk id]; [apply IH|].
    destruct (EffectKind_eqb k kk); now rewrite IH.
Qed.

Lemma store_length (i : nat) (v : float) (a : list float) :
  List.length (store i v a) = List.length a.
Proof.
  revert i. induction a as [|x a IH]; intros i; destruct i; simpl; auto.
Qed.

End SceneFacts.

(* ================================================================== *)
(** ** Facts about strings: what the label test means                   *)
(* ================================================================== *)

Module StringFacts.

Import JS.
Local Open Scope string_scope.

(** A label contains a word when ignoring the case of letters: some
    substring of the label is the word up to the case of A-Z. *)
Definition contains_ignoring_case (s word : string) : Prop :=
  exists pre mid post, s = pre ++ mid ++ post /\ toLowerCase mid = toLowerCase word.

Lemma prefix_app (n s : string) :
  String.prefix n s = true <-> exists post, s = n ++ post.
Proof.
  revert s. induction n as [|a n IH]; intros s; simpl.
  - destruct s; split; intros; try reflexivity; eexists; reflexivity.
  - destruct s as [|b s].
    + split; [discriminate|]. intros [post H]. discriminate H.
    + unfold String.prefix; fold String.prefix.
      destruct (ascii_dec a b) as [->|Hab].
      * rewrite IH. split; intros [post H]; exists post.
        -- now rewrite H.
        -- now injection H.
      * split; [discriminate|]. intros [post H]. injection H as H1 H2.
        now elim Hab.
Qed.

Lemma includes_spec (s n : string) :
  includes s n = true <-> exists pre post, s = pre ++ n ++ post.
Proof.
  induction s as [|c s IH].
  - cbn [includes]. rewrite orb_false_r, prefix_app. split.
    + intros [post H]. exists "", post. exact H.
    + intros (pre & post & H). destruct pre; [exists post; exact H|discriminate H].
  - cbn [includes]. rewrite orb_true_iff, prefix_app, IH. split.
    + intros [[post H]|(pre & post & H)].
      * exists "", post. exact H.
      * exists (String c pre), post. simpl. now rewrite H.
    + intros (pre & post & H). destruct pre as [|c' pre].
      * left. exists post. exact H.
      * right. injection H as H1 H2. exists pre, post. exact H2.
Qed.

Lemma toLowerCase_app (a b : string) :
  toLowerCase (a ++ b) = toLowerCase a ++ toLowerCase b.
Proof. induction a as [|c a IH]; simpl; [reflexivity|now rewrite IH]. Qed.

Lemma toLowerCase_split (s a b : string) :
  toLowerCase s = a ++ b ->
  exists s1 s2, s = s1 ++ s2 /\ toLowerCase s1 = a /\ toLowerCase s2 = b.
Proof.
  revert s. induction a as [|c a IH]; intros s H.
  - exists "", s. auto.
  - destruct s as [|d s]; [discriminate H|]. simpl in H. injection H as H1 H2.
    destruct (IH s H2) as (s1 & s2 & E & E1 & E2).
    exists (String d s1), s2. simpl. rewrite E, E1, H1. auto.
Qed.

(** The test of the source, [label.toLowerCase().includes(word)] for a
    lower-case [word], is containment ignoring case. *)
Lemma includes_toLowerCase (s word : string) :
  toLowerCase word = word ->
  (includes (toLowerCase s) word = true <-> contains_ignoring_case s word).
Proof.
  intros Hword. rewrite includes_spec. unfold contains_ignoring_case. split.
  - intros (pre & post & H).
    destruct (toLowerCase_split _ _ _ H) as (s1 & s2 & E & E1 & E2).
    destruct (toLowerCase_split _ _ _ E2) as (s3 & s4 & E' & E3 & E4).
    exists s1, s3, s4. rewrite E, E', E3, Hword. auto.
  - intros (pre & mid & post & E & H).
    exists (toLowerCase pre), (toLowerCase post).
    now rewrite E, !toLowerCase_app, H, Hword.
Qed.

End StringFacts.

(* ================================================================== *)
(** ** The effects engine: one owner per part of the scene             *)
(* ================================================================== *)

Module WeatherFacts.

Import JS THREE WeatherEffects SceneFacts.
Local Open Scope string_scope.
Local Open Scope float_scope.

(** The rows of the policy table: each [update...] method owns one. *)
Inductive Component := CFog | CLights | CClouds | CRain | CWind | CIndicator.

(** What the engine and the scene hold for one component: the handle
    (or handles) of the engine, and the children of that kind that the
    scene shows. *)
Inductive View :=
| VFog (installed current : option FogExp2)
| VLights (objects : list Object3D)
| VClouds (handle : option CloudGroup) (children : list nat)
| VParticles (handle : option ParticleObject) (children : list nat)
| VIndicator (group : option IndicatorGroup) (arrow : option ArrowMesh)
             (children : list nat).

Definition view (c : Component) (s : t) : View :=
  match c with
  | CFog => VFog (scene_fog s) (fog s)
  | CLights => VLights (foreigns (scene_children s))
  | CClouds => VClouds (clouds s) (refs Clouds (scene_children s))
  | CRain => VParticles (rainParticles s) (refs Rain (scene_children s))
  | CWind => VParticles (windLines s) (refs WindLines (scene_children s))
  | CIndicator => VIndicator (windIndicator s) (windArrow s)
                             (refs WindIndicator (scene_children s))
  end.

(** The identity behind a handle, as the list of children it accounts for. *)
Definition one {A : Type} (id : A -> nat) (o : option A) : list nat :=
  match o with
  | Some a => [id a]
  | None => []
  end.

(** A component is in order when the scene shows exactly the object
    that the handle holds: one child when the handle is set, none when
    it is null (and the arrow is held exactly when the indicator is). *)
Definition view_ok (v : View) : Prop :=
  match v with
  | VFog _ _ => True
  | VLights _ => True
  | VClouds h r => r = one clouds_id h
  | VParticles h r => r = one particles_id h
  | VIndicator g a r => r = one indicator_id g /\ truthy a = truthy g
  end.

Definition Inv (s : t) : Prop := forall c, view_ok (view c s).

(** A step that touches one component only. *)
Definition kept_but (c : Component) (s s' : t) : Prop :=
  forall c', c' <> c -> view c' s' = view c' s.

(** The values an update derives from a weather state. *)
Definition rainy (w : WeatherState) : bool := includes (toLowerCase (conditions w)) "rain".
Definition cloudy (w : WeatherState) : bool := includes (toLowerCase (conditions w)) "cloud".

Definition fog_of (w : WeatherState) : FogExp2 :=
  {| fog_color := 0x87ceeb; fog_density := 0.001 + (humidity w / 100) * 0.002 |}.

(** The inputs on which [updateWeather] can return: the cloud loop
    ends, and for a rain label the length of the particle buffer is one
    that [new Float32Array] takes (and the particle loop ends). *)
Definition completes (w : WeatherState) : bool :=
  truthy (loop_trips (cloudCount w)) &&
  (negb (rainy w) ||
   truthy (Float32Array_new (particleCount w * 3)) && truthy (loop_trips (particleCount w))).

Ltac frame :=
  let c := fresh "c" in
  let H := fresh "H" in
  intros c H; destruct c; try (elim H; reflexivity); simpl;
  rewrite ?foreigns_add_effect, ?foreigns_remove;
  rewrite ?refs_add_other, ?refs_remove_other by discriminate;
  reflexivity.

Lemma kept_but_Inv (c : Component) (s s' : t) :
  kept_but c s s' -> view_ok (view c s') -> Inv s -> Inv s'.
Proof.
  intros K V I c'. destruct c, c'; try exact V;
    (rewrite K; [apply I | discriminate]).
Qed.

Section Steps.

Variable Math_random : nat -> float.

Lemma make_clouds_length (n r : nat) : List.length (make_clouds Math_random n r) = n.
Proof. revert r. induction n as [|n IH]; intros r; simpl; [reflexivity|now rewrite IH]. Qed.

Lemma fill_rain_length (n i r : nat) (a : list float) :
  List.length (fill_rain Math_random n i r a) = List.length a.
Proof.
  revert i r a. induction n as [|n IH]; intros i r a; simpl; [reflexivity|].
  rewrite IH. now rewrite !store_length.
Qed.

Lemma fill_wind_length (speed : float) (n i r : nat) (a : list float) :
  List.length (fill_wind Math_random speed n i r a) = List.length a.
Proof.
  revert i r a. induction n as [|n IH]; intros i r a; simpl; [reflexivity|].
  rewrite IH. now rewrite !store_length.
Qed.

#[local] Arguments fill_rain : simpl never.
#[local] Arguments fill_wind : simpl never.
#[local] Arguments make_clouds : simpl never.
#[local] Arguments lineCount : simpl never.
#[local] Arguments Float32Array_new : simpl never.
#[local] Arguments loop_trips : simpl never.
#[local] Arguments particleCount : simpl never.
#[local] Arguments cloudCount : simpl never.
#[local] Arguments degToRad : simpl never.
#[local] Arguments Nat.mul : simpl never.
#[local] Arguments repeat : simpl never.

(** *** updateFog *)
Lemma updateFog_spec (s : t) (w : WeatherState) :
  weatherState s = Some w ->
  exists s', updateFog s = Returned s' /\ weatherState s' = Some w /\
             kept_but CFog s s' /\
             view CFog s' = VFog (Some (fog_of w)) (Some (fog_of w)) /\
             scene_children s' = scene_children s.
Proof.
  intros Hw. unfold updateFog, with_weather.
  destruct (truthy (fog s)); simpl; rewrite Hw;
    (eexists; split; [reflexivity|]; split; [exact Hw|]; split; [frame|];
     split; reflexivity).
Qed.

(** *** updateLighting *)
Lemma set_intensity_Effect (i : float) (k : EffectKind) (id : nat) :
  set_intensity i (Effect k id) = Effect k id.
Proof. reflexivity. Qed.

Lemma set_color_Effect (hex : Z) (k : EffectKind) (id : nat) :
  set_color hex (Effect k id) = Effect k id.
Proof. reflexivity. Qed.

Lemma set_intensity_Foreign (i : float) (o : Object3D) :
  exists o', set_intensity i (Foreign o) = Foreign o'.
Proof. destruct o; simpl; eexists; reflexivity. Qed.

Lemma set_color_Foreign (hex : Z) (o : Object3D) :
  exists o', set_color hex (Foreign o) = Foreign o'.
Proof. destruct o; simpl; eexists; reflexivity. Qed.

Lemma refs_relight (k : EffectKind) (a d : nat) (ia id : float) (hex : Z)
      (cs : list SceneChild) :
  refs k (update_at d (set_color hex)
            (update_at d (set_intensity id) (update_at a (set_intensity ia) cs)))
  = refs k cs.
Proof.
  rewrite !refs_update_at;
    auto using set_intensity_Effect, set_color_Effect, set_intensity_Foreign,
               set_color_Foreign.
Qed.

(** The child list after [updateLighting]: the first ambient light and
    the first directional light above y = 20 take one of two presets,
    when the scene has both. *)
Definition relight (w : WeatherState) (cs : list SceneChild) : list SceneChild :=
  match find_index is_AmbientLight cs, find_index is_high_DirectionalLight cs with
  | Some a, Some d =>
      if rainy w || cloudy w then
        update_at d (set_color 0xccccff)
          (update_at d (set_intensity 0.5) (update_at a (set_intensity 0.4) cs))
      else
        update_at d (set_color 0xfff4e6)
          (update_at d (set_intensity 0.8) (update_at a (set_intensity 0.6) cs))
  | _, _ => cs
  end.

Lemma updateLighting_spec (s : t) (w : WeatherState) :
  weatherState s = Some w ->
  exists s', updateLighting s = Returned s' /\ weatherState s' = Some w /\
             kept_but CLights s s' /\
             scene_children s' = relight w (scene_children s).
Proof.
  intros Hw. unfold updateLighting, with_weather, relight, rainy, cloudy.
  destruct (find_index is_AmbientLight (scene_children s)) as [a|];
    [destruct (find_index is_high_DirectionalLight (scene_children s)) as [d|]|].
  - rewrite Hw.
    destruct (includes (toLowerCase (conditions w)) "rain"
              || includes (toLowerCase (conditions w)) "cloud");
      (eexists; split; [reflexivity|]; split; [exact Hw|]; split; [|reflexivity];
       intros c Hc; destruct c; try (elim Hc; reflexivity); simpl;
       rewrite ?refs_relight; reflexivity).
  - exists s. split; [reflexivity|]. split; [exact Hw|]. split; [intros c _|]; reflexivity.
  - exists s. split; [reflexivity|]. split; [exact Hw|]. split; [intros c _|]; reflexivity.
Qed.

(** *** updateClouds *)
Lemma updateClouds_spec (s : t) (w : WeatherState) :
  weatherState s = Some w ->
  view_ok (view CClouds s) ->
  match loop_trips (cloudCount w) with
  | Some n =>
      exists s' g, updateClouds Math_random s = Returned s' /\
                   weatherState s' = Some w /\ kept_but CClouds s s' /\
                   view CClouds s' = VClouds (Some g) [clouds_id g] /\
                   clouds_position_x g = 0 /\
                   List.length (clouds_children g) = N.to_nat n
  | None => updateClouds Math_random s = Diverged
  end.
Proof.
  intros Hw Hok. unfold updateClouds, with_weather. simpl in Hok.
  destruct (clouds s) as [c|] eqn:Hc; simpl; rewrite Hw;
    destruct (loop_trips (cloudCount w)) as [n|]; try reflexivity.
  - eexists; eexists (Build_CloudGroup _ _ _);
      split; [reflexivity|]; split; [exact Hw|]; split; [frame|].
    simpl. rewrite refs_add_same, refs_remove_only by exact Hok. simpl.
    split; [reflexivity|]. split; [reflexivity|]. apply make_clouds_length.
  - eexists; eexists (Build_CloudGroup _ _ _);
      split; [reflexivity|]; split; [exact Hw|]; split; [frame|].
    simpl. rewrite refs_add_same, Hok. simpl.
    split; [reflexivity|]. split; [reflexivity|]. apply make_clouds_length.
Qed.

(** *** updateRain *)
Lemma updateRain_spec (s : t) (w : WeatherState) :
  weatherState s = Some w ->
  view_ok (view CRain s) ->
  if rainy w then
    match Float32Array_new (particleCount w * 3) with
    | None =>
        exists s', updateRain Math_random s = Threw RangeError s' /\
                   weatherState s' = Some w /\ kept_but CRain s s' /\
                   view CRain s' = VParticles None []
    | Some zeros =>
        match loop_trips (particleCount w) with
        | None => updateRain Math_random s = Diverged
        | Some n =>
            exists s' p, updateRain Math_random s = Returned s' /\
                         weatherState s' = Some w /\ kept_but CRain s s' /\
                         view CRain s' = VParticles (Some p) [particles_id p] /\
                         List.length (positions p) = List.length zeros /\
                         positions_version p = O
        end
    end
  else
    exists s', updateRain Math_random s = Returned s' /\
               weatherState s' = Some w /\ kept_but CRain s s' /\
               view CRain s' = VParticles None [].
Proof.
  intros Hw Hok. unfold updateRain, with_weather, rainy. simpl in Hok.
  destruct (includes (toLowerCase (conditions w)) "rain") eqn:Hrain.
  - destruct (Float32Array_new (particleCount w * 3)) as [zeros|] eqn:Hz;
      [destruct (loop_trips (particleCount w)) as [n|] eqn:Hn|];
      destruct (rainParticles s) as [p0|] eqn:Hp; simpl; rewrite Hw, Hrain; simpl;
      rewrite ?Hz, ?Hn; try reflexivity.
    + eexists; eexists (Build_ParticleObject _ _ _);
        split; [reflexivity|]; split; [exact Hw|]; split; [frame|].
      simpl. rewrite refs_add_same, refs_remove_only by exact Hok. simpl.
      split; [reflexivity|]. split; [apply fill_rain_length|reflexivity].
    + eexists; eexists (Build_ParticleObject _ _ _);
        split; [reflexivity|]; split; [exact Hw|]; split; [frame|].
      simpl. rewrite refs_add_same, Hok. simpl.
      split; [reflexivity|]. split; [apply fill_rain_length|reflexivity].
    + eexists; split; [reflexivity|]; split; [exact Hw|]; split; [frame|].
      simpl. now rewrite refs_remove_only by exact Hok.
    + eexists; split; [reflexivity|]; split; [exact Hw|]; split; [frame|].
      simpl. now rewrite Hp, Hok.
  - destruct (rainParticles s) as [p0|] eqn:Hp; simpl; rewrite Hw, Hrain; simpl.
    + eexists; split; [reflexivity|]; split; [exact Hw|]; split; [frame|].
      simpl. now rewrite refs_remove_only by exact Hok.
    + eexists; split; [reflexivity|]; split; [exact Hw|]; split; [frame|].
      simpl. now rewrite Hp, Hok.
Qed.

(** *** updateWind *)
Lemma updateWind_spec (s : t) (w : WeatherState) :
  weatherState s = Some w ->
  view_ok (view CWind s) ->
  exists s', updateWind Math_random s = Returned s' /\
             weatherState s' = Some w /\ kept_but CWind s s' /\
             if windSpeed w <=? 3 then view CWind s' = VParticles None []
             else exists l, view CWind s' = VParticles (Some l) [particles_id l] /\
                            List.length (positions l) = (lineCount * 6)%nat /\
                            positions_version l = O.
Proof.
  intros Hw Hok. unfold updateWind, with_weather. simpl in Hok.
  destruct (windLines s) as [l0|] eqn:Hl; simpl; rewrite Hw;
    destruct (windSpeed w <=? 3); simpl.
  - eexists; split; [reflexivity|]; split; [exact Hw|]; split; [frame|].
    simpl. now rewrite refs_remove_only by exact Hok.
  - eexists; split; [reflexivity|]; split; [exact Hw|]; split; [frame|].
    eexists (Build_ParticleObject _ _ _).
    simpl. rewrite refs_add_same, refs_remove_only by exact Hok. simpl.
    split; [reflexivity|]. split; [|reflexivity].
    rewrite fill_wind_length. apply repeat_length.
  - eexists; split; [reflexivity|]; split; [exact Hw|]; split; [frame|].
    simpl. now rewrite Hl, Hok.
  - eexists; split; [reflexivity|]; split; [exact Hw|]; split; [frame|].
    eexists (Build_ParticleObject _ _ _).
    simpl. rewrite refs_add_same, Hok. simpl.
    split; [reflexivity|]. split; [|reflexivity].
    rewrite fill_wind_length. apply repeat_length.
Qed.

(** *** The wind-indicator branch of updateEffects *)
Definition arrow_scale_of (w : WeatherState) : float := 1 + (windSpeed w / 10).

Lemma updateIndicator_spec (s : t) (w : WeatherState) :
  weatherState s = Some w ->
  view_ok (view CIndicator s) ->
  exists s', updateIndicator s = Returned s' /\
             weatherState s' = Some w /\ kept_but CIndicator s s' /\
             if gtb (windSpeed w) 0 then
               exists g a, view CIndicator s' = VIndicator (Some g) (Some a) [indicator_id g] /\
                           arrow_rotation_z a = degToRad (windDirection w - 180) /\
                           arrow_scale a = vec3 (arrow_scale_of w) (arrow_scale_of w)
                                                (arrow_scale_of w)
             else view CIndicator s' = VIndicator None None [].
Proof.
  intros Hw [Hrefs Hpair]. unfold updateIndicator, with_weather. rewrite Hw.
  destruct (gtb (windSpeed w) 0).
  - destruct (windIndicator s) as [g|] eqn:Hg; simpl.
    + destruct (windArrow s) as [a|] eqn:Ha; [|discriminate Hpair].
      unfold updateWindDirection. rewrite Ha, Hw.
      eexists; split; [reflexivity|]; split; [exact Hw|]; split; [frame|].
      exists g. eexists (Build_ArrowMesh _ _ _ _). simpl. rewrite Hg, Hrefs.
      repeat split.
    + unfold updateWindDirection. simpl. rewrite Hw.
      eexists; split; [reflexivity|]; split; [exact Hw|]; split; [frame|].
      eexists (Build_IndicatorGroup _ _ _). eexists (Build_ArrowMesh _ _ _ _). simpl.
      rewrite refs_add_same, Hrefs. repeat split.
  - destruct (windIndicator s) as [g|] eqn:Hg; simpl.
    + eexists; split; [reflexivity|]; split; [exact Hw|]; split; [frame|].
      simpl. now rewrite refs_remove_only by exact Hrefs.
    + destruct (windArrow s) as [a|] eqn:Ha; [discriminate Hpair|].
      exists s. split; [reflexivity|]; split; [exact Hw|].
      split; [intros c _; reflexivity|].
      simpl. now rewrite Hg, Ha, Hrefs.
Qed.

(** *** updateEffects and updateWeather *)

(** What an update that returned has derived from the weather state:
    every component is in order and holds what its row of the policy
    table says. *)
Definition Derived (w : WeatherState) (s : t) : Prop :=
  weatherState s = Some w /\ Inv s /\
  view CFog s = VFog (Some (fog_of w)) (Some (fog_of w)) /\
  (exists g n, view CClouds s = VClouds (Some g) [clouds_id g] /\
               clouds_position_x g = 0 /\
               loop_trips (cloudCount w) = Some n /\
               List.length (clouds_children g) = N.to_nat n) /\
  (if rainy w then
     exists p zeros, view CRain s = VParticles (Some p) [particles_id p] /\
                     Float32Array_new (particleCount w * 3) = Some zeros /\
                     List.length (positions p) = List.length zeros /\
                     positions_version p = O
   else view CRain s = VParticles None []) /\
  (if windSpeed w <=? 3 then view CWind s = VParticles None []
   else exists l, view CWind s = VParticles (Some l) [particles_id l] /\
                  List.length (positions l) = (lineCount * 6)%nat /\
                  positions_version l = O) /\
  (if gtb (windSpeed w) 0 then
     exists g a, view CIndicator s = VIndicator (Some g) (Some a) [indicator_id g] /\
                 arrow_rotation_z a = degToRad (windDirection w - 180) /\
                 arrow_scale a = vec3 (arrow_scale_of w) (arrow_scale_of w)
                                      (arrow_scale_of w)
   else view CIndicator s = VIndicator None None []).

(** What is left of an update that threw: the components are still in
    order, and the fog is the new one. *)
Definition Consistent (w : WeatherState) (s : t) : Prop :=
  weatherState s = Some w /\ Inv s /\
  view CFog s = VFog (Some (fog_of w)) (Some (fog_of w)).

Lemma Derived_Consistent (w : WeatherState) (s : t) : Derived w s -> Consistent w s.
Proof. intros (H1 & H2 & H3 & _). repeat split; assumption. Qed.

(** The outcome of [updateEffects] on a state that holds [w]. *)
Lemma updateEffects_spec (s : t) (w : WeatherState) :
  weatherState s = Some w ->
  Inv s ->
  match updateEffects Math_random s with
  | Returned s' => completes w = true /\ Derived w s' /\
                   view CLights s' = VLights (foreigns (relight w (scene_children s)))
  | Threw e s' => completes w = false /\ e = RangeError /\ Consistent w s'
  | Diverged => completes w = false
  end.
Proof.
  intros Hw I. unfold updateEffects. rewrite Hw. simpl negb. cbv iota.
  destruct (updateFog_spec s Hw) as (s1 & E1 & W1 & K1 & F1 & C1).
  rewrite E1. cbn [and_then].
  assert (I1 : Inv s1) by (apply (kept_but_Inv K1); [rewrite F1; exact Logic.I|exact I]).
  destruct (updateLighting_spec s1 W1) as (s2 & E2 & W2 & K2 & C2).
  rewrite E2. cbn [and_then].
  assert (I2 : Inv s2) by (apply (kept_but_Inv K2); [exact Logic.I|exact I1]).
  assert (F2 : view CFog s2 = VFog (Some (fog_of w)) (Some (fog_of w)))
    by (rewrite (K2 CFog) by discriminate; exact F1).
  assert (L2 : view CLights s2 = VLights (foreigns (relight w (scene_children s))))
    by (simpl; now rewrite C2, C1).
  pose proof (@updateClouds_spec s2 w W2 (I2 CClouds)) as S3.
  unfold completes, Derived, Consistent.
  destruct (loop_trips (cloudCount w)) as [n|] eqn:Hn;
    [|rewrite S3; reflexivity].
  destruct S3 as (s3 & g & E3 & W3 & K3 & V3 & X3 & N3).
  rewrite E3. cbn [and_then truthy andb].
  assert (I3 : Inv s3)
    by (apply (kept_but_Inv K3); [rewrite V3; reflexivity|exact I2]).
  pose proof (@updateRain_spec s3 w W3 (I3 CRain)) as S4.
  destruct (rainy w) eqn:Hrain; cbn [negb orb].
  - destruct (Float32Array_new (particleCount w * 3)) as [zeros|] eqn:Hz; cbn [truthy andb].
    + destruct (loop_trips (particleCount w)) as [m|] eqn:Hm; cbn [truthy];
        [|rewrite S4; reflexivity].
      destruct S4 as (s4 & p & E4 & W4 & K4 & V4 & P4 & Q4).
      rewrite E4. cbn [and_then].
      assert (I4 : Inv s4)
        by (apply (kept_but_Inv K4); [rewrite V4; reflexivity|exact I3]).
      destruct (@updateWind_spec s4 w W4 (I4 CWind)) as (s5 & E5 & W5 & K5 & V5).
      rewrite E5. cbn [and_then].
      assert (I5 : Inv s5).
      { apply (kept_but_Inv K5); [|exact I4].
        destruct (windSpeed w <=? 3); [rewrite V5; reflexivity|].
        destruct V5 as (l & -> & _). reflexivity. }
      destruct (@updateIndicator_spec s5 w W5 (I5 CIndicator)) as (s6 & E6 & W6 & K6 & V6).
      rewrite E6.
      assert (I6 : Inv s6).
      { apply (kept_but_Inv K6); [|exact I5].
        destruct (gtb (windSpeed w) 0); [|rewrite V6; split; reflexivity].
        destruct V6 as (g6 & a6 & -> & _). split; reflexivity. }
      split; [reflexivity|]. split.
      * split; [exact W6|]. split; [exact I6|].
        split; [now rewrite (K6 CFog), (K5 CFog), (K4 CFog), (K3 CFog) by discriminate|].
        split; [exists g, n; rewrite (K6 CClouds), (K5 CClouds), (K4 CClouds) by discriminate;
                repeat split; assumption|].
        split; [exists p, zeros; rewrite (K6 CRain), (K5 CRain) by discriminate;
                repeat split; assumption|].
        split; [|exact V6].
        destruct (windSpeed w <=? 3);
          [now rewrite (K6 CWind) by discriminate|].
        destruct V5 as (l & V5 & R5). exists l.
        rewrite (K6 CWind) by discriminate. split; assumption.
      * now rewrite (K6 CLights), (K5 CLights), (K4 CLights), (K3 CLights) by discriminate.
    + destruct S4 as (s4 & E4 & W4 & K4 & V4).
      rewrite E4. cbn [and_then].
      split; [reflexivity|]. split; [reflexivity|].
      split; [exact W4|]. split.
      * apply (kept_but_Inv K4); [rewrite V4; reflexivity|exact I3].
      * now rewrite (K4 CFog), (K3 CFog) by discriminate.
  - destruct S4 as (s4 & E4 & W4 & K4 & V4).
    rewrite E4. cbn [and_then].
    assert (I4 : Inv s4)
      by (apply (kept_but_Inv K4); [rewrite V4; reflexivity|exact I3]).
    destruct (@updateWind_spec s4 w W4 (I4 CWind)) as (s5 & E5 & W5 & K5 & V5).
    rewrite E5. cbn [and_then].
    assert (I5 : Inv s5).
    { apply (kept_but_Inv K5); [|exact I4].
      destruct (windSpeed w <=? 3); [rewrite V5; reflexivity|].
      destruct V5 as (l & -> & _). reflexivity. }
    destruct (@updateIndicator_spec s5 w W5 (I5 CIndicator)) as (s6 & E6 & W6 & K6 & V6).
    rewrite E6.
    assert (I6 : Inv s6).
    { apply (kept_but_Inv K6); [|exact I5].
      destruct (gtb (windSpeed w) 0); [|rewrite V6; split; reflexivity].
      destruct V6 as (g6 & a6 & -> & _). split; reflexivity. }
    split; [reflexivity|]. split.
    + split; [exact W6|]. split; [exact I6|].
      split; [now rewrite (K6 CFog), (K5 CFog), (K4 CFog), (K3 CFog) by discriminate|].
      split; [exists g, n; rewrite (K6 CClouds), (K5 CClouds), (K4 CClouds) by discriminate;
              repeat split; assumption|].
      split; [now rewrite (K6 CRain), (K5 CRain) by discriminate|].
      split; [|exact V6].
      destruct (windSpeed w <=? 3);
        [now rewrite (K6 CWind) by discriminate|].
      destruct V5 as (l & V5 & R5). exists l.
      rewrite (K6 CWind) by discriminate. split; assumption.
    + now rewrite (K6 CLights), (K5 CLights), (K4 CLights), (K3 CLights) by discriminate.
Qed.

End Steps.

(** *** The states that sequences of updates reach *)

Lemma Inv_new (children : list Object3D) (fog0 : option FogExp2) :
  Inv (new children fog0).
Proof.
  intros c. destruct c; simpl; rewrite ?refs_map_Foreign; auto.
Qed.

Lemma Inv_set_weatherState (s : t) (v : option WeatherState) :
  Inv s -> Inv (set_weatherState s v).
Proof. intros I c. specialize (I c). destruct c; exact I. Qed.

(** The outcome of [updateWeather] on a state whose components are in
    order.  With the memory for a buffer of a valid length at hand,
    it returns on the inputs that [completes] accepts, with every
    component derived from the new state; a throw is the RangeError of
    the rain buffer, and leaves the components in order. *)
Lemma updateWeather_spec (Math_random : nat -> float) (s : t) (w : WeatherState) :
  Inv s ->
  match updateWeather Math_random w s with
  | Returned s' => completes w = true /\ Derived w s' /\
                   view CLights s' = VLights (foreigns (relight w (scene_children s)))
  | Threw e s' => completes w = false /\ e = RangeError /\ Consistent w s'
  | Diverged => completes w = false
  end.
Proof.
  intros I. unfold updateWeather.
  apply (updateEffects_spec Math_random (s := set_weatherState s (Some w)) (w := w));
    [reflexivity|now apply Inv_set_weatherState].
Qed.

Lemma updateWeather_returns (Math_random : nat -> float) (s : t) (w : WeatherState) :
  Inv s -> completes w = true ->
  exists s', updateWeather Math_random w s = Returned s' /\ Derived w s' /\
             view CLights s' = VLights (foreigns (relight w (scene_children s))).
Proof.
  intros I C. pose proof (updateWeather_spec Math_random w I) as H.
  destruct (updateWeather Math_random w s) as [s'|e s'|].
  - exists s'. split; [reflexivity|]. destruct H as (_ & D & L). now split.
  - destruct H as [H _]. congruence.
  - congruence.
Qed.

Lemma updateWeather_Inv (Math_random : nat -> float) (s s' : t) (w : WeatherState) :
  Inv s -> state_after (updateWeather Math_random w s) = Some s' -> Consistent w s'.
Proof.
  intros I. pose proof (updateWeather_spec Math_random w I) as H.
  destruct (updateWeather Math_random w s) as [s1|e s1|]; simpl; intros E;
    [injection E as <-|injection E as <-|discriminate E].
  - apply Derived_Consistent. apply H.
  - apply H.
Qed.

Lemma after_updates_Inv (Math_random : nat -> float) (ws : list WeatherState) :
  forall s s', Inv s -> after_updates Math_random s ws = Some s' -> Inv s'.
Proof.
  induction ws as [|w ws IH]; intros s s' I; simpl.
  - intros E. injection E as <-. exact I.
  - destruct (state_after (updateWeather Math_random w s)) as [s1|] eqn:E1;
      [|discriminate].
    apply IH. apply (updateWeather_Inv _ _ I E1).
Qed.

Lemma reached_Inv (Math_random : nat -> float) (children : list Object3D)
      (fog0 : option FogExp2) (ws : list WeatherState) (s : t) :
  after_updates Math_random (new children fog0) ws = Some s -> Inv s.
Proof. apply after_updates_Inv, Inv_new. Qed.

(** *** Instances in the scene *)

(** The kinds of effect instance of the data model. *)
Inductive InstanceKind :=
| CloudInstance | RainInstance | WindStreakInstance | FogInstance | WindIndicatorInstance.

(** How many instances of a kind the scene shows: the children of that
    kind in the scene graph, and for the fog what [scene.fog] holds. *)
Definition instances (k : InstanceKind) (s : t) : nat :=
  match k with
  | CloudInstance => List.length (refs Clouds (scene_children s))
  | RainInstance => List.length (refs Rain (scene_children s))
  | WindStreakInstance => List.length (refs WindLines (scene_children s))
  | WindIndicatorInstance => List.length (refs WindIndicator (scene_children s))
  | FogInstance => match scene_fog s with Some _ => 1 | None => 0 end
  end.

(** The object behind each handle of the engine, when it is set. *)
Definition handle (k : EffectKind) (s : t) : option nat :=
  match k with
  | Clouds => option_map clouds_id (clouds s)
  | Rain => option_map particles_id (rainParticles s)
  | WindLines => option_map particles_id (windLines s)
  | WindIndicator => option_map indicator_id (windIndicator s)
  end.

Definition is_child (k : EffectKind) (id : nat) (s : t) : bool :=
  existsb (is_ref k id) (scene_children s).

(** The rain instance: the engine holds it and the scene shows it. *)
Definition rain_instance (s : t) : option ParticleObject :=
  match rainParticles s with
  | Some p => if is_child Rain (particles_id p) s then Some p else None
  | None => None
  end.

(** The wind indicator with its arrow. *)
Definition indicator_instance (s : t) : option ArrowMesh :=
  match windIndicator s, windArrow s with
  | Some g, Some a => if is_child WindIndicator (indicator_id g) s then Some a else None
  | _, _ => None
  end.

Lemma existsb_is_ref (k : EffectKind) (id : nat) (cs : list SceneChild) :
  existsb (is_ref k id) cs = existsb (Nat.eqb id) (refs k cs).
Proof.
  induction cs as [|c cs IH]; simpl; [reflexivity|].
  destruct c as [o|k' id']; simpl; [exact IH|].
  destruct (EffectKind_eqb k k'); simpl; now rewrite IH.
Qed.

Lemma rain_instance_view (s : t) (h : option ParticleObject) :
  view CRain s = VParticles h (one particles_id h) -> rain_instance s = h.
Proof.
  simpl. intros H. injection H as H1 H2. unfold rain_instance, is_child.
  rewrite H1. destruct h as [p|]; simpl; [|reflexivity].
  rewrite existsb_is_ref, H2. simpl. now rewrite Nat.eqb_refl.
Qed.

Lemma indicator_instance_view (s : t) (g : option IndicatorGroup) (a : option ArrowMesh) :
  view CIndicator s = VIndicator g a (one indicator_id g) -> truthy a = truthy g ->
  indicator_instance s = a.
Proof.
  simpl. intros H P. injection H as H1 H2 H3. unfold indicator_instance, is_child.
  rewrite H1, H2.
  destruct g as [g|], a as [a|]; simpl in *; try reflexivity; try discriminate P.
  rewrite existsb_is_ref, H3. simpl. now rewrite Nat.eqb_refl.
Qed.

Lemma Inv_handles (s : t) (k : EffectKind) :
  Inv s -> refs k (scene_children s) =
           match handle k s with Some id => [id] | None => [] end.
Proof.
  intros I. destruct k; simpl.
  - specialize (I CClouds). simpl in I. rewrite I. now destruct (clouds s).
  - specialize (I CRain). simpl in I. rewrite I. now destruct (rainParticles s).
  - specialize (I CWind). simpl in I. rewrite I. now destruct (windLines s).
  - specialize (I CIndicator). simpl in I. destruct I as [I _]. rewrite I.
    now destruct (windIndicator s).
Qed.

Lemma Inv_instances (s : t) (k : InstanceKind) : Inv s -> (instances k s <= 1)%nat.
Proof.
  intros I. destruct k; simpl.
  - rewrite (Inv_handles Clouds I). destruct (handle Clouds s); simpl; lia.
  - rewrite (Inv_handles Rain I). destruct (handle Rain s); simpl; lia.
  - rewrite (Inv_handles WindLines I). destruct (handle WindLines s); simpl; lia.
  - destruct (scene_fog s); lia.
  - rewrite (Inv_handles WindIndicator I). destruct (handle WindIndicator s); simpl; lia.
Qed.

(** C1.  After every sequence of [updateWeather] calls on a new
    [WeatherEffects] object (whatever each call did: return or throw),
    the scene shows at most one instance of each effect kind: clouds,
    rain particles, wind streaks, fog, wind indicator.  The instance it
    shows is the one the engine's handle holds, so an update has
    removed the previous instance when it installs a new one. *)
Theorem at_most_one_instance_per_kind
        (Math_random : nat -> float) (children : list Object3D)
        (fog0 : option FogExp2) (ws : list WeatherState) (s : t) :
  after_updates Math_random (new children fog0) ws = Some s ->
  (forall k, (instances k s <= 1)%nat) /\
  (forall k, refs k (scene_children s) =
             match handle k s with Some id => [id] | None => [] end).
Proof.
  intros R. pose proof (reached_Inv _ _ _ _ R) as I. split.
  - intros k. now apply Inv_instances.
  - intros k. now apply Inv_handles.
Qed.

(** *** Sample inputs *)

(** A scene with the three lights of [setupLighting] and the fog of
    the scene setup, a source of random numbers, and the two weather
    states of the specification's scenario (with a humidity of 2 for
    the rain, which keeps the particle buffer at 100 particles). *)
Definition sample_lights : list Object3D :=
  [ AmbientLight 0xffffff 0.6;
    DirectionalLight (vec3 20 30 10) 0xfff4e6 0.8;
    DirectionalLight (vec3 (-10) 20 (-5)) 0xccf0ff 0.3 ].

Definition sample_fog : option FogExp2 :=
  Some {| fog_color := 0x87ceeb; fog_density := 0.002 |}.

Definition sample_random (n : nat) : float :=
  of_Z (Z.of_nat ((n * 7 + 3) mod 10)) / 10.

Definition sample_rain : WeatherState :=
  {| conditions := "Rain"; temperature := 18; windSpeed := 5; humidity := 2;
     windDirection := 90 |}.

Definition sample_clear : WeatherState :=
  {| conditions := "Clear"; temperature := 25; windSpeed := 0; humidity := 30;
     windDirection := 90 |}.

Lemma at_most_one_instance_per_kind_witness :
  exists s, after_updates sample_random (new sample_lights sample_fog)
              [sample_rain; sample_clear; sample_rain] = Some s /\
            forall k, (instances k s <= 1)%nat.
Proof.
  pose proof (at_most_one_instance_per_kind sample_random sample_lights sample_fog
                [sample_rain; sample_clear; sample_rain]) as T.
  assert (R : exists s, after_updates sample_random (new sample_lights sample_fog)
                          [sample_rain; sample_clear; sample_rain] = Some s)
    by (vm_compute; eexists; reflexivity).
  destruct R as [s R]. exists s. split; [exact R|]. exact (proj1 (T s R)).
Defined.

(** *** The rain row *)

(** A humidity given as a whole percentage. *)
Definition percent (h : nat) : float := of_Z (Z.of_nat h).

(** For one percentage: the floor exists and is not negative, the
    buffer of three numbers per particle can be allocated with that
    many particles, and the particle loop runs once per particle. *)
Definition rain_buffer_check (h : nat) : bool :=
  let x := 5000 * (percent h / 100) in
  match floorZ x, ToIndex (Math_floor x * 3), loop_trips (Math_floor x) with
  | Some z, Some len, Some n =>
      (0 <=? z)%Z && N.eqb len (3 * Z.to_N z) && N.eqb n (Z.to_N z)
  | _, _, _ => false
  end.

Lemma rain_buffer_check_all : forallb rain_buffer_check (seq 0 101) = true.
Proof. vm_compute. reflexivity. Qed.

Lemma rain_buffer_percent (h : nat) :
  (h <= 100)%nat ->
  exists z, floorZ (5000 * (percent h / 100)) = Some z /\ (0 <= z)%Z /\
            ToIndex (Math_floor (5000 * (percent h / 100)) * 3) = Some (3 * Z.to_N z)%N /\
            loop_trips (Math_floor (5000 * (percent h / 100))) = Some (Z.to_N z).
Proof.
  intros Hh.
  assert (C : rain_buffer_check h = true).
  { pose proof rain_buffer_check_all as A. rewrite forallb_forall in A.
    apply A. apply in_seq. lia. }
  unfold rain_buffer_check in C. cbv zeta in C.
  destruct (floorZ (5000 * (percent h / 100))) as [z|]; [|discriminate C].
  destruct (ToIndex (Math_floor (5000 * (percent h / 100)) * 3)) as [len|];
    [|discriminate C].
  destruct (loop_trips (Math_floor (5000 * (percent h / 100)))) as [n|];
    [|discriminate C].
  apply andb_true_iff in C. destruct C as [C C3].
  apply andb_true_iff in C. destruct C as [C1 C2].
  apply Z.leb_le in C1. apply N.eqb_eq in C2, C3. subst len n.
  exists z. auto.
Qed.

Lemma Float32Array_new_length (x : float) (zeros : list float) :
  Float32Array_new x = Some zeros ->
  ToIndex x = Some (N.of_nat (List.length zeros)).
Proof.
  unfold Float32Array_new. destruct (ToIndex x) as [n|]; [|discriminate].
  intros E. injection E as <-. now rewrite repeat_length, N2Nat.id.
Qed.

(** With a whole percentage in [0, 100] as humidity, the rain row never
    throws: an update returns as soon as its cloud loop ends. *)
Lemma completes_percent (w : WeatherState) (h : nat) :
  (h <= 100)%nat -> humidity w = percent h ->
  completes w = truthy (loop_trips (cloudCount w)).
Proof.
  intros Hh E. unfold completes, Float32Array_new, particleCount. rewrite E.
  destruct (rain_buffer_percent Hh) as (z & _ & _ & -> & ->).
  simpl. now rewrite orb_true_r, andb_true_r.
Qed.

(** The particle count of the specification for a humidity of [h] per
    cent, [floor (5000 * h / 100)], in exact arithmetic. *)
Definition claimed_particle_count (h : nat) : Z := (5000 * Z.of_nat h) / 100.

(** The code divides first: [h / 100] is rounded to a binary64 number,
    and at 57 and 69 the product [5000 * (h / 100)] is the number just
    below the whole one, so that the floor is one less. *)
Definition one_short (h : nat) : Z :=
  if (h =? 57)%nat || (h =? 69)%nat then 1%Z else 0%Z.

Definition rain_count_check (h : nat) : bool :=
  match floorZ (5000 * (percent h / 100)) with
  | Some z => (z =? claimed_particle_count h - one_short h)%Z
  | None => false
  end.

Lemma rain_count_check_all : forallb rain_count_check (seq 0 101) = true.
Proof. vm_compute. reflexivity. Qed.

Lemma rain_count_percent (h : nat) :
  (h <= 100)%nat ->
  floorZ (5000 * (percent h / 100)) = Some (claimed_particle_count h - one_short h)%Z.
Proof.
  intros Hh.
  assert (C : rain_count_check h = true).
  { pose proof rain_count_check_all as A. rewrite forallb_forall in A.
    apply A. apply in_seq. lia. }
  unfold rain_count_check in C.
  destruct (floorZ (5000 * (percent h / 100))) as [z|]; [|discriminate C].
  apply Z.eqb_eq in C. now subst z.
Qed.

(** C2, as the code has it.  After an [updateWeather] call that returns
    (on any state that updates of a new object reach), a rain instance
    exists exactly when the condition label contains "rain" ignoring
    the case of letters.  Its buffer is the [Float32Array] of
    [floor (5000 * (humidity / 100)) * 3] numbers, three per particle.
    For a humidity that is a whole percentage [h] in [0, 100] the
    particle count is the [floor (5000 * h / 100)] of the
    specification, except at 57 and 69, where it is one less. *)
Theorem rain_instance_iff_rain_label
        (Math_random : nat -> float) (children : list Object3D)
        (fog0 : option FogExp2) (ws : list WeatherState) (s : t) (w : WeatherState) :
  after_updates Math_random (new children fog0) ws = Some s ->
  completes w = true ->
  exists s', updateWeather Math_random w s = Returned s' /\
    ((exists p, rain_instance s' = Some p) <->
     StringFacts.contains_ignoring_case (conditions w) "rain") /\
    (forall p, rain_instance s' = Some p ->
       ToIndex (Math_floor (5000 * (humidity w / 100)) * 3)
         = Some (N.of_nat (List.length (positions p))) /\
       forall h, (h <= 100)%nat -> humidity w = percent h ->
         List.length (positions p)
         = (3 * Z.to_nat (claimed_particle_count h - one_short h))%nat).
Proof.
  intros R C. pose proof (reached_Inv _ _ _ _ R) as I.
  destruct (updateWeather_returns Math_random w I C) as (s' & E & D & _).
  exists s'. split; [exact E|].
  destruct D as (_ & _ & _ & _ & Drain & _).
  rewrite <- (StringFacts.includes_toLowerCase (conditions w) (word := "rain") eq_refl).
  fold (rainy w). destruct (rainy w).
  - destruct Drain as (p & zeros & V & Z & L & _).
    pose proof (rain_instance_view (s := s') (h := Some p) V) as RI.
    split; [split; [reflexivity|exists p; exact RI]|].
    intros p' Hp'. rewrite RI in Hp'. injection Hp' as <-.
    assert (T : ToIndex (Math_floor (5000 * (humidity w / 100)) * 3)
                = Some (N.of_nat (List.length (positions p))))
      by (rewrite L; now apply Float32Array_new_length).
    split; [exact T|].
    intros h Hh Eh. rewrite Eh in T.
    destruct (rain_buffer_percent Hh) as (z & Fz & Pz & Tz & _).
    rewrite (rain_count_percent Hh) in Fz. injection Fz as Fz.
    rewrite Tz in T.
    assert (T' : (3 * Z.to_N z)%N = N.of_nat (List.length (positions p)))
      by congruence.
    rewrite Fz. lia.
  - pose proof (rain_instance_view (s := s') (h := None) Drain) as RI.
    split; [split; [intros [p Hp]; congruence|discriminate]|].
    intros p Hp. congruence.
Qed.

Lemma rain_instance_iff_rain_label_witness :
  exists s, after_updates sample_random (new sample_lights sample_fog) [sample_clear]
            = Some s /\
    completes sample_rain = true /\
    exists s', updateWeather sample_random sample_rain s = Returned s' /\
      exists p, rain_instance s' = Some p /\ List.length (positions p) = 300%nat.
Proof.
  pose proof (rain_instance_iff_rain_label sample_random sample_lights sample_fog
                [sample_clear]) as T.
  assert (R : exists s, after_updates sample_random (new sample_lights sample_fog)
                          [sample_clear] = Some s)
    by (vm_compute; eexists; reflexivity).
  destruct R as [s R]. exists s. split; [exact R|].
  assert (C : completes sample_rain = true) by (vm_compute; reflexivity).
  split; [exact C|].
  destruct (T s sample_rain R C) as (s' & E & Hiff & Hcount).
  exists s'. split; [exact E|].
  destruct (proj2 Hiff) as [p Hp].
  { exists ""%string, "Rain"%string, ""%string. split; reflexivity. }
  exists p. split; [exact Hp|].
  destruct (Hcount p Hp) as [_ Hz].
  exact (Hz 2%nat ltac:(lia) eq_refl).
Defined.

(** C2 fails as stated at a humidity of 57 per cent: the count of the
    specification is 2850, and the instance has 2849 particles (a
    buffer of 8547 numbers), because [5000 * (57 / 100)] is the double
    2849.9999999999995. *)
Definition sample_rain_57 : WeatherState :=
  {| conditions := "Rain"; temperature := 18; windSpeed := 5; humidity := 57;
     windDirection := 90 |}.

Lemma rain_count_is_one_short_at_57 :
  claimed_particle_count 57 = 2850%Z /\
  particleCount sample_rain_57 = 2849 /\
  exists s' p,
    updateWeather sample_random sample_rain_57 (new sample_lights sample_fog) = Returned s' /\
    rain_instance s' = Some p /\
    List.length (positions p) = (3 * 2849)%nat.
Proof.
  split; [reflexivity|]. split; [vm_compute; reflexivity|].
  assert (I : Inv (new sample_lights sample_fog))
    by (apply (reached_Inv sample_random sample_lights sample_fog []); reflexivity).
  assert (C : completes sample_rain_57 = true) by (vm_compute; reflexivity).
  destruct (updateWeather_returns sample_random sample_rain_57 I C) as (s' & E & D & _).
  destruct D as (_ & _ & _ & _ & Drain & _).
  change (rainy sample_rain_57) with true in Drain.
  destruct Drain as (p & zeros & V & Z & L & _).
  exists s', p. split; [exact E|].
  split; [exact (rain_instance_view (s := s') (h := Some p) V)|].
  apply Float32Array_new_length in Z. rewrite <- L in Z.
  assert (K : ToIndex (particleCount sample_rain_57 * 3) = Some 8547%N)
    by (vm_compute; reflexivity).
  rewrite K in Z. injection Z as Z. lia.
Qed.

(** The three casings of the specification. *)
Example rain_label_casings :
  map (fun label => includes (toLowerCase label) "rain")
      ["Rain"; "rain"; "RAIN"; "Light Rain"; "Clear"; "Clouds"]%string
  = [true; true; true; true; false; false].
Proof. reflexivity. Qed.

(** The particle counts at the humidities 0, 50 and 100 of the
    specification, and at 57, where [5000 * (57 / 100)] is the double
    just below 2850. *)
Example particle_counts :
  map (fun h => floorZ (5000 * (percent h / 100))) [0; 50; 100; 57]%nat
  = [Some 0; Some 2500; Some 5000; Some 2849]%Z.
Proof. vm_compute. reflexivity. Qed.

(** *** The wind-indicator row *)

(** C3.  After an [updateWeather] call that returns, the wind indicator
    exists exactly when the wind speed is greater than 0; its arrow is
    then rotated by [windDirection - 180] degrees, converted to radians
    by [degToRad] (the angle itself, which is that angle modulo 360),
    and scaled by [1 + windSpeed / 10] on the three axes. *)
Theorem wind_indicator_iff_wind
        (Math_random : nat -> float) (children : list Object3D)
        (fog0 : option FogExp2) (ws : list WeatherState) (s : t) (w : WeatherState) :
  after_updates Math_random (new children fog0) ws = Some s ->
  completes w = true ->
  exists s', updateWeather Math_random w s = Returned s' /\
    ((exists a, indicator_instance s' = Some a) <-> gtb (windSpeed w) 0 = true) /\
    (forall a, indicator_instance s' = Some a ->
       arrow_rotation_z a = (windDirection w - 180) * (Math_PI / 180) /\
       arrow_scale a = vec3 (1 + windSpeed w / 10) (1 + windSpeed w / 10)
                            (1 + windSpeed w / 10)).
Proof.
  intros R C. pose proof (reached_Inv _ _ _ _ R) as I.
  destruct (updateWeather_returns Math_random w I C) as (s' & E & D & _).
  exists s'. split; [exact E|].
  destruct D as (_ & _ & _ & _ & _ & _ & Dind).
  destruct (gtb (windSpeed w) 0).
  - destruct Dind as (g & a & V & Rz & Sc).
    pose proof (indicator_instance_view (s := s') (g := Some g) (a := Some a) V eq_refl) as II.
    split; [split; [reflexivity|exists a; exact II]|].
    intros a' Ha'. rewrite II in Ha'. injection Ha' as <-.
    split; [exact Rz|exact Sc].
  - pose proof (indicator_instance_view (s := s') (g := None) (a := None) Dind eq_refl) as II.
    split; [split; [intros [a Ha]; congruence|discriminate]|].
    intros a Ha. congruence.
Qed.

Lemma wind_indicator_iff_wind_witness :
  exists s, after_updates sample_random (new sample_lights sample_fog) [sample_clear]
            = Some s /\
    completes sample_rain = true /\
    exists s', updateWeather sample_random sample_rain s = Returned s' /\
      exists a, indicator_instance s' = Some a /\
                arrow_rotation_z a = -1.5707963267948966 /\
                arrow_scale a = vec3 1.5 1.5 1.5.
Proof.
  pose proof (wind_indicator_iff_wind sample_random sample_lights sample_fog
                [sample_clear]) as T.
  assert (R : exists s, after_updates sample_random (new sample_lights sample_fog)
                          [sample_clear] = Some s)
    by (vm_compute; eexists; reflexivity).
  destruct R as [s R]. exists s. split; [exact R|].
  assert (C : completes sample_rain = true) by (vm_compute; reflexivity).
  split; [exact C|].
  destruct (T s sample_rain R C) as (s' & E & Hiff & Harrow).
  exists s'. split; [exact E|].
  destruct (proj2 Hiff eq_refl) as [a Ha].
  exists a. split; [exact Ha|]. exact (Harrow a Ha).
Defined.

(** *** animate before the first update *)

(** C10.  While the engine holds no weather state (no [updateWeather]
    call was made yet), [animate] changes nothing for any [delta]: the
    object, the scene and the count of random numbers drawn are the
    same after the call. *)
Theorem animate_without_weather_changes_nothing
        (Math_random : nat -> float) (delta : float) (s : t) :
  weatherState s = None -> animate Math_random delta s = Returned s.
Proof.
  intros H. unfold animate, animate_windLines, animate_rainParticles, animate_clouds.
  rewrite H. destruct (clouds s); cbn [weatherState]; rewrite ?H;
    destruct (rainParticles s); rewrite ?H; destruct (windLines s); reflexivity.
Qed.

Lemma animate_without_weather_changes_nothing_witness :
  weatherState (new sample_lights sample_fog) = None /\
  animate sample_random 0.016 (new sample_lights sample_fog)
  = Returned (new sample_lights sample_fog).
Proof.
  split; [reflexivity|].
  exact (@animate_without_weather_changes_nothing sample_random 0.016
           (new sample_lights sample_fog) eq_refl).
Defined.

(** *** The lighting row, on the objects of the scene *)

(** A mutation of the first element that satisfies a predicate. *)
Fixpoint update_first {A : Type} (p : A -> bool) (f : A -> A) (l : list A) : list A :=
  match l with
  | [] => []
  | x :: rest => if p x then f x :: rest else x :: update_first p f rest
  end.

Lemma update_at_find_index {A : Type} (p : A -> bool) (f : A -> A) (l : list A) :
  forall i, find_index p l = Some i -> update_at i f l = update_first p f l.
Proof.
  induction l as [|x l IH]; simpl; intros i H; [discriminate H|].
  destruct (p x).
  - injection H as <-. reflexivity.
  - destruct (find_index p l) as [j|]; [|discriminate H].
    injection H as <-. simpl. f_equal. now apply IH.
Qed.

Lemma find_index_update_first {A : Type} (p q : A -> bool) (f : A -> A) (l : list A) :
  (forall x, q (f x) = q x) ->
  find_index q (update_first p f l) = find_index q l.
Proof.
  intros H. induction l as [|x l IH]; simpl; [reflexivity|].
  destruct (p x); simpl; rewrite ?H, ?IH; reflexivity.
Qed.

(** The two lights [updateLighting] looks for, and what it writes. *)
Definition is_ambient (o : Object3D) : bool :=
  match o with AmbientLight _ _ => true | _ => false end.

Definition is_sun (o : Object3D) : bool :=
  match o with DirectionalLight position _ _ => gtb (vy position) 20 | _ => false end.

Definition lit_ambient (i : float) (o : Object3D) : Object3D :=
  match o with AmbientLight color _ => AmbientLight color i | other => other end.

Definition lit_sun (i : float) (hex : Z) (o : Object3D) : Object3D :=
  match o with DirectionalLight p _ _ => DirectionalLight p hex i | other => other end.

(** One pass over the objects: the first ambient light and the first
    high directional light take the preset ([fa] and [fd] say that the
    light was met already). *)
Fixpoint relit_pass (ia id : float) (hex : Z) (fa fd : bool) (l : list Object3D)
  : list Object3D :=
  match l with
  | [] => []
  | o :: rest =>
      if is_ambient o && negb fa then lit_ambient ia o :: relit_pass ia id hex true fd rest
      else if is_sun o && negb fd then lit_sun id hex o :: relit_pass ia id hex fa true rest
      else o :: relit_pass ia id hex fa fd rest
  end.

(** The two presets: dim and cool under rain or clouds, bright and warm
    otherwise. *)
Definition preset (w : WeatherState) : float * float * Z :=
  if rainy w || cloudy w then (0.4, 0.5, 0xccccff%Z) else (0.6, 0.8, 0xfff4e6%Z).

(** The objects of the scene after [updateLighting]. *)
Definition relit (w : WeatherState) (l : list Object3D) : list Object3D :=
  if existsb is_ambient l && existsb is_sun l then
    let '(ia, id, hex) := preset w in relit_pass ia id hex false false l
  else l.

Lemma relit_pass_done (ia id : float) (hex : Z) (l : list Object3D) :
  relit_pass ia id hex true true l = l.
Proof.
  induction l as [|o l IH]; simpl; [reflexivity|].
  now rewrite !andb_false_r, IH.
Qed.

Lemma relit_pass_ambient (ia id : float) (hex : Z) (l : list Object3D) :
  update_first is_ambient (lit_ambient ia) l = relit_pass ia id hex false true l.
Proof.
  induction l as [|o l IH]; simpl; [reflexivity|].
  rewrite andb_true_r, andb_false_r.
  destruct (is_ambient o); [now rewrite relit_pass_done|now rewrite IH].
Qed.

Lemma relit_pass_sun (ia id : float) (hex : Z) (l : list Object3D) :
  update_first is_sun (fun o => lit_sun id hex o) l = relit_pass ia id hex true false l.
Proof.
  induction l as [|o l IH]; simpl; [reflexivity|].
  rewrite andb_true_r, andb_false_r.
  destruct (is_sun o); [now rewrite relit_pass_done|now rewrite IH].
Qed.

Lemma relit_pass_both (ia id : float) (hex : Z) (l : list Object3D) :
  update_first is_sun (fun o => lit_sun id hex o)
    (update_first is_ambient (lit_ambient ia) l)
  = relit_pass ia id hex false false l.
Proof.
  induction l as [|o l IH]; simpl; [reflexivity|].
  rewrite !andb_true_r.
  destruct (is_ambient o) eqn:A; simpl.
  - assert (S : is_sun (lit_ambient ia o) = false) by (destruct o; simpl in *; congruence).
    rewrite S. f_equal. apply relit_pass_sun.
  - destruct (is_sun o) eqn:S; [f_equal; apply relit_pass_ambient|now rewrite IH].
Qed.

(** The same on the child list, where the engine's own objects are
    neither light. *)
Lemma foreigns_update_first (pc : SceneChild -> bool) (fc : SceneChild -> SceneChild)
      (p : Object3D -> bool) (f : Object3D -> Object3D) (cs : list SceneChild) :
  (forall o, pc (Foreign o) = p o) ->
  (forall k id, pc (Effect k id) = false) ->
  (forall o, fc (Foreign o) = Foreign (f o)) ->
  foreigns (update_first pc fc cs) = update_first p f (foreigns cs).
Proof.
  intros Hp He Hf. induction cs as [|c cs IH]; [reflexivity|].
  destruct c as [o|k id]; simpl.
  - rewrite Hp. destruct (p o); simpl; [now rewrite Hf|now rewrite IH].
  - rewrite He. simpl. exact IH.
Qed.

Lemma find_index_foreigns (pc : SceneChild -> bool) (p : Object3D -> bool)
      (cs : list SceneChild) :
  (forall o, pc (Foreign o) = p o) ->
  (forall k id, pc (Effect k id) = false) ->
  truthy (find_index pc cs) = existsb p (foreigns cs).
Proof.
  intros Hp He. induction cs as [|c cs IH]; [reflexivity|].
  destruct c as [o|k id]; simpl.
  - rewrite Hp. destruct (p o); [reflexivity|].
    simpl. rewrite <- IH. now destruct (find_index pc cs).
  - rewrite He. rewrite <- IH. now destruct (find_index pc cs).
Qed.

Definition intensity_to (i : float) (o : Object3D) : Object3D :=
  match o with
  | AmbientLight color _ => AmbientLight color i
  | DirectionalLight p color _ => DirectionalLight p color i
  | other => other
  end.

Definition color_to (hex : Z) (o : Object3D) : Object3D :=
  match o with
  | AmbientLight _ i => AmbientLight hex i
  | DirectionalLight p _ i => DirectionalLight p hex i
  | other => other
  end.

Lemma update_first_ext {A : Type} (p : A -> bool) (f g : A -> A) (l : list A) :
  (forall x, p x = true -> f x = g x) -> update_first p f l = update_first p g l.
Proof.
  intros H. induction l as [|x l IH]; simpl; [reflexivity|].
  destruct (p x) eqn:E; [now rewrite H|now rewrite IH].
Qed.

Lemma update_first_twice {A : Type} (p : A -> bool) (f g : A -> A) (l : list A) :
  (forall x, p (f x) = p x) ->
  update_first p g (update_first p f l) = update_first p (fun x => g (f x)) l.
Proof.
  intros H. induction l as [|x l IH]; simpl; [reflexivity|].
  destruct (p x) eqn:E; simpl; [now rewrite H, E|now rewrite E, IH].
Qed.

(** [relight] on the child list is [relit] on the objects. *)
Lemma foreigns_relight (w : WeatherState) (cs : list SceneChild) :
  foreigns (relight w cs) = relit w (foreigns cs).
Proof.
  unfold relight, relit.
  rewrite <- (@find_index_foreigns is_AmbientLight is_ambient cs)
    by (intros; reflexivity).
  rewrite <- (@find_index_foreigns is_high_DirectionalLight is_sun cs)
    by (intros; reflexivity).
  destruct (find_index is_AmbientLight cs) as [a|] eqn:Ea; [|reflexivity].
  destruct (find_index is_high_DirectionalLight cs) as [d|] eqn:Ed; [|reflexivity].
  cbn [truthy andb].
  assert (G : forall ia id hex,
             foreigns (update_at d (set_color hex)
                         (update_at d (set_intensity id)
                            (update_at a (set_intensity ia) cs)))
             = relit_pass ia id hex false false (foreigns cs)).
  { intros ia id hex.
    rewrite (@update_at_find_index _ is_AmbientLight (set_intensity ia) cs a Ea).
    assert (Ed1 : find_index is_high_DirectionalLight
                    (update_first is_AmbientLight (set_intensity ia) cs) = Some d).
    { rewrite find_index_update_first; [exact Ed|].
      intros [[c i|p c i|n]|k j]; reflexivity. }
    rewrite (@update_at_find_index _ is_high_DirectionalLight (set_intensity id) _ d Ed1).
    assert (Ed2 : find_index is_high_DirectionalLight
                    (update_first is_high_DirectionalLight (set_intensity id)
                       (update_first is_AmbientLight (set_intensity ia) cs)) = Some d).
    { rewrite find_index_update_first; [exact Ed1|].
      intros [[c i|p c i|n]|k j]; reflexivity. }
    rewrite (@update_at_find_index _ is_high_DirectionalLight (set_color hex) _ d Ed2).
    rewrite update_first_twice by (intros [[c i|p c i|n]|k j]; reflexivity).
    rewrite (@foreigns_update_first is_high_DirectionalLight
               (fun x => set_color hex (set_intensity id x))
               is_sun (fun o => color_to hex (intensity_to id o)))
      by (try (intros [c i|p c i|n]; reflexivity); intros; reflexivity).
    rewrite (@foreigns_update_first is_AmbientLight (set_intensity ia)
               is_ambient (intensity_to ia))
      by (try (intros [c i|p c i|n]; reflexivity); intros; reflexivity).
    rewrite (@update_first_ext _ is_sun (fun o => color_to hex (intensity_to id o))
               (fun o => lit_sun id hex o))
      by (intros [c i|p c i|n]; simpl; intros; congruence).
    rewrite (@update_first_ext _ is_ambient (intensity_to ia) (lit_ambient ia))
      by (intros [c i|p c i|n]; simpl; intros; congruence).
    apply relit_pass_both. }
  unfold preset. destruct (rainy w || cloudy w); apply G.
Qed.

Lemma relit_pass_idem (ia id : float) (hex : Z) (l : list Object3D) :
  forall fa fd, relit_pass ia id hex fa fd (relit_pass ia id hex fa fd l)
                = relit_pass ia id hex fa fd l.
Proof.
  induction l as [|o l IH]; intros fa fd; simpl; [reflexivity|].
  destruct o as [c i|p c i|n]; simpl.
  - destruct fa; simpl; now rewrite IH.
  - destruct (gtb (vy p) 20) eqn:G; simpl.
    + destruct fd; simpl; rewrite ?G; simpl; now rewrite IH.
    + rewrite G. simpl. now rewrite IH.
  - now rewrite IH.
Qed.

Lemma existsb_relit_pass (q : Object3D -> bool) (ia id : float) (hex : Z)
      (l : list Object3D) :
  (forall o, q (lit_ambient ia o) = q o) ->
  (forall o, q (lit_sun id hex o) = q o) ->
  forall fa fd, existsb q (relit_pass ia id hex fa fd l) = existsb q l.
Proof.
  intros Ha Hs. induction l as [|o l IH]; intros fa fd; simpl; [reflexivity|].
  destruct (is_ambient o && negb fa); simpl; [now rewrite Ha, IH|].
  destruct (is_sun o && negb fd); simpl; [now rewrite Hs, IH|now rewrite IH].
Qed.

(** Setting the lights twice from one weather state is setting them once. *)
Lemma relit_idem (w : WeatherState) (l : list Object3D) :
  relit w (relit w l) = relit w l.
Proof.
  unfold relit. destruct (preset w) as [[ia id] hex].
  destruct (existsb is_ambient l && existsb is_sun l) eqn:E; [|now rewrite E].
  rewrite !existsb_relit_pass, E by (intros [c i|p c i|n]; reflexivity).
  apply relit_pass_idem.
Qed.

(** *** What the scene shows *)

Definition clouds_instance (s : t) : option CloudGroup :=
  match clouds s with
  | Some g => if is_child Clouds (clouds_id g) s then Some g else None
  | None => None
  end.

Definition windLines_instance (s : t) : option ParticleObject :=
  match windLines s with
  | Some l => if is_child WindLines (particles_id l) s then Some l else None
  | None => None
  end.

(** What is visible of a state, without the random draws and without
    the identities of the objects: the fog of the scene, the objects
    the engine did not create (the lights among them), the offset and
    the number of clouds of the cloud group, the lengths of the rain
    and streak buffers, the rotation and the scale of the arrow. *)
Record Configuration := {
  cfg_fog : option FogExp2;
  cfg_objects : list Object3D;
  cfg_clouds : option (float * nat);
  cfg_rain : option nat;
  cfg_streaks : option nat;
  cfg_indicator : option (float * Vector3)
}.

Definition configuration (s : t) : Configuration :=
  {| cfg_fog := scene_fog s;
     cfg_objects := foreigns (scene_children s);
     cfg_clouds := option_map (fun g => (clouds_position_x g,
                                         List.length (clouds_children g)))
                              (clouds_instance s);
     cfg_rain := option_map (fun p => List.length (positions p)) (rain_instance s);
     cfg_streaks := option_map (fun l => List.length (positions l))
                               (windLines_instance s);
     cfg_indicator := option_map (fun a => (arrow_rotation_z a, arrow_scale a))
                                 (indicator_instance s) |}.

(** The policy table: the configuration that a weather state asks for,
    over the given objects. *)
Definition derived_configuration (w : WeatherState) (objects : list Object3D)
  : Configuration :=
  {| cfg_fog := Some (fog_of w);
     cfg_objects := objects;
     cfg_clouds := option_map (fun n => (0, N.to_nat n)) (loop_trips (cloudCount w));
     cfg_rain := if rainy w then option_map N.to_nat (ToIndex (particleCount w * 3))
                 else None;
     cfg_streaks := if windSpeed w <=? 3 then None else Some (lineCount * 6)%nat;
     cfg_indicator := if gtb (windSpeed w) 0
                      then Some (degToRad (windDirection w - 180),
                                 vec3 (arrow_scale_of w) (arrow_scale_of w)
                                      (arrow_scale_of w))
                      else None |}.

Lemma clouds_instance_view (s : t) (h : option CloudGroup) :
  view CClouds s = VClouds h (one clouds_id h) -> clouds_instance s = h.
Proof.
  simpl. intros H. injection H as H1 H2. unfold clouds_instance, is_child.
  rewrite H1. destruct h as [g|]; simpl; [|reflexivity].
  rewrite existsb_is_ref, H2. simpl. now rewrite Nat.eqb_refl.
Qed.

Lemma windLines_instance_view (s : t) (h : option ParticleObject) :
  view CWind s = VParticles h (one particles_id h) -> windLines_instance s = h.
Proof.
  simpl. intros H. injection H as H1 H2. unfold windLines_instance, is_child.
  rewrite H1. destruct h as [l|]; simpl; [|reflexivity].
  rewrite existsb_is_ref, H2. simpl. now rewrite Nat.eqb_refl.
Qed.

Lemma Derived_configuration (w : WeatherState) (s : t) :
  Derived w s -> configuration s = derived_configuration w (foreigns (scene_children s)).
Proof.
  intros (_ & _ & F & (g & n & Vc & Xc & Nc & Lc) & Dr & Dw & Di).
  unfold configuration, derived_configuration.
  simpl in F. injection F as F _. rewrite F.
  rewrite (clouds_instance_view (s := s) (h := Some g) Vc), Nc. simpl.
  rewrite Xc, Lc.
  assert (R : option_map (fun p => List.length (positions p)) (rain_instance s)
              = if rainy w then option_map N.to_nat (ToIndex (particleCount w * 3))
                else None).
  { destruct (rainy w).
    - destruct Dr as (p & zeros & V & Z & L & _).
      rewrite (rain_instance_view (s := s) (h := Some p) V).
      rewrite (Float32Array_new_length _ Z). simpl. now rewrite Nat2N.id, L.
    - now rewrite (rain_instance_view (s := s) (h := None) Dr). }
  assert (W : option_map (fun l => List.length (positions l)) (windLines_instance s)
              = if windSpeed w <=? 3 then None else Some (lineCount * 6)%nat).
  { destruct (windSpeed w <=? 3).
    - now rewrite (windLines_instance_view (s := s) (h := None) Dw).
    - destruct Dw as (l & V & L & _).
      rewrite (windLines_instance_view (s := s) (h := Some l) V). simpl. now rewrite L. }
  assert (A : option_map (fun a => (arrow_rotation_z a, arrow_scale a))
                         (indicator_instance s)
              = if gtb (windSpeed w) 0
                then Some (degToRad (windDirection w - 180),
                           vec3 (arrow_scale_of w) (arrow_scale_of w) (arrow_scale_of w))
                else None).
  { destruct (gtb (windSpeed w) 0).
    - destruct Di as (gi & a & V & Rz & Sc).
      rewrite (indicator_instance_view (s := s) (g := Some gi) (a := Some a) V eq_refl).
      simpl. now rewrite Rz, Sc.
    - now rewrite (indicator_instance_view (s := s) (g := None) (a := None) Di eq_refl). }
  now rewrite R, W, A.
Qed.

(** An update that returns installs the configuration that the policy
    table derives from its weather state, with the lights set anew. *)
Lemma updateWeather_configuration (Math_random : nat -> float) (s : t) (w : WeatherState) :
  Inv s -> completes w = true ->
  exists s', updateWeather Math_random w s = Returned s' /\ Derived w s' /\
             configuration s'
             = derived_configuration w (relit w (cfg_objects (configuration s))).
Proof.
  intros I C.
  destruct (updateWeather_returns Math_random w I C) as (s' & E & D & L).
  exists s'. split; [exact E|]. split; [exact D|].
  rewrite (Derived_configuration D). f_equal.
  simpl in L. injection L as L. rewrite L. apply foreigns_relight.
Qed.

(** A label with neither "rain" nor "cloud" makes five clouds and no
    rain buffer: the update returns whatever the numbers are. *)
Lemma completes_clear (w : WeatherState) :
  rainy w = false -> cloudy w = false -> completes w = true.
Proof.
  intros R C. unfold completes, cloudCount. fold (rainy w) (cloudy w).
  rewrite R, C. reflexivity.
Qed.

(** *** A value outside the documented ranges *)

(** C6, as the code has it.  [updateWeather] does not validate the
    weather state.  On every value for which the call returns (among
    them every value whose label has neither "rain" nor "cloud",
    whatever its numbers, and every rain value with a whole humidity in
    [0, 100] and beyond it whenever the buffer length is valid), the
    value becomes the stored state and every effect is derived from it
    by the policy table: the previous effects are not retained. *)
Theorem weather_state_is_applied_without_validation
        (Math_random : nat -> float) (children : list Object3D)
        (fog0 : option FogExp2) (ws : list WeatherState) (s : t) (w : WeatherState) :
  after_updates Math_random (new children fog0) ws = Some s ->
  completes w = true ->
  exists s', updateWeather Math_random w s = Returned s' /\
             weatherState s' = Some w /\
             configuration s'
             = derived_configuration w (relit w (cfg_objects (configuration s))).
Proof.
  intros R C. pose proof (reached_Inv _ _ _ _ R) as I.
  destruct (updateWeather_configuration Math_random w I C) as (s' & E & D & G).
  exists s'. split; [exact E|]. split; [apply D|exact G].
Qed.

(** A humidity of 150 percent under a clear sky. *)
Definition sample_malformed : WeatherState :=
  {| conditions := "Clear"; temperature := 25; windSpeed := 0; humidity := 150;
     windDirection := 90 |}.

Lemma weather_state_is_applied_without_validation_witness :
  exists s, after_updates sample_random (new sample_lights sample_fog) [sample_clear]
            = Some s /\
    completes sample_malformed = true /\
    exists s', updateWeather sample_random sample_malformed s = Returned s' /\
               weatherState s' = Some sample_malformed /\
               cfg_fog (configuration s') = Some (fog_of sample_malformed).
Proof.
  pose proof (weather_state_is_applied_without_validation sample_random sample_lights
                sample_fog [sample_clear]) as T.
  assert (R : exists s, after_updates sample_random (new sample_lights sample_fog)
                          [sample_clear] = Some s)
    by (vm_compute; eexists; reflexivity).
  destruct R as [s R]. exists s. split; [exact R|].
  assert (C : completes sample_malformed = true) by (vm_compute; reflexivity).
  split; [exact C|].
  destruct (T s sample_malformed R C) as (s' & E & W & G).
  exists s'. split; [exact E|]. split; [exact W|]. now rewrite G.
Defined.

(** C6 fails as stated: after a valid clear-sky update, the update with
    150 percent humidity returns with the malformed value stored and
    the fog density recomputed from it (0.004 instead of 0.0016, up to
    rounding). *)
Lemma malformed_weather_replaces_state :
  exists s s',
    after_updates sample_random (new sample_lights sample_fog) [sample_clear] = Some s /\
    updateWeather sample_random sample_malformed s = Returned s' /\
    weatherState s = Some sample_clear /\
    weatherState s' = Some sample_malformed /\
    option_map fog_density (scene_fog s) = Some 0.0015999999999999999 /\
    option_map fog_density (scene_fog s') = Some 0.004.
Proof.
  do 2 eexists. split; [vm_compute; reflexivity|].
  split; [vm_compute; reflexivity|].
  repeat split; vm_compute; reflexivity.
Qed.

(** What happens on a rain label with a negative humidity: the buffer
    length is negative, [new Float32Array] throws a RangeError, and the
    error leaves [updateWeather] after the fog, the lights and the
    clouds were set and the rain removed. *)
Example negative_humidity_throws :
  match updateWeather sample_random
          {| conditions := "Rain"; temperature := 18; windSpeed := 5;
             humidity := -10; windDirection := 90 |}
          (new sample_lights sample_fog) with
  | Threw RangeError s => truthy (clouds s) = true /\ rainParticles s = None /\
                          windIndicator s = None
  | _ => False
  end.
Proof. vm_compute. repeat split. Qed.

(** *** The same weather state twice *)

(** C8, as the code has it.  Applying a weather state a second time
    right after it was applied gives the same configuration as applying
    it once: the same fog, the same lights, as many clouds at the same
    offset, as many rain particles and streaks, the same arrow; and no
    kind has more than one instance.  (The clouds, particles and
    streaks themselves are drawn anew: see the counterexample.) *)
Theorem same_weather_twice_same_configuration
        (Math_random : nat -> float) (children : list Object3D)
        (fog0 : option FogExp2) (ws : list WeatherState) (s : t) (w : WeatherState) :
  after_updates Math_random (new children fog0) ws = Some s ->
  completes w = true ->
  exists s1 s2, updateWeather Math_random w s = Returned s1 /\
                updateWeather Math_random w s1 = Returned s2 /\
                configuration s2 = configuration s1 /\
                forall k, (instances k s2 <= 1)%nat.
Proof.
  intros R C. pose proof (reached_Inv _ _ _ _ R) as I.
  destruct (updateWeather_configuration Math_random w I C) as (s1 & E1 & D1 & G1).
  assert (I1 : Inv s1) by apply D1.
  destruct (updateWeather_configuration Math_random w I1 C) as (s2 & E2 & D2 & G2).
  exists s1, s2. split; [exact E1|]. split; [exact E2|]. split.
  - rewrite G2, G1. cbn [cfg_objects derived_configuration]. now rewrite relit_idem.
  - intros k. apply Inv_instances. apply D2.
Qed.

Lemma same_weather_twice_same_configuration_witness :
  exists s, after_updates sample_random (new sample_lights sample_fog) [sample_clear]
            = Some s /\
    completes sample_rain = true /\
    exists s1 s2, updateWeather sample_random sample_rain s = Returned s1 /\
                  updateWeather sample_random sample_rain s1 = Returned s2 /\
                  configuration s2 = configuration s1.
Proof.
  pose proof (same_weather_twice_same_configuration sample_random sample_lights
                sample_fog [sample_clear]) as T.
  assert (R : exists s, after_updates sample_random (new sample_lights sample_fog)
                          [sample_clear] = Some s)
    by (vm_compute; eexists; reflexivity).
  destruct R as [s R]. exists s. split; [exact R|].
  assert (C : completes sample_rain = true) by (vm_compute; reflexivity).
  split; [exact C|].
  destruct (T s sample_rain R C) as (s1 & s2 & E1 & E2 & G & _).
  exists s1, s2. auto.
Defined.

(** C8 fails as stated: the second application of the same state
    removes the cloud group and builds another one from new random
    numbers, so the clouds are not where they were. *)
Lemma same_weather_twice_other_clouds :
  exists s1 s2 g1 g2,
    updateWeather sample_random sample_clear (new sample_lights sample_fog)
    = Returned s1 /\
    updateWeather sample_random sample_clear s1 = Returned s2 /\
    clouds_instance s1 = Some g1 /\
    clouds_instance s2 = Some g2 /\
    hd_error (map cloud_position (clouds_children g1)) = Some (vec3 (-50) 17 (-10)) /\
    hd_error (map cloud_position (clouds_children g2)) = Some (vec3 0 12 40) /\
    map cloud_position (clouds_children g1) <> map cloud_position (clouds_children g2).
Proof.
  do 4 eexists.
  split; [vm_compute; reflexivity|].
  split; [vm_compute; reflexivity|].
  split; [vm_compute; reflexivity|].
  split; [vm_compute; reflexivity|].
  split; [vm_compute; reflexivity|].
  split; [vm_compute; reflexivity|].
  intros H.
  apply (f_equal (fun l => match l with
                           | p :: _ => Prim2SF (vx p)
                           | [] => S754_nan
                           end)) in H.
  vm_compute in H. discriminate H.
Qed.

(** *** dispose, and animate after it *)

Lemma dispose_spec (s : t) :
  Inv s ->
  exists s', dispose s = Returned s' /\
             (forall k, refs k (scene_children s') = []) /\
             foreigns (scene_children s') = foreigns (scene_children s) /\
             scene_fog s' = (if truthy (fog s) then None else scene_fog s) /\
             clouds s' = clouds s /\ rainParticles s' = rainParticles s /\
             windLines s' = windLines s /\ windIndicator s' = windIndicator s /\
             windArrow s' = windArrow s /\ weatherState s' = weatherState s /\
             fog s' = fog s /\ next_id s' = next_id s /\
             random_calls s' = random_calls s.
Proof.
  intros I.
  pose proof (I CClouds) as Ic. pose proof (I CRain) as Ir.
  pose proof (I CWind) as Iw. pose proof (I CIndicator) as [Ii _].
  simpl in Ic, Ir, Iw, Ii. unfold dispose.
  destruct (clouds s) as [c|] eqn:Ec; simpl;
    destruct (rainParticles s) as [p|] eqn:Ep; simpl;
    destruct (windLines s) as [l|] eqn:El; simpl;
    destruct (truthy (fog s)); simpl;
    destruct (windIndicator s) as [g|] eqn:Eg; simpl in *;
    (eexists; split; [reflexivity|]; split;
     [intros k; destruct k; simpl;
      rewrite ?refs_remove_other by discriminate;
      try assumption;
      (apply refs_remove_only; rewrite ?refs_remove_other by discriminate; assumption)
     |simpl; rewrite ?foreigns_remove; repeat split; auto]).
Qed.

(** What [animate] leaves as it is: the scene, the allocation counter
    (nothing is created), the weather state, the fog and the indicator. *)
Definition same_scene (s s' : t) : Prop :=
  scene_children s' = scene_children s /\
  scene_fog s' = scene_fog s /\
  next_id s' = next_id s /\
  weatherState s' = weatherState s /\
  fog s' = fog s /\
  windIndicator s' = windIndicator s /\
  windArrow s' = windArrow s.

Lemma same_scene_refl (s : t) : same_scene s s.
Proof. repeat split. Qed.

Lemma same_scene_trans (s1 s2 s3 : t) :
  same_scene s1 s2 -> same_scene s2 s3 -> same_scene s1 s3.
Proof.
  unfold same_scene. intros (A1 & A2 & A3 & A4 & A5 & A6 & A7)
                            (B1 & B2 & B3 & B4 & B5 & B6 & B7).
  repeat split; congruence.
Qed.

Lemma animate_clouds_scene (delta : float) (s : t) :
  same_scene s (animate_clouds delta s).
Proof.
  unfold animate_clouds.
  destruct (clouds s); [destruct (weatherState s)|]; repeat split.
Qed.

Lemma animate_rainParticles_scene (Math_random : nat -> float) (delta : float) (s : t) :
  same_scene s (animate_rainParticles Math_random delta s).
Proof.
  unfold animate_rainParticles.
  destruct (rainParticles s) as [p|]; [destruct (weatherState s)|];
    try apply same_scene_refl.
  destruct (animate_rain Math_random delta _ 0 _ _) as [a r]. repeat split.
Qed.

Lemma animate_windLines_scene (Math_random : nat -> float) (delta : float) (s : t) :
  same_scene s (animate_windLines Math_random delta s).
Proof.
  unfold animate_windLines.
  destruct (windLines s) as [l|]; [destruct (weatherState s) as [w|]|];
    try apply same_scene_refl.
  destruct (animate_wind Math_random _ delta _ 0 _ _) as [a r]. repeat split.
Qed.

(** [animate] always returns, and returns a state with the same scene. *)
Lemma animate_scene (Math_random : nat -> float) (delta : float) (s : t) :
  exists s', animate Math_random delta s = Returned s' /\ same_scene s s'.
Proof.
  unfold animate. eexists. split; [reflexivity|].
  eapply same_scene_trans; [apply animate_clouds_scene|].
  eapply same_scene_trans; [apply animate_rainParticles_scene|].
  apply animate_windLines_scene.
Qed.

(** *** Further rows of the policy table *)

(** The wind streaks: after an update that returns, the streaks exist
    exactly when [windSpeed <= 3] is false, and their buffer holds 50
    segments of two points (300 numbers). *)
Theorem wind_streaks_iff_wind_above_three
        (Math_random : nat -> float) (children : list Object3D)
        (fog0 : option FogExp2) (ws : list WeatherState) (s : t) (w : WeatherState) :
  after_updates Math_random (new children fog0) ws = Some s ->
  completes w = true ->
  exists s', updateWeather Math_random w s = Returned s' /\
    ((exists l, windLines_instance s' = Some l) <-> (windSpeed w <=? 3) = false) /\
    (forall l, windLines_instance s' = Some l -> List.length (positions l) = 300%nat).
Proof.
  intros R C. pose proof (reached_Inv _ _ _ _ R) as I.
  destruct (updateWeather_returns Math_random w I C) as (s' & E & D & _).
  exists s'. split; [exact E|].
  destruct D as (_ & _ & _ & _ & _ & Dw & _).
  destruct (windSpeed w <=? 3).
  - pose proof (windLines_instance_view (s := s') (h := None) Dw) as WI.
    split; [split; [intros [l Hl]; congruence|discriminate]|].
    intros l Hl. congruence.
  - destruct Dw as (l & V & L & _).
    pose proof (windLines_instance_view (s := s') (h := Some l) V) as WI.
    split; [split; [reflexivity|exists l; exact WI]|].
    intros l' Hl'. rewrite WI in Hl'. injection Hl' as <-. exact L.
Qed.

Lemma wind_streaks_iff_wind_above_three_witness :
  exists s, after_updates sample_random (new sample_lights sample_fog) [sample_clear]
            = Some s /\
    completes sample_rain = true /\
    exists s', updateWeather sample_random sample_rain s = Returned s' /\
      exists l, windLines_instance s' = Some l /\ List.length (positions l) = 300%nat.
Proof.
  pose proof (wind_streaks_iff_wind_above_three sample_random sample_lights sample_fog
                [sample_clear]) as T.
  assert (R : exists s, after_updates sample_random (new sample_lights sample_fog)
                          [sample_clear] = Some s)
    by (vm_compute; eexists; reflexivity).
  destruct R as [s R]. exists s. split; [exact R|].
  assert (C : completes sample_rain = true) by (vm_compute; reflexivity).
  split; [exact C|].
  destruct (T s sample_rain R C) as (s' & E & Hiff & Hlen).
  exists s'. split; [exact E|].
  destruct (proj2 Hiff eq_refl) as [l Hl].
  exists l. split; [exact Hl|exact (Hlen l Hl)].
Defined.

(** The clouds: after an update that returns, a cloud group exists at
    offset 0, with as many clouds as the loop [i < cloudCount] runs:
    [15 + windSpeed * 2] under a rain label, [10 + windSpeed] under a
    cloud label, 5 otherwise. *)
Theorem cloud_group_follows_label_and_wind
        (Math_random : nat -> float) (children : list Object3D)
        (fog0 : option FogExp2) (ws : list WeatherState) (s : t) (w : WeatherState) :
  after_updates Math_random (new children fog0) ws = Some s ->
  completes w = true ->
  exists s' g, updateWeather Math_random w s = Returned s' /\
    clouds_instance s' = Some g /\
    clouds_position_x g = 0 /\
    loop_trips (if rainy w then 15 + windSpeed w * 2
                else if cloudy w then 10 + windSpeed w else 5)
    = Some (N.of_nat (List.length (clouds_children g))).
Proof.
  intros R C. pose proof (reached_Inv _ _ _ _ R) as I.
  destruct (updateWeather_returns Math_random w I C) as (s' & E & D & _).
  destruct D as (_ & _ & _ & (g & n & V & X & Hn & L) & _).
  exists s', g. split; [exact E|].
  split; [exact (clouds_instance_view (s := s') (h := Some g) V)|].
  split; [exact X|].
  change (loop_trips (cloudCount w)
          = Some (N.of_nat (List.length (clouds_children g)))).
  rewrite Hn, L. now rewrite N2Nat.id.
Qed.

Lemma cloud_group_follows_label_and_wind_witness :
  exists s, after_updates sample_random (new sample_lights sample_fog) [sample_clear]
            = Some s /\
    completes sample_rain = true /\
    exists s' g, updateWeather sample_random sample_rain s = Returned s' /\
                 clouds_instance s' = Some g /\
                 List.length (clouds_children g) = 25%nat.
Proof.
  pose proof (cloud_group_follows_label_and_wind sample_random sample_lights sample_fog
                [sample_clear]) as T.
  assert (R : exists s, after_updates sample_random (new sample_lights sample_fog)
                          [sample_clear] = Some s)
    by (vm_compute; eexists; reflexivity).
  destruct R as [s R]. exists s. split; [exact R|].
  assert (C : completes sample_rain = true) by (vm_compute; reflexivity).
  split; [exact C|].
  destruct (T s sample_rain R C) as (s' & g & E & Hg & _ & Hn).
  exists s', g. split; [exact E|]. split; [exact Hg|].
  assert (K : loop_trips (if rainy sample_rain then 15 + windSpeed sample_rain * 2
                          else if cloudy sample_rain then 10 + windSpeed sample_rain
                          else 5) = Some 25%N)
    by (vm_compute; reflexivity).
  rewrite K in Hn. injection Hn as Hn.
  apply (f_equal N.to_nat) in Hn. rewrite Nat2N.id in Hn.
  rewrite <- Hn. reflexivity.
Defined.

(** The outcomes of [updateWeather].  It returns only on the inputs
    that [completes] accepts: the cloud loop has to end, and under a
    rain label the length of the rain buffer has to be one that
    [new Float32Array] takes.  The only exception that leaves it is a
    RangeError, and the object then holds the new weather state and
    the scene the new fog.  (Whether the engine finds the memory for a
    buffer of a valid length is not modelled, so that nothing is said
    about the inputs on which the call does return.) *)
Theorem updateWeather_outcomes
        (Math_random : nat -> float) (children : list Object3D)
        (fog0 : option FogExp2) (ws : list WeatherState) (s : t) (w : WeatherState) :
  after_updates Math_random (new children fog0) ws = Some s ->
  match updateWeather Math_random w s with
  | Returned s' => completes w = true /\ weatherState s' = Some w
  | Threw e s' => e = RangeError /\
                  weatherState s' = Some w /\ scene_fog s' = Some (fog_of w)
  | Diverged => completes w = false
  end.
Proof.
  intros R. pose proof (reached_Inv _ _ _ _ R) as I.
  pose proof (updateWeather_spec Math_random w I) as H.
  destruct (updateWeather Math_random w s) as [s'|e s'|].
  - destruct H as (C & D & _). split; [exact C|apply D].
  - destruct H as (_ & He & W & _ & F). repeat split; try assumption.
    simpl in F. now injection F.
  - exact H.
Qed.

(** A rain label with a negative humidity: the length of the buffer is
    -15000, and [new Float32Array] throws. *)
Definition sample_rain_negative : WeatherState :=
  {| conditions := "Rain"; temperature := 18; windSpeed := 5; humidity := -100;
     windDirection := 90 |}.

Lemma updateWeather_outcomes_witness :
  after_updates sample_random (new sample_lights sample_fog) [] =
    Some (new sample_lights sample_fog) /\
  exists s', updateWeather sample_random sample_rain_negative (new sample_lights sample_fog)
             = Threw RangeError s' /\
             weatherState s' = Some sample_rain_negative /\
             scene_fog s' = Some (fog_of sample_rain_negative).
Proof.
  split; [reflexivity|].
  pose proof (updateWeather_outcomes sample_random sample_lights sample_fog []
                (s := new sample_lights sample_fog) sample_rain_negative eq_refl) as T.
  assert (E : exists s', updateWeather sample_random sample_rain_negative
                           (new sample_lights sample_fog) = Threw RangeError s')
    by (vm_compute; eexists; reflexivity).
  destruct E as [s' E]. rewrite E in T. exists s'. split; [exact E|apply T].
Defined.

(** With a humidity that is a whole percentage in [0, 100], an update
    returns as soon as its cloud loop ends: the rain buffer never
    throws on the documented range. *)
Theorem whole_percent_humidity_never_throws
        (Math_random : nat -> float) (children : list Object3D)
        (fog0 : option FogExp2) (ws : list WeatherState) (s : t) (w : WeatherState)
        (h : nat) :
  after_updates Math_random (new children fog0) ws = Some s ->
  (h <= 100)%nat ->
  humidity w = percent h ->
  truthy (loop_trips (cloudCount w)) = true ->
  exists s', updateWeather Math_random w s = Returned s'.
Proof.
  intros R Hh Eh Hc. pose proof (reached_Inv _ _ _ _ R) as I.
  assert (C : completes w = true) by (rewrite (completes_percent w Hh Eh); exact Hc).
  destruct (updateWeather_returns Math_random w I C) as (s' & E & _).
  exists s'. exact E.
Qed.

Lemma whole_percent_humidity_never_throws_witness :
  after_updates sample_random (new sample_lights sample_fog) [] =
    Some (new sample_lights sample_fog) /\
  (2 <= 100)%nat /\ humidity sample_rain = percent 2 /\
  truthy (loop_trips (cloudCount sample_rain)) = true /\
  exists s', updateWeather sample_random sample_rain (new sample_lights sample_fog)
             = Returned s'.
Proof.
  split; [reflexivity|]. split; [lia|]. split; [reflexivity|].
  split; [vm_compute; reflexivity|].
  apply (whole_percent_humidity_never_throws sample_random sample_lights sample_fog []
           (s := new sample_lights sample_fog) sample_rain (h := 2)).
  - reflexivity.
  - lia.
  - reflexivity.
  - vm_compute. reflexivity.
Defined.

(** [dispose] on a state that updates reach: every effect instance is
    removed from the scene, the other objects stay, and the fog of the
    scene is cleared when the engine had set one. *)
Theorem dispose_removes_every_instance
        (Math_random : nat -> float) (children : list Object3D)
        (fog0 : option FogExp2) (ws : list WeatherState) (s : t) :
  after_updates Math_random (new children fog0) ws = Some s ->
  exists s', dispose s = Returned s' /\
             (forall k, refs k (scene_children s') = []) /\
             foreigns (scene_children s') = foreigns (scene_children s) /\
             scene_fog s' = (if truthy (fog s) then None else scene_fog s).
Proof.
  intros R. pose proof (reached_Inv _ _ _ _ R) as I.
  destruct (dispose_spec I) as (s' & E & Hr & Hf & Hfog & _).
  exists s'. auto.
Qed.

Lemma dispose_removes_every_instance_witness :
  exists s, after_updates sample_random (new sample_lights sample_fog) [sample_rain]
            = Some s /\
    exists s', dispose s = Returned s' /\
               (forall k, refs k (scene_children s') = []) /\
               foreigns (scene_children s') = foreigns (scene_children s) /\
               scene_fog s' = (if truthy (fog s) then None else scene_fog s).
Proof.
  pose proof (dispose_removes_every_instance sample_random sample_lights sample_fog
                [sample_rain]) as T.
  assert (R : exists s, after_updates sample_random (new sample_lights sample_fog)
                          [sample_rain] = Some s)
    by (vm_compute; eexists; reflexivity).
  destruct R as [s R]. exists s. split; [exact R|].
  exact (T s R).
Defined.

(** The scenario of the specification: rain (wind 5, humidity 80) and
    then a clear sky (wind 0, humidity 30).  Both updates return; after
    the second there is no rain instance and no wind indicator, the
    fog has the density of the clear state, and the lights have the
    bright preset. *)
Definition scenario_rain : WeatherState :=
  {| conditions := "Rain"; temperature := 18; windSpeed := 5; humidity := 80;
     windDirection := 90 |}.

Theorem rain_then_clear_scenario (Math_random : nat -> float) :
  exists s1 s2,
    updateWeather Math_random scenario_rain (new sample_lights sample_fog) = Returned s1 /\
    updateWeather Math_random sample_clear s1 = Returned s2 /\
    rain_instance s2 = None /\
    indicator_instance s2 = None /\
    option_map fog_density (scene_fog s2) = Some (0.001 + (30 / 100) * 0.002) /\
    foreigns (scene_children s2)
    = [ AmbientLight 0xffffff 0.6;
        DirectionalLight (vec3 20 30 10) 0xfff4e6 0.8;
        DirectionalLight (vec3 (-10) 20 (-5)) 0xccf0ff 0.3 ].
Proof.
  assert (C1 : completes scenario_rain = true).
  { rewrite (completes_percent scenario_rain (h := 80)); [|lia|reflexivity].
    vm_compute. reflexivity. }
  assert (C2 : completes sample_clear = true) by (apply completes_clear; reflexivity).
  destruct (updateWeather_configuration Math_random scenario_rain
              (Inv_new sample_lights sample_fog) C1) as (s1 & E1 & D1 & G1).
  assert (I1 : Inv s1) by (destruct D1 as (_ & I1 & _); exact I1).
  destruct (updateWeather_configuration Math_random sample_clear I1 C2)
    as (s2 & E2 & D2 & G2).
  exists s1, s2. split; [exact E1|]. split; [exact E2|].
  destruct D2 as (_ & _ & F & _ & Dr & _ & Di).
  split; [exact (rain_instance_view (s := s2) (h := None) Dr)|].
  split; [exact (indicator_instance_view (s := s2) (g := None) (a := None) Di eq_refl)|].
  split; [simpl in F; injection F as F _; rewrite F; reflexivity|].
  apply (f_equal cfg_objects) in G2. apply (f_equal cfg_objects) in G1.
  cbn [cfg_objects configuration derived_configuration] in G1, G2.
  rewrite G2, G1. vm_compute. reflexivity.
Qed.

End WeatherFacts.

(* ================================================================== *)
(** ** The scene builder                                               *)
(* ================================================================== *)

Module FieldFacts.

Import JS THREE Field SceneFacts.
Local Open Scope string_scope.
Local Open Scope float_scope.

(** *** Typed-array reads and writes *)

Lemma load_store_same (i : nat) (v : float) (a : list float) :
  (i < List.length a)%nat -> load i (store i v a) = Math_fround v.
Proof.
  revert i. induction a as [|x a IH]; intros i H; simpl in H; [lia|].
  destruct i; simpl; [reflexivity|]. apply IH. lia.
Qed.

Lemma load_store_other (i j : nat) (v : float) (a : list float) :
  i <> j -> load j (store i v a) = load j a.
Proof.
  revert i j. induction a as [|x a IH]; intros i j H; [destruct i; reflexivity|].
  destruct i, j; simpl; try reflexivity; [lia|]. apply IH. lia.
Qed.

(** *** loadTextures *)

Definition texture_paths : list string :=
  [ "/textures/soil/Ground0825_2K-JPG_Color.jpg";
    "/textures/soil/Ground0825_2K-JPG_NormalGL.jpg";
    "/textures/soil/Ground0825_2K-JPG_Roughness.jpg";
    "/textures/soil/Ground0825_2K-JPG_Displacement.jpg";
    "/textures/grass/grass_path_3_diff_4k.jpg";
    "/textures/grass/grass_path_3_nor_gl_4k.exr";
    "/textures/grass/grass_path_3_rough_4k.jpg" ].

Definition grass_normal_path : string := "/textures/grass/grass_path_3_nor_gl_4k.exr".

(** The seven textures of a completed load, in the order of the source. *)
Definition textures_of (m : TextureMaps) : list Texture :=
  [ soilColor m; soilNormal m; soilRoughness m; soilDisplacement m;
    grassColor m; grassNormal m; grassRoughness m ].

(** The six textures other than the grass normal map. *)
Definition textures_but_grass_normal (m : TextureMaps) : list Texture :=
  [ soilColor m; soilNormal m; soilRoughness m; soilDisplacement m;
    grassColor m; grassRoughness m ].

(** Every texture resolved, or some texture rejected. *)
Lemma load_all_textures_cases (assets : Assets) :
  (exists maps d,
      load_all_textures assets = Resolved maps /\
      (forall url, In url texture_paths -> exists du, texture_at assets url = Resolved du) /\
      texture_at assets grass_normal_path = Resolved d /\
      colorSpace (grassNormal maps) = data_colorSpace d /\
      Forall (fun tex => wrapS tex = RepeatWrapping /\ wrapT tex = RepeatWrapping /\
                         repeat tex = (4, 4)) (textures_of maps) /\
      Forall (fun tex => colorSpace tex = SRGBColorSpace) (textures_but_grass_normal maps))
  \/
  (exists reason url,
      load_all_textures assets = Rejected reason /\
      In url texture_paths /\ texture_at assets url = Rejected reason).
Proof.
  unfold load_all_textures, await_all, loadAsync, texture_paths, grass_normal_path.
  destruct (texture_at assets "/textures/soil/Ground0825_2K-JPG_Color.jpg")
    as [d0|r0] eqn:E0;
    [|right; exists r0; eexists; split; [reflexivity|]; split; [|exact E0]; simpl; tauto].
  destruct (texture_at assets "/textures/soil/Ground0825_2K-JPG_NormalGL.jpg")
    as [d1|r1] eqn:E1;
    [|right; exists r1; eexists; split; [reflexivity|]; split; [|exact E1]; simpl; tauto].
  destruct (texture_at assets "/textures/soil/Ground0825_2K-JPG_Roughness.jpg")
    as [d2|r2] eqn:E2;
    [|right; exists r2; eexists; split; [reflexivity|]; split; [|exact E2]; simpl; tauto].
  destruct (texture_at assets "/textures/soil/Ground0825_2K-JPG_Displacement.jpg")
    as [d3|r3] eqn:E3;
    [|right; exists r3; eexists; split; [reflexivity|]; split; [|exact E3]; simpl; tauto].
  destruct (texture_at assets "/textures/grass/grass_path_3_diff_4k.jpg")
    as [d4|r4] eqn:E4;
    [|right; exists r4; eexists; split; [reflexivity|]; split; [|exact E4]; simpl; tauto].
  destruct (texture_at assets "/textures/grass/grass_path_3_nor_gl_4k.exr")
    as [d5|r5] eqn:E5;
    [|right; exists r5; eexists; split; [reflexivity|]; split; [|exact E5]; simpl; tauto].
  destruct (texture_at assets "/textures/grass/grass_path_3_rough_4k.jpg")
    as [d6|r6] eqn:E6;
    [|right; exists r6; eexists; split; [reflexivity|]; split; [|exact E6]; simpl; tauto].
  left. eexists. exists d5. split; [reflexivity|]. split.
  - intros url H. simpl in H.
    repeat (destruct H as [<-|H]; [eexists; eassumption|]). contradiction.
  - split; [reflexivity|]. split; [reflexivity|].
    split; repeat constructor.
Qed.

Lemma Settled_cases_exclusive (assets : Assets) (maps : TextureMaps) (reason : string) :
  load_all_textures assets = Resolved maps ->
  load_all_textures assets = Rejected reason -> False.
Proof. intros H1 H2. rewrite H1 in H2. discriminate H2. Qed.

(** C5, as the code has it.  After the textures are loaded, each of the
    seven has the repeating wrap mode in both directions and the
    repeat factor (4, 4); the sRGB colour space is set on every texture
    except the grass normal map (so on the soil normal map, the
    roughness maps and the displacement map too); the grass normal
    map, which the EXR loader made, keeps the colour space its loader
    gave it. *)
Theorem textures_configured (assets : Assets) (maps : TextureMaps) :
  load_all_textures assets = Resolved maps ->
  Forall (fun tex => wrapS tex = RepeatWrapping /\ wrapT tex = RepeatWrapping /\
                     repeat tex = (4, 4)) (textures_of maps) /\
  Forall (fun tex => colorSpace tex = SRGBColorSpace) (textures_but_grass_normal maps) /\
  exists d, texture_at assets grass_normal_path = Resolved d /\
            colorSpace (grassNormal maps) = data_colorSpace d.
Proof.
  intros H.
  destruct (load_all_textures_cases assets)
    as [(maps' & d & E & _ & Ed & Ec & Fw & Fc)|(reason & url & E & _)].
  - rewrite H in E. injection E as <-. split; [exact Fw|]. split; [exact Fc|].
    exists d. split; assumption.
  - exfalso. exact (Settled_cases_exclusive _ H E).
Qed.

(** An asset server on which everything loads: the texture loader
    makes a texture with the defaults of three.js, the EXR loader one
    in the linear colour space. *)
Definition sample_texture (url : string) : TextureData :=
  {| data_wrapS := ClampToEdgeWrapping;
     data_wrapT := ClampToEdgeWrapping;
     data_repeat := (1, 1);
     data_colorSpace := if String.eqb url grass_normal_path
                        then LinearSRGBColorSpace else NoColorSpace |}.

Definition sample_assets : Assets :=
  {| texture_at := fun url => Resolved (sample_texture url);
     model_at := fun _ => Resolved {| gltf_animations := 1 |} |}.

Lemma textures_configured_witness :
  exists maps, load_all_textures sample_assets = Resolved maps /\
               colorSpace (soilColor maps) = SRGBColorSpace /\
               colorSpace (grassNormal maps) = LinearSRGBColorSpace /\
               repeat (grassNormal maps) = (4, 4).
Proof.
  destruct (load_all_textures sample_assets) as [maps|reason] eqn:E;
    [|vm_compute in E; discriminate E].
  exists maps. split; [reflexivity|].
  destruct (textures_configured sample_assets E) as (Fw & Fc & d & Ed & Ec).
  split; [exact (Forall_inv Fc)|]. split.
  - rewrite Ec. vm_compute in Ed. injection Ed as <-. reflexivity.
  - rewrite Forall_forall in Fw. apply (Fw (grassNormal maps)). simpl. tauto.
Defined.

(** C5 fails as stated: the soil normal map is tagged sRGB like the
    colour maps; only the grass normal map is left out. *)
Lemma soil_normal_map_is_tagged_sRGB :
  exists maps, load_all_textures sample_assets = Resolved maps /\
               texture_url (soilNormal maps)
               = "/textures/soil/Ground0825_2K-JPG_NormalGL.jpg" /\
               colorSpace (soilNormal maps) = SRGBColorSpace /\
               colorSpace (grassNormal maps) = LinearSRGBColorSpace.
Proof.
  eexists. split; [vm_compute; reflexivity|]. repeat split.
Qed.

(** *** initializeScene *)

#[local] Arguments make_grass : simpl never.
#[local] Arguments plant_rows : simpl never.
#[local] Arguments displace : simpl never.

Section Initialization.

Variable Math_random : nat -> float.
Variables Math_sin Math_cos Math_exp : float -> float.
Variable Math_pow : float -> float -> float.
Variable PlaneGeometry_positions : list float.
Variable computeVertexNormals : list float -> list float.

(** The component's state when [initializeScene] has run to its end on
    the assets of a server. *)
Definition initialized (assets : Assets) : state :=
  initializeScene assets Math_random Math_sin Math_cos Math_exp Math_pow
                  PlaneGeometry_positions computeVertexNormals initial.

(** The scene with the three lights only. *)
Definition lights_only : list SceneObject := scene (setupLighting initial).

Lemma plant_row_length (p : PlantModel) (r n c k : nat) :
  List.length (plant_row Math_random p r n c k) = n.
Proof.
  revert c k. induction n as [|n IH]; intros c k; simpl; [reflexivity|now rewrite IH].
Qed.

Lemma plant_rows_length (p : PlantModel) (n r k : nat) :
  List.length (plant_rows Math_random p n r k) = (n * cols)%nat.
Proof.
  revert r k. induction n as [|n IH]; intros r k; [reflexivity|].
  unfold plant_rows; fold plant_rows.
  rewrite length_app, plant_row_length, IH. reflexivity.
Qed.

(** C4, as the code has it.  When a texture fails to load, the
    pipeline ends in the failure status: the label is "Failed to load.
    Please refresh.", [loading] stays true (the indicator stays on
    screen), and nothing was built beyond the lights.  When every
    texture loads, [loading] is set to false whatever the plant model
    did: a model that fails to load is logged and dropped, and the
    scene is completed with the terrain and the grass but without the
    plant field, under the label "Loading plants...". *)
Theorem asset_failure_outcomes (assets : Assets) :
  (forall url reason,
      In url texture_paths -> texture_at assets url = Rejected reason ->
      loading (initialized assets) = true /\
      loadingMessage (initialized assets) = "Failed to load. Please refresh." /\
      scene (initialized assets) = lights_only) /\
  ((forall url, In url texture_paths -> exists d, texture_at assets url = Resolved d) ->
   loading (initialized assets) = false /\
   match model_at assets plant_path with
   | Rejected _ =>
       loadingMessage (initialized assets) = "Loading plants..." /\
       mixers (initialized assets) = O /\
       exists g blades,
         scene (initialized assets) = (lights_only ++ [Ground g; GrassGroup blades])%list
   | Resolved gltf =>
       loadingMessage (initialized assets) = "Planting crops..." /\
       mixers (initialized assets) = (rows * cols)%nat /\
       exists g blades plants,
         scene (initialized assets)
         = (lights_only ++ [Ground g; GrassGroup blades; FieldGroup plants])%list /\
         List.length plants = (rows * cols)%nat
   end).
Proof.
  unfold initialized, initializeScene, loadTextures.
  destruct (load_all_textures_cases assets)
    as [(maps & d & E & Hall & _)|(reason & url & E & Hin & Hrej)].
  - rewrite E. split.
    + intros url reason Hin Hrej. destruct (Hall url Hin) as [du Hdu]. congruence.
    + intros _. unfold loadPlantModels, load_plant.
      destruct (model_at assets plant_path) as [gltf|reason]; cbn [filter_Boolean].
      * split; [reflexivity|]. split; [reflexivity|]. split; [reflexivity|].
        do 3 eexists. split; [reflexivity|]. apply plant_rows_length.
      * split; [reflexivity|]. split; [reflexivity|]. split; [reflexivity|].
        do 2 eexists. reflexivity.
  - rewrite E. split.
    + intros _ _ _ _. repeat split.
    + intros Hall. destruct (Hall url Hin) as [du Hdu]. congruence.
Qed.

(** *** createTerrain *)

(** What the loop does to the height [z] of one vertex: the callback
    of [forEach] for each row in turn, then the noise; every sum is
    stored as a binary32 number. *)
Definition raise (y z rowY : float) : float :=
  if Math_abs (y - rowY) <? rowWidth
  then Math_fround (z + 0.3 * Math_exp (- Math_pow ((y - rowY) / rowWidth) 4))
  else z.

Definition noise (x y : float) : float :=
  0.05 * (Math_sin (x * 0.1) * Math_cos (y * 0.1) +
          0.03 * Math_sin (x * 0.3) * Math_cos (y * 0.3)).

Definition terrain_height (x y z : float) : float :=
  Math_fround (fold_left (raise y) rowYPositions z + noise x y).

Lemma row_bump_length (i : nat) (y : float) (a : list float) (rowY : float) :
  List.length (row_bump Math_exp Math_pow i y a rowY) = List.length a.
Proof. unfold row_bump. destruct (_ <? _); [apply store_length|reflexivity]. Qed.

Lemma row_bump_other (i j : nat) (y : float) (a : list float) (rowY : float) :
  (i + 2)%nat <> j -> load j (row_bump Math_exp Math_pow i y a rowY) = load j a.
Proof.
  intros H. unfold row_bump. destruct (_ <? _); [now apply load_store_other|reflexivity].
Qed.

Lemma row_bump_same (i : nat) (y : float) (a : list float) (rowY : float) :
  (i + 2 < List.length a)%nat ->
  load (i + 2) (row_bump Math_exp Math_pow i y a rowY) = raise y (load (i + 2) a) rowY.
Proof.
  intros H. unfold row_bump, raise.
  destruct (_ <? _); [now apply load_store_same|reflexivity].
Qed.

Lemma row_bumps (i : nat) (y : float) (rowYs : list float) :
  forall a,
    List.length (fold_left (row_bump Math_exp Math_pow i y) rowYs a) = List.length a /\
    (forall j, (i + 2)%nat <> j ->
               load j (fold_left (row_bump Math_exp Math_pow i y) rowYs a) = load j a) /\
    ((i + 2 < List.length a)%nat ->
     load (i + 2) (fold_left (row_bump Math_exp Math_pow i y) rowYs a)
     = fold_left (raise y) rowYs (load (i + 2) a)).
Proof.
  induction rowYs as [|rowY rowYs IH]; intros a; simpl; [auto|].
  destruct (IH (row_bump Math_exp Math_pow i y a rowY)) as (L & Oth & Sm).
  rewrite row_bump_length in L, Sm. split; [exact L|]. split.
  - intros j H. rewrite Oth by exact H. now apply row_bump_other.
  - intros H. rewrite Sm by exact H. now rewrite row_bump_same.
Qed.

(** The body of the vertex loop. *)
Definition displace_vertex (i : nat) (a : list float) : list float :=
  displace Math_sin Math_cos Math_exp Math_pow 1 i a.

Lemma displace_step (n i : nat) (a : list float) :
  displace Math_sin Math_cos Math_exp Math_pow (S n) i a
  = displace Math_sin Math_cos Math_exp Math_pow n (i + 3) (displace_vertex i a).
Proof. reflexivity. Qed.

Lemma displace_vertex_spec (i : nat) (a : list float) :
  List.length (displace_vertex i a) = List.length a /\
  (forall j, (i + 2)%nat <> j -> load j (displace_vertex i a) = load j a) /\
  ((i + 2 < List.length a)%nat ->
   load (i + 2) (displace_vertex i a)
   = terrain_height (load i a) (load (i + 1) a) (load (i + 2) a)).
Proof.
  unfold displace_vertex, displace.
  destruct (row_bumps i (load (i + 1) a) rowYPositions a) as (L & Oth & Sm).
  split; [now rewrite store_length|]. split.
  - intros j H. rewrite load_store_other by exact H. now apply Oth.
  - intros H. rewrite load_store_same by (rewrite L; exact H).
    rewrite Sm by exact H. reflexivity.
Qed.

Lemma displace_spec (n : nat) :
  forall i a,
    List.length (displace Math_sin Math_cos Math_exp Math_pow n i a) = List.length a /\
    (forall j, (forall k, (k < n)%nat -> j <> (i + 3 * k + 2)%nat) ->
               load j (displace Math_sin Math_cos Math_exp Math_pow n i a) = load j a) /\
    (forall k, (k < n)%nat -> (i + 3 * k + 2 < List.length a)%nat ->
               load (i + 3 * k + 2) (displace Math_sin Math_cos Math_exp Math_pow n i a)
               = terrain_height (load (i + 3 * k) a) (load (i + 3 * k + 1) a)
                                (load (i + 3 * k + 2) a)).
Proof.
  induction n as [|n IH]; intros i a.
  - split; [reflexivity|]. split; [reflexivity|]. intros k H. lia.
  - rewrite displace_step.
    destruct (displace_vertex_spec i a) as (L1 & O1 & S1).
    destruct (IH (i + 3)%nat (displace_vertex i a)) as (L & Oth & Sm).
    split; [now rewrite L|]. split.
    + intros j H. rewrite Oth.
      * apply O1. specialize (H 0%nat). lia.
      * intros k Hk. specialize (H (S k)). lia.
    + intros k Hk Hlen. destruct k as [|k].
      * replace (i + 3 * 0 + 2)%nat with (i + 2)%nat in * by lia.
        replace (i + 3 * 0 + 1)%nat with (i + 1)%nat by lia.
        replace (i + 3 * 0)%nat with i by lia.
        rewrite Oth by (intros k Hk'; lia). now apply S1.
      * replace (i + 3 * S k + 2)%nat with (i + 3 + 3 * k + 2)%nat in * by lia.
        replace (i + 3 * S k + 1)%nat with (i + 3 + 3 * k + 1)%nat by lia.
        replace (i + 3 * S k)%nat with (i + 3 + 3 * k)%nat by lia.
        rewrite Sm by (rewrite ?L1; lia).
        rewrite !O1 by lia. reflexivity.
Qed.

(** The displacement in the words of the specification, with the
    three target rows at -10, 0 and 10, the bandwidth 3 and the
    amplitude 0.3 written out: a vertex within the bandwidth of a row
    is raised by [amplitude * exp (- (d / w)^4)], [d] being its signed
    distance to the row, and the two-octave sinusoidal noise is added.
    The heights are binary32 numbers. *)
Definition within_bandwidth (y row : float) : bool := Math_abs (y - row) <? 3.

Definition row_rise (y row : float) : float :=
  0.3 * Math_exp (- Math_pow ((y - row) / 3) 4).

Definition raised_at (y row h : float) : float :=
  if within_bandwidth y row then Math_fround (h + row_rise y row) else h.

Definition two_octave_noise (x y : float) : float :=
  0.05 * (Math_sin (x * 0.1) * Math_cos (y * 0.1) +
          0.03 * Math_sin (x * 0.3) * Math_cos (y * 0.3)).

(** The height at [(x, y)] of a vertex that starts at the height [h]. *)
Definition displacement_from (h x y : float) : float :=
  Math_fround (raised_at y 10 (raised_at y 0 (raised_at y (-10) h))
               + two_octave_noise x y).

(** The height at [(x, y)] on the plane, whose vertices start at 0. *)
Definition displacement (x y : float) : float := displacement_from 0 x y.

Lemma terrain_height_displacement (x y z : float) :
  terrain_height x y z = displacement_from z x y.
Proof. reflexivity. Qed.

(** C7.  The terrain that [createTerrain] builds is the same mesh
    whatever the state it is built in, and it draws no random number.
    The x and y of every vertex are kept.  The height of a vertex is
    the displacement of the specification at its own x and y, from the
    height it starts at; a [PlaneGeometry] is flat, all its vertices
    start at 0, and the height of such a vertex is a function of its x
    and y alone.  The normals are computed from the displaced
    positions. *)
Theorem terrain_displacement_is_deterministic (textures : TextureMaps) :
  exists g,
    (forall s, scene (createTerrain Math_sin Math_cos Math_exp Math_pow
                        PlaneGeometry_positions computeVertexNormals textures s)
               = (scene s ++ [Ground g])%list /\
               random_calls (createTerrain Math_sin Math_cos Math_exp Math_pow
                               PlaneGeometry_positions computeVertexNormals textures s)
               = random_calls s) /\
    List.length (ground_positions g) = List.length PlaneGeometry_positions /\
    (forall v, (3 * v + 2 < List.length PlaneGeometry_positions)%nat ->
       load (3 * v) (ground_positions g) = load (3 * v) PlaneGeometry_positions /\
       load (3 * v + 1) (ground_positions g) = load (3 * v + 1) PlaneGeometry_positions /\
       load (3 * v + 2) (ground_positions g)
       = displacement_from (load (3 * v + 2) PlaneGeometry_positions)
                           (load (3 * v) PlaneGeometry_positions)
                           (load (3 * v + 1) PlaneGeometry_positions) /\
       (load (3 * v + 2) PlaneGeometry_positions = 0 ->
        load (3 * v + 2) (ground_positions g)
        = displacement (load (3 * v) PlaneGeometry_positions)
                       (load (3 * v + 1) PlaneGeometry_positions))) /\
    ground_normals g = computeVertexNormals (ground_positions g).
Proof.
  eexists (Build_GroundMesh _ _ _ _ _ _ _ _).
  split; [intros s; split; reflexivity|]. cbn [ground_positions ground_normals].
  destruct (displace_spec (Field.strides (List.length PlaneGeometry_positions) 3) 0
              PlaneGeometry_positions) as (L & Oth & Sm).
  split; [exact L|]. split; [|reflexivity].
  intros v Hv.
  assert (Hn : (v < Field.strides (List.length PlaneGeometry_positions) 3)%nat).
  { unfold Field.strides.
    apply Nat.div_le_lower_bound with (b := 3%nat) (q := S v); lia. }
  split; [apply Oth; intros k Hk; lia|]. split; [apply Oth; intros k Hk; lia|].
  pose proof (Sm v Hn Hv) as H. cbn [Nat.add] in H.
  rewrite terrain_height_displacement in H.
  split; [exact H|].
  intros Hflat. rewrite H, Hflat. reflexivity.
Qed.

End Initialization.

(** Stand-ins for the functions of the engine: the sine of a small
    angle, a cosine of 1, [1 + x] for the exponential and the fourth
    power. *)
Definition sample_sin (x : float) : float := x.
Definition sample_cos (x : float) : float := 1.
Definition sample_exp (x : float) : float := 1 + x.
Definition sample_pow (x n : float) : float := x * x * x * x.

Definition sample_map (id : nat) : Texture :=
  {| texture_id := id; texture_url := "/textures/sample.jpg";
     wrapS := RepeatWrapping; wrapT := RepeatWrapping; repeat := (4, 4);
     colorSpace := SRGBColorSpace |}.

Definition sample_maps : TextureMaps :=
  {| soilColor := sample_map 0; soilNormal := sample_map 1;
     soilRoughness := sample_map 2; soilDisplacement := sample_map 3;
     grassColor := sample_map 4; grassNormal := sample_map 5;
     grassRoughness := sample_map 6 |}.

(** Two vertices of a flat plane at x = 2: one at y = 9, within the
    bandwidth of the row at 10, and one at y = 5, between the rows. *)
Definition sample_plane : list float := [2; 9; 0; 2; 5; 0].

Lemma terrain_displacement_is_deterministic_witness :
  within_bandwidth 9 10 = true /\ within_bandwidth 5 10 = false /\
  within_bandwidth 5 0 = false /\
  exists g,
    (forall s, scene (createTerrain sample_sin sample_cos sample_exp sample_pow
                        sample_plane (fun positions => positions) sample_maps s)
               = (scene s ++ [Ground g])%list) /\
    load 2 (ground_positions g) = displacement sample_sin sample_cos sample_exp sample_pow 2 9 /\
    load 2 (ground_positions g) = 0x1.3a91aap-2 /\
    load 5 (ground_positions g) = 0x1.652bd4p-7.
Proof.
  split; [reflexivity|]. split; [reflexivity|]. split; [reflexivity|].
  destruct (terrain_displacement_is_deterministic sample_sin sample_cos sample_exp
              sample_pow sample_plane (fun positions => positions) sample_maps)
    as (g & Hs & _ & Hv & _).
  exists g. split; [intros s; apply Hs|].
  destruct (Hv 0%nat ltac:(simpl; lia)) as (_ & _ & _ & H0).
  destruct (Hv 1%nat ltac:(simpl; lia)) as (_ & _ & _ & H1).
  specialize (H0 eq_refl). specialize (H1 eq_refl).
  split; [exact H0|]. split.
  - etransitivity; [exact H0|]. vm_compute. reflexivity.
  - etransitivity; [exact H1|]. vm_compute. reflexivity.
Defined.

(** An asset server on which the textures load and the plant model
    does not, and stand-ins for the functions of the engine. *)
Definition sample_assets_without_model : Assets :=
  {| texture_at := fun url => Resolved (sample_texture url);
     model_at := fun _ => Rejected "404" |}.

Definition sample_initialized (assets : Assets) : state :=
  initialized (fun _ => 0.5) (fun x => x) (fun x => x) (fun x => x) (fun x _ => x)
              [ -50; 50; 0; 0; 1; 0 ] (fun positions => positions) assets.

(** C4 fails as stated: with the plant model failing to load, the
    pipeline reports no failure; it switches the loading indicator off
    over a scene without plants. *)
Lemma failed_model_is_not_reported :
  model_at sample_assets_without_model plant_path = Rejected "404" /\
  loading (sample_initialized sample_assets_without_model) = false /\
  loadingMessage (sample_initialized sample_assets_without_model) = "Loading plants..." /\
  List.length (scene (sample_initialized sample_assets_without_model)) = 5%nat /\
  List.length (scene (sample_initialized sample_assets)) = 6%nat.
Proof. repeat split; vm_compute; reflexivity. Qed.

End FieldFacts.

(* ================================================================== *)
(** ** Teardown                                                        *)
(* ================================================================== *)

Module TeardownFacts.

Import JS THREE WeatherEffects SceneFacts WeatherFacts.
Local Open Scope float_scope.







End TeardownFacts.

(* ================================================================== *)
(** ** The engine under any sequence of calls                          *)
(* ================================================================== *)

Module LifecycleFacts.

Import JS THREE WeatherEffects SceneFacts WeatherFacts.
Local Open Scope float_scope.

(** *** Handles that outlive their scene entry *)

Lemma refs_remove_absent (k : EffectKind) (id : nat) (cs : list SceneChild) :
  refs k cs = [] -> remove k id cs = cs.
Proof.
  induction cs as [|c cs IH]; simpl; [reflexivity|].
  destruct c as [o|k' id']; simpl.
  - intros H. now rewrite IH.
  - destruct (EffectKind_eqb k k'); simpl; [discriminate|].
    intros H. now rewrite IH.
Qed.

Lemma refs_remove_loose (k : EffectKind) (id : nat) (cs : list SceneChild) :
  refs k cs = [] \/ refs k cs = [id] -> refs k (remove k id cs) = [].
Proof.
  intros [H|H].
  - now rewrite refs_remove_absent.
  - now apply refs_remove_only.
Qed.

(** After [dispose] the engine still holds its handles, while the scene
    no longer shows their objects.  A component is loosely in order
    when the scene shows the object of the handle or nothing. *)
Definition view_loose (v : View) : Prop :=
  match v with
  | VFog _ _ => True
  | VLights _ => True
  | VClouds h r => r = [] \/ r = one clouds_id h
  | VParticles h r => r = [] \/ r = one particles_id h
  | VIndicator g a r => (r = [] \/ r = one indicator_id g) /\ truthy a = truthy g
  end.

Definition Loose (s : t) : Prop := forall c, view_loose (view c s).

Lemma view_ok_loose (v : View) : view_ok v -> view_loose v.
Proof. destruct v; simpl; intuition. Qed.

Lemma Inv_Loose (s : t) : Inv s -> Loose s.
Proof. intros I c. apply view_ok_loose, I. Qed.

Lemma kept_but_Loose (c : Component) (s s' : t) :
  kept_but c s s' -> view_loose (view c s') -> Loose s -> Loose s'.
Proof.
  intros K V I c'. destruct c, c'; try exact V;
    (rewrite K; [apply I | discriminate]).
Qed.


Section LooseSteps.

Variable Math_random : nat -> float.

#[local] Arguments fill_rain : simpl never.
#[local] Arguments fill_wind : simpl never.
#[local] Arguments make_clouds : simpl never.
#[local] Arguments lineCount : simpl never.
#[local] Arguments Float32Array_new : simpl never.
#[local] Arguments loop_trips : simpl never.
#[local] Arguments particleCount : simpl never.
#[local] Arguments cloudCount : simpl never.
#[local] Arguments degToRad : simpl never.
#[local] Arguments Nat.mul : simpl never.
#[local] Arguments repeat : simpl never.

Lemma loose_none (r : list nat) : r = [] \/ r = [] -> r = [].
Proof. intros [H|H]; exact H. Qed.

(** [updateClouds] on a cloud handle that may be out of the scene. *)
Lemma updateClouds_loose (s : t) (w : WeatherState) :
  weatherState s = Some w ->
  view_loose (view CClouds s) ->
  match loop_trips (cloudCount w) with
  | Some n =>
      exists s' g, updateClouds Math_random s = Returned s' /\
                   weatherState s' = Some w /\ kept_but CClouds s s' /\
                   view CClouds s' = VClouds (Some g) [clouds_id g] /\
                   clouds_position_x g = 0 /\
                   List.length (clouds_children g) = N.to_nat n
  | None => updateClouds Math_random s = Diverged
  end.
Proof.
  intros Hw Hok. unfold updateClouds, with_weather. simpl in Hok.
  destruct (clouds s) as [c|] eqn:Hc; simpl; rewrite Hw;
    destruct (loop_trips (cloudCount w)) as [n|]; try reflexivity.
  - eexists; eexists (Build_CloudGroup _ _ _);
      split; [reflexivity|]; split; [exact Hw|]; split; [frame|].
    simpl. rewrite refs_add_same, refs_remove_loose by exact Hok. simpl.
    split; [reflexivity|]. split; [reflexivity|]. apply make_clouds_length.
  - eexists; eexists (Build_CloudGroup _ _ _);
      split; [reflexivity|]; split; [exact Hw|]; split; [frame|].
    simpl. rewrite refs_add_same, (loose_none Hok). simpl.
    split; [reflexivity|]. split; [reflexivity|]. apply make_clouds_length.
Qed.

(** [updateRain] on a rain handle that may be out of the scene. *)
Lemma updateRain_loose (s : t) (w : WeatherState) :
  weatherState s = Some w ->
  view_loose (view CRain s) ->
  if rainy w then
    match Float32Array_new (particleCount w * 3) with
    | None =>
        exists s', updateRain Math_random s = Threw RangeError s' /\
                   weatherState s' = Some w /\ kept_but CRain s s' /\
                   view CRain s' = VParticles None []
    | Some zeros =>
        match loop_trips (particleCount w) with
        | None => updateRain Math_random s = Diverged
        | Some n =>
            exists s' p, updateRain Math_random s = Returned s' /\
                         weatherState s' = Some w /\ kept_but CRain s s' /\
                         view CRain s' = VParticles (Some p) [particles_id p] /\
                         List.length (positions p) = List.length zeros /\
                         positions_version p = O
        end
    end
  else
    exists s', updateRain Math_random s = Returned s' /\
               weatherState s' = Some w /\ kept_but CRain s s' /\
               view CRain s' = VParticles None [].
Proof.
  intros Hw Hok. unfold updateRain, with_weather, rainy. simpl in Hok.
  destruct (includes (toLowerCase (conditions w)) "rain") eqn:Hrain.
  - destruct (Float32Array_new (particleCount w * 3)) as [zeros|] eqn:Hz;
      [destruct (loop_trips (particleCount w)) as [n|] eqn:Hn|];
      destruct (rainParticles s) as [p0|] eqn:Hp; simpl; rewrite Hw, Hrain; simpl;
      rewrite ?Hz, ?Hn; try reflexivity.
    + eexists; eexists (Build_ParticleObject _ _ _);
        split; [reflexivity|]; split; [exact Hw|]; split; [frame|].
      simpl. rewrite refs_add_same, refs_remove_loose by exact Hok. simpl.
      split; [reflexivity|]. split; [apply fill_rain_length|reflexivity].
    + eexists; eexists (Build_ParticleObject _ _ _);
        split; [reflexivity|]; split; [exact Hw|]; split; [frame|].
      simpl. rewrite refs_add_same, (loose_none Hok). simpl.
      split; [reflexivity|]. split; [apply fill_rain_length|reflexivity].
    + eexists; split; [reflexivity|]; split; [exact Hw|]; split; [frame|].
      simpl. now rewrite refs_remove_loose by exact Hok.
    + eexists; split; [reflexivity|]; split; [exact Hw|]; split; [frame|].
      simpl. now rewrite Hp, (loose_none Hok).
  - destruct (rainParticles s) as [p0|] eqn:Hp; simpl; rewrite Hw, Hrain; simpl.
    + eexists; split; [reflexivity|]; split; [exact Hw|]; split; [frame|].
      simpl. now rewrite refs_remove_loose by exact Hok.
    + eexists; split; [reflexivity|]; split; [exact Hw|]; split; [frame|].
      simpl. now rewrite Hp, (loose_none Hok).
Qed.

(** [updateWind] on a streak handle that may be out of the scene. *)
Lemma updateWind_loose (s : t) (w : WeatherState) :
  weatherState s = Some w ->
  view_loose (view CWind s) ->
  exists s', updateWind Math_random s = Returned s' /\
             weatherState s' = Some w /\ kept_but CWind s s' /\
             if windSpeed w <=? 3 then view CWind s' = VParticles None []
             else exists l, view CWind s' = VParticles (Some l) [particles_id l] /\
                            List.length (positions l) = (lineCount * 6)%nat /\
                            positions_version l = O.
Proof.
  intros Hw Hok. unfold updateWind, with_weather. simpl in Hok.
  destruct (windLines s) as [l0|] eqn:Hl; simpl; rewrite Hw;
    destruct (windSpeed w <=? 3); simpl.
  - eexists; split; [reflexivity|]; split; [exact Hw|]; split; [frame|].
    simpl. now rewrite refs_remove_loose by exact Hok.
  - eexists; split; [reflexivity|]; split; [exact Hw|]; split; [frame|].
    eexists (Build_ParticleObject _ _ _).
    simpl. rewrite refs_add_same, refs_remove_loose by exact Hok. simpl.
    split; [reflexivity|]. split; [|reflexivity].
    rewrite fill_wind_length. apply repeat_length.
  - eexists; split; [reflexivity|]; split; [exact Hw|]; split; [frame|].
    simpl. now rewrite Hl, (loose_none Hok).
  - eexists; split; [reflexivity|]; split; [exact Hw|]; split; [frame|].
    eexists (Build_ParticleObject _ _ _).
    simpl. rewrite refs_add_same, (loose_none Hok). simpl.
    split; [reflexivity|]. split; [|reflexivity].
    rewrite fill_wind_length. apply repeat_length.
Qed.

(** The indicator branch on a handle that may be out of the scene: an
    indicator that the engine holds is not added to the scene again. *)
Lemma updateIndicator_loose (s : t) (w : WeatherState) :
  weatherState s = Some w ->
  view_loose (view CIndicator s) ->
  exists s', updateIndicator s = Returned s' /\
             weatherState s' = Some w /\ kept_but CIndicator s s' /\
             if gtb (windSpeed w) 0 then
               exists g a,
                 windIndicator s' = Some g /\ windArrow s' = Some a /\
                 arrow_rotation_z a = degToRad (windDirection w - 180) /\
                 arrow_scale a = vec3 (arrow_scale_of w) (arrow_scale_of w)
                                      (arrow_scale_of w) /\
                 match windIndicator s with
                 | Some g0 => g = g0 /\
                              refs WindIndicator (scene_children s')
                              = refs WindIndicator (scene_children s)
                 | None => refs WindIndicator (scene_children s') = [indicator_id g]
                 end
             else view CIndicator s' = VIndicator None None [].
Proof.
  intros Hw [Hrefs Hpair]. unfold updateIndicator, with_weather. rewrite Hw.
  destruct (gtb (windSpeed w) 0).
  - destruct (windIndicator s) as [g|] eqn:Hg; simpl.
    + destruct (windArrow s) as [a|] eqn:Ha; [|discriminate Hpair].
      unfold updateWindDirection. rewrite Ha, Hw.
      eexists; split; [reflexivity|]; split; [exact Hw|]; split; [frame|].
      exists g. eexists (Build_ArrowMesh _ _ _ _). simpl. rewrite Hg.
      repeat split.
    + unfold updateWindDirection. simpl. rewrite Hw.
      eexists; split; [reflexivity|]; split; [exact Hw|]; split; [frame|].
      eexists (Build_IndicatorGroup _ _ _). eexists (Build_ArrowMesh _ _ _ _). simpl.
      rewrite refs_add_same, (loose_none Hrefs). repeat split.
  - destruct (windIndicator s) as [g|] eqn:Hg; simpl.
    + eexists; split; [reflexivity|]; split; [exact Hw|]; split; [frame|].
      simpl. now rewrite refs_remove_loose by exact Hrefs.
    + destruct (windArrow s) as [a|] eqn:Ha; [discriminate Hpair|].
      exists s. split; [reflexivity|]; split; [exact Hw|].
      split; [intros c _; reflexivity|].
      simpl. now rewrite Hg, Ha, (loose_none Hrefs).
Qed.


(** What an update that returned has rebuilt, on an engine whose
    handles may be out of the scene: the rows of the policy table for
    the fog, the clouds, the rain and the streaks, and an indicator
    that is updated in place when the engine holds one. *)
Definition Rebuilt (w : WeatherState) (s s' : t) : Prop :=
  weatherState s' = Some w /\ Loose s' /\
  view CFog s' = VFog (Some (fog_of w)) (Some (fog_of w)) /\
  (exists g n, view CClouds s' = VClouds (Some g) [clouds_id g] /\
               clouds_position_x g = 0 /\
               loop_trips (cloudCount w) = Some n /\
               List.length (clouds_children g) = N.to_nat n) /\
  (if rainy w then
     exists p zeros, view CRain s' = VParticles (Some p) [particles_id p] /\
                     Float32Array_new (particleCount w * 3) = Some zeros /\
                     List.length (positions p) = List.length zeros /\
                     positions_version p = O
   else view CRain s' = VParticles None []) /\
  (if windSpeed w <=? 3 then view CWind s' = VParticles None []
   else exists l, view CWind s' = VParticles (Some l) [particles_id l] /\
                  List.length (positions l) = (lineCount * 6)%nat /\
                  positions_version l = O) /\
  (if gtb (windSpeed w) 0 then
     exists g a,
       windIndicator s' = Some g /\ windArrow s' = Some a /\
       arrow_rotation_z a = degToRad (windDirection w - 180) /\
       arrow_scale a = vec3 (arrow_scale_of w) (arrow_scale_of w) (arrow_scale_of w) /\
       match windIndicator s with
       | Some g0 => g = g0 /\
                    refs WindIndicator (scene_children s')
                    = refs WindIndicator (scene_children s)
       | None => refs WindIndicator (scene_children s') = [indicator_id g]
       end
   else view CIndicator s' = VIndicator None None []) /\
  foreigns (scene_children s') = relit w (foreigns (scene_children s)).

Lemma indicator_loose_after (w : WeatherState) (s5 s6 : t) :
  view_loose (view CIndicator s5) ->
  (if gtb (windSpeed w) 0 then
     exists g a,
       windIndicator s6 = Some g /\ windArrow s6 = Some a /\
       arrow_rotation_z a = degToRad (windDirection w - 180) /\
       arrow_scale a = vec3 (arrow_scale_of w) (arrow_scale_of w) (arrow_scale_of w) /\
       match windIndicator s5 with
       | Some g0 => g = g0 /\
                    refs WindIndicator (scene_children s6)
                    = refs WindIndicator (scene_children s5)
       | None => refs WindIndicator (scene_children s6) = [indicator_id g]
       end
   else view CIndicator s6 = VIndicator None None []) ->
  view_loose (view CIndicator s6).
Proof.
  intros [L5 P5] H. destruct (gtb (windSpeed w) 0).
  - destruct H as (g & a & Hg & Ha & _ & _ & M). simpl. rewrite Hg, Ha.
    split; [|reflexivity]. simpl in L5.
    destruct (windIndicator s5) as [g0|].
    + destruct M as [-> ->]. exact L5.
    + right. exact M.
  - rewrite H. split; [left|]; reflexivity.
Qed.

Lemma updateEffects_loose (s : t) (w : WeatherState) :
  weatherState s = Some w ->
  Loose s ->
  match updateEffects Math_random s with
  | Returned s' => completes w = true /\ Rebuilt w s s'
  | Threw e s' => completes w = false /\ e = RangeError /\
                  weatherState s' = Some w /\ Loose s' /\
                  view CFog s' = VFog (Some (fog_of w)) (Some (fog_of w)) /\
                  exists g, clouds s' = Some g /\ clouds_position_x g = 0
  | Diverged => completes w = false
  end.
Proof.
  intros Hw I. unfold updateEffects. rewrite Hw. simpl negb. cbv iota.
  destruct (updateFog_spec s Hw) as (s1 & E1 & W1 & K1 & F1 & C1).
  rewrite E1. cbn [and_then].
  assert (I1 : Loose s1) by (apply (kept_but_Loose K1); [rewrite F1; exact Logic.I|exact I]).
  destruct (updateLighting_spec s1 W1) as (s2 & E2 & W2 & K2 & C2).
  rewrite E2. cbn [and_then].
  assert (I2 : Loose s2) by (apply (kept_but_Loose K2); [exact Logic.I|exact I1]).
  assert (F2 : view CFog s2 = VFog (Some (fog_of w)) (Some (fog_of w)))
    by (rewrite (K2 CFog) by discriminate; exact F1).
  assert (L2 : view CLights s2 = VLights (relit w (foreigns (scene_children s))))
    by (simpl; now rewrite C2, C1, foreigns_relight).
  pose proof (@updateClouds_loose s2 w W2 (I2 CClouds)) as S3.
  unfold completes, Rebuilt.
  destruct (loop_trips (cloudCount w)) as [n|] eqn:Hn;
    [|rewrite S3; reflexivity].
  destruct S3 as (s3 & g & E3 & W3 & K3 & V3 & X3 & N3).
  rewrite E3. cbn [and_then truthy andb].
  assert (I3 : Loose s3)
    by (apply (kept_but_Loose K3); [rewrite V3; right; reflexivity|exact I2]).
  pose proof (@updateRain_loose s3 w W3 (I3 CRain)) as S4.
  assert (Tail : forall s4,
             weatherState s4 = Some w -> kept_but CRain s3 s4 -> Loose s4 ->
             exists s6, and_then (updateWind Math_random s4) updateIndicator = Returned s6 /\
                        weatherState s6 = Some w /\ Loose s6 /\
                        (forall c, c <> CWind -> c <> CIndicator -> view c s6 = view c s4) /\
                        (if windSpeed w <=? 3 then view CWind s6 = VParticles None []
                         else exists l, view CWind s6 = VParticles (Some l) [particles_id l] /\
                                        List.length (positions l) = (lineCount * 6)%nat /\
                                        positions_version l = O) /\
                        (if gtb (windSpeed w) 0 then
                           exists g a,
                             windIndicator s6 = Some g /\ windArrow s6 = Some a /\
                             arrow_rotation_z a = degToRad (windDirection w - 180) /\
                             arrow_scale a = vec3 (arrow_scale_of w) (arrow_scale_of w)
                                                  (arrow_scale_of w) /\
                             match windIndicator s with
                             | Some g0 => g = g0 /\
                                          refs WindIndicator (scene_children s6)
                                          = refs WindIndicator (scene_children s)
                             | None => refs WindIndicator (scene_children s6)
                                       = [indicator_id g]
                             end
                         else view CIndicator s6 = VIndicator None None [])).
  { intros s4 W4 K4 I4.
    destruct (@updateWind_loose s4 w W4 (I4 CWind)) as (s5 & E5 & W5 & K5 & V5).
    rewrite E5. cbn [and_then].
    assert (I5 : Loose s5).
    { apply (kept_but_Loose K5); [|exact I4].
      destruct (windSpeed w <=? 3); [rewrite V5; left; reflexivity|].
      destruct V5 as (l & -> & _). right. reflexivity. }
    destruct (@updateIndicator_loose s5 w W5 (I5 CIndicator)) as (s6 & E6 & W6 & K6 & V6).
    exists s6. split; [exact E6|]. split; [exact W6|].
    assert (V5' : view CIndicator s5 = view CIndicator s).
    { rewrite (K5 CIndicator), (K4 CIndicator), (K3 CIndicator), (K2 CIndicator),
        (K1 CIndicator) by discriminate. reflexivity. }
    split.
    { apply (kept_but_Loose K6); [|exact I5].
      apply (@indicator_loose_after w s5 s6 (I5 CIndicator) V6). }
    split.
    { intros c Hc1 Hc2. rewrite (K6 c), (K5 c) by assumption. reflexivity. }
    split.
    { destruct (windSpeed w <=? 3);
        [now rewrite (K6 CWind) by discriminate|].
      destruct V5 as (l & V5 & R5). exists l.
      rewrite (K6 CWind) by discriminate. split; assumption. }
    simpl in V5'. injection V5' as Hg5 Ha5 Hr5.
    destruct (gtb (windSpeed w) 0); [|exact V6].
    destruct V6 as (g6 & a6 & G6 & A6 & R6 & Sc6 & M6).
    exists g6, a6. repeat (split; [assumption|]).
    rewrite Hg5 in M6. destruct (windIndicator s); [|exact M6].
    destruct M6 as [-> M6]. split; [reflexivity|]. now rewrite M6. }
  destruct (rainy w) eqn:Hrain; cbn [negb orb].
  - destruct (Float32Array_new (particleCount w * 3)) as [zeros|] eqn:Hz; cbn [truthy andb].
    + destruct (loop_trips (particleCount w)) as [m|] eqn:Hm; cbn [truthy];
        [|rewrite S4; reflexivity].
      destruct S4 as (s4 & p & E4 & W4 & K4 & V4 & P4 & Q4).
      rewrite E4. cbn [and_then].
      assert (I4 : Loose s4)
        by (apply (kept_but_Loose K4); [rewrite V4; right; reflexivity|exact I3]).
      destruct (Tail s4 W4 K4 I4) as (s6 & E6 & W6 & I6 & K6 & V5 & V6).
      unfold and_then in E6. unfold and_then. rewrite E6.
      split; [reflexivity|].
      split; [exact W6|]. split; [exact I6|].
      split; [now rewrite (K6 CFog), (K4 CFog), (K3 CFog) by discriminate|].
      split; [exists g, n; rewrite (K6 CClouds), (K4 CClouds) by discriminate;
              repeat split; assumption|].
      split; [exists p, zeros; rewrite (K6 CRain) by discriminate;
              repeat split; assumption|].
      split; [assumption|]. split; [assumption|].
      assert (K6L : view CLights s6 = view CLights s4) by (apply K6; discriminate).
      rewrite (K4 CLights), (K3 CLights), L2 in K6L by discriminate.
      simpl in K6L. now injection K6L.
    + destruct S4 as (s4 & E4 & W4 & K4 & V4).
      rewrite E4. cbn [and_then].
      split; [reflexivity|]. split; [reflexivity|].
      split; [exact W4|]. split.
      * apply (kept_but_Loose K4); [rewrite V4; left; reflexivity|exact I3].
      * split; [now rewrite (K4 CFog), (K3 CFog) by discriminate|].
        exists g. split; [|exact X3].
        assert (K4C : view CClouds s4 = view CClouds s3) by (apply K4; discriminate).
        rewrite V3 in K4C. simpl in K4C. congruence.
  - destruct S4 as (s4 & E4 & W4 & K4 & V4).
    rewrite E4. cbn [and_then].
    assert (I4 : Loose s4)
      by (apply (kept_but_Loose K4); [rewrite V4; left; reflexivity|exact I3]).
    destruct (Tail s4 W4 K4 I4) as (s6 & E6 & W6 & I6 & K6 & V5 & V6).
    unfold and_then in E6. unfold and_then. rewrite E6.
    split; [reflexivity|].
    split; [exact W6|]. split; [exact I6|].
    split; [now rewrite (K6 CFog), (K4 CFog), (K3 CFog) by discriminate|].
    split; [exists g, n; rewrite (K6 CClouds), (K4 CClouds) by discriminate;
            repeat split; assumption|].
    split; [now rewrite (K6 CRain) by discriminate|].
    split; [assumption|]. split; [assumption|].
    assert (K6L : view CLights s6 = view CLights s4) by (apply K6; discriminate).
    rewrite (K4 CLights), (K3 CLights), L2 in K6L by discriminate.
    simpl in K6L. now injection K6L.
Qed.


Lemma Loose_set_weatherState (s : t) (v : option WeatherState) :
  Loose s -> Loose (set_weatherState s v).
Proof. intros I c. specialize (I c). destruct c; exact I. Qed.

Lemma updateWeather_loose (s : t) (w : WeatherState) :
  Loose s ->
  match updateWeather Math_random w s with
  | Returned s' => completes w = true /\ Rebuilt w s s'
  | Threw e s' => completes w = false /\ e = RangeError /\
                  weatherState s' = Some w /\ Loose s' /\
                  view CFog s' = VFog (Some (fog_of w)) (Some (fog_of w)) /\
                  exists g, clouds s' = Some g /\ clouds_position_x g = 0
  | Diverged => completes w = false
  end.
Proof.
  intros I. unfold updateWeather.
  apply (@updateEffects_loose (set_weatherState s (Some w)) w);
    [reflexivity|now apply Loose_set_weatherState].
Qed.

(** [animate] moves what the handles hold and keeps their identities. *)
Lemma animate_loose (delta : float) (s : t) :
  Loose s ->
  exists s', animate Math_random delta s = Returned s' /\ Loose s' /\ same_scene s s'.
Proof.
  intros I. destruct (animate_scene Math_random delta s) as (s' & E & Hs).
  exists s'. split; [exact E|]. split; [|exact Hs].
  unfold animate in E. injection E as <-.
  assert (A : Loose (animate_clouds delta s)).
  { unfold animate_clouds.
    destruct (clouds s) as [c|] eqn:Hc; [destruct (weatherState s)|]; try exact I.
    intros k. specialize (I k). destruct k; simpl in *; rewrite ?Hc in I; exact I. }
  revert A. generalize (animate_clouds delta s). intros s1 I1.
  assert (B : Loose (animate_rainParticles Math_random delta s1)).
  { unfold animate_rainParticles.
    destruct (rainParticles s1) as [p|] eqn:Hp; [destruct (weatherState s1)|]; try exact I1.
    destruct (animate_rain Math_random delta _ 0 _ _) as [a r].
    intros k. specialize (I1 k). destruct k; simpl in *; rewrite ?Hp in I1; exact I1. }
  revert B. generalize (animate_rainParticles Math_random delta s1). intros s2 I2.
  unfold animate_windLines.
  destruct (windLines s2) as [l|] eqn:Hl; [destruct (weatherState s2) as [w|]|]; try exact I2.
  destruct (animate_wind Math_random _ delta _ 0 _ _) as [a r].
  intros k. specialize (I2 k). destruct k; simpl in *; rewrite ?Hl in I2; exact I2.
Qed.

End LooseSteps.

(** [dispose] on handles that may be out of the scene already. *)
Lemma dispose_loose (s : t) :
  Loose s ->
  exists s', dispose s = Returned s' /\
             (forall k, refs k (scene_children s') = []) /\
             foreigns (scene_children s') = foreigns (scene_children s) /\
             scene_fog s' = (if truthy (fog s) then None else scene_fog s) /\
             clouds s' = clouds s /\ rainParticles s' = rainParticles s /\
             windLines s' = windLines s /\ windIndicator s' = windIndicator s /\
             windArrow s' = windArrow s /\ weatherState s' = weatherState s /\
             fog s' = fog s /\ next_id s' = next_id s /\
             random_calls s' = random_calls s.
Proof.
  intros I.
  pose proof (I CClouds) as Ic. pose proof (I CRain) as Ir.
  pose proof (I CWind) as Iw. pose proof (I CIndicator) as [Ii _].
  simpl in Ic, Ir, Iw, Ii. unfold dispose.
  destruct (clouds s) as [c|] eqn:Ec; simpl;
    destruct (rainParticles s) as [p|] eqn:Ep; simpl;
    destruct (windLines s) as [l|] eqn:El; simpl;
    destruct (truthy (fog s)); simpl;
    destruct (windIndicator s) as [g|] eqn:Eg; simpl in *;
    (eexists; split; [reflexivity|]; split;
     [intros k; destruct k; simpl;
      rewrite ?refs_remove_other by discriminate;
      try (apply loose_none; assumption);
      (apply refs_remove_loose; rewrite ?refs_remove_other by discriminate; assumption)
     |simpl; rewrite ?foreigns_remove; repeat split; auto]).
Qed.

Lemma dispose_Loose (s s' : t) : Loose s -> dispose s = Returned s' -> Loose s'.
Proof.
  intros I E. destruct (dispose_loose I) as (s1 & E1 & Hr & _ & _ & _ & _ & _ & Hg & Ha & _).
  rewrite E in E1. injection E1 as <-.
  intros c. destruct c; simpl; rewrite ?Hr; auto.
  split; [now left|]. rewrite Hg, Ha. apply (I CIndicator).
Qed.

(** *** Any sequence of calls *)

(** The public methods of the engine, as a client calls them. *)
Inductive Call :=
| UpdateWeather (weather : WeatherState)
| Animate (delta : float)
| Dispose.

Definition call (Math_random : nat -> float) (c : Call) (s : t) : Outcome :=
  match c with
  | UpdateWeather weather => updateWeather Math_random weather s
  | Animate delta => animate Math_random delta s
  | Dispose => dispose s
  end.

(** The object after a sequence of calls (a call that throws leaves
    the object as it was at the throw; after a call that does not
    return there is no later call). *)
Fixpoint after_calls (Math_random : nat -> float) (s : t) (cs : list Call) : option t :=
  match cs with
  | [] => Some s
  | c :: rest =>
      match state_after (call Math_random c s) with
      | Some s' => after_calls Math_random s' rest
      | None => None
      end
  end.

Lemma call_Loose (Math_random : nat -> float) (c : Call) (s s' : t) :
  Loose s -> state_after (call Math_random c s) = Some s' -> Loose s'.
Proof.
  intros I. destruct c as [w|delta|]; cbn [call].
  - pose proof (updateWeather_loose Math_random w I) as H.
    destruct (updateWeather Math_random w s) as [s1|e s1|]; simpl; intros E;
      [injection E as <-|injection E as <-|discriminate E].
    + apply H.
    + apply H.
  - destruct (animate_loose Math_random delta I) as (s1 & E1 & I1 & _).
    rewrite E1. simpl. intros E. now injection E as <-.
  - destruct (dispose s) as [s1|e s1|] eqn:E1; simpl; intros E;
      [injection E as <-|injection E as <-|discriminate E].
    + apply (dispose_Loose I E1).
    + destruct (dispose_loose I) as (s2 & E2 & _). congruence.
Qed.

Lemma after_calls_Loose (Math_random : nat -> float) (cs : list Call) :
  forall s s', Loose s -> after_calls Math_random s cs = Some s' -> Loose s'.
Proof.
  induction cs as [|c cs IH]; intros s s' I; simpl.
  - intros E. injection E as <-. exact I.
  - destruct (state_after (call Math_random c s)) as [s1|] eqn:E1; [|discriminate].
    apply IH. apply (call_Loose _ _ I E1).
Qed.

Lemma Loose_handles (s : t) (k : EffectKind) :
  Loose s -> refs k (scene_children s) = [] \/
             exists id, handle k s = Some id /\ refs k (scene_children s) = [id].
Proof.
  intros I. destruct k; simpl.
  - destruct (I CClouds) as [H|H]; [now left|]. simpl in H.
    destruct (clouds s) as [c|]; [right; exists (clouds_id c); now split|now left].
  - destruct (I CRain) as [H|H]; [now left|]. simpl in H.
    destruct (rainParticles s) as [p|]; [right; exists (particles_id p); now split|now left].
  - destruct (I CWind) as [H|H]; [now left|]. simpl in H.
    destruct (windLines s) as [l|]; [right; exists (particles_id l); now split|now left].
  - destruct (I CIndicator) as [[H|H] _]; [now left|]. simpl in H.
    destruct (windIndicator s) as [g|]; [right; exists (indicator_id g); now split|now left].
Qed.

(** Whatever the client calls on a new engine, in whatever order
    ([updateWeather], [animate], [dispose]; calls that throw included),
    the scene never shows two instances of an effect kind, and an
    instance it shows is the object that the engine's handle holds. *)
Theorem at_most_one_instance_under_any_calls
        (Math_random : nat -> float) (children : list Object3D)
        (fog0 : option FogExp2) (cs : list Call) (s : t) :
  after_calls Math_random (new children fog0) cs = Some s ->
  (forall k, (instances k s <= 1)%nat) /\
  (forall k, refs k (scene_children s) = [] \/
             exists id, handle k s = Some id /\ refs k (scene_children s) = [id]).
Proof.
  intros R.
  assert (I : Loose s)
    by (apply (after_calls_Loose _ _ (Inv_Loose (Inv_new children fog0)) R)).
  split; [|intros k; now apply Loose_handles].
  intros k. destruct k; simpl;
    try (match goal with
         | |- (List.length (refs ?k _) <= 1)%nat =>
             destruct (Loose_handles k I) as [H|(id & _ & H)]; rewrite H; simpl; lia
         end).
  destruct (scene_fog s); lia.
Qed.

Lemma at_most_one_instance_under_any_calls_witness :
  exists s, after_calls sample_random (new sample_lights sample_fog)
              [UpdateWeather sample_rain; Animate 1; Dispose; UpdateWeather sample_rain;
               Dispose; Dispose; Animate 1; UpdateWeather sample_clear] = Some s /\
            forall k, (instances k s <= 1)%nat.
Proof.
  pose proof (at_most_one_instance_under_any_calls sample_random sample_lights sample_fog
                [UpdateWeather sample_rain; Animate 1; Dispose; UpdateWeather sample_rain;
                 Dispose; Dispose; Animate 1; UpdateWeather sample_clear]) as T.
  assert (R : exists s, after_calls sample_random (new sample_lights sample_fog)
                [UpdateWeather sample_rain; Animate 1; Dispose; UpdateWeather sample_rain;
                 Dispose; Dispose; Animate 1; UpdateWeather sample_clear] = Some s)
    by (vm_compute; eexists; reflexivity).
  destruct R as [s R]. exists s. split; [exact R|]. apply (T s R).
Defined.

(** *** The engine after [dispose] *)

Lemma reached_Loose (Math_random : nat -> float) (children : list Object3D)
      (fog0 : option FogExp2) (cs : list Call) (s : t) :
  after_calls Math_random (new children fog0) cs = Some s -> Loose s.
Proof. apply after_calls_Loose, Inv_Loose, Inv_new. Qed.

Lemma indicator_instance_out (s : t) :
  refs WindIndicator (scene_children s) = [] -> indicator_instance s = None.
Proof.
  intros H. unfold indicator_instance, is_child.
  destruct (windIndicator s) as [g|]; [|reflexivity].
  destruct (windArrow s) as [a|]; [|reflexivity].
  now rewrite existsb_is_ref, H.
Qed.

Lemma indicator_instance_in (s : t) (g : IndicatorGroup) (a : ArrowMesh) :
  windIndicator s = Some g -> windArrow s = Some a ->
  refs WindIndicator (scene_children s) = [indicator_id g] ->
  indicator_instance s = Some a.
Proof.
  intros Hg Ha H. unfold indicator_instance, is_child.
  rewrite Hg, Ha, existsb_is_ref, H. simpl. now rewrite Nat.eqb_refl.
Qed.

(** [dispose] removes the wind indicator from the scene and keeps the
    handle.  An update with wind after it finds the handle set and
    only turns the arrow: the indicator is not added to the scene,
    although clouds and fog are rebuilt.  It comes back after an
    update without wind, which clears the handle. *)
Theorem indicator_stays_out_after_dispose
        (Math_random : nat -> float) (children : list Object3D)
        (fog0 : option FogExp2) (cs : list Call) (s : t)
        (w : WeatherState) (g : IndicatorGroup) :
  after_calls Math_random (new children fog0) cs = Some s ->
  windIndicator s = Some g ->
  completes w = true ->
  gtb (windSpeed w) 0 = true ->
  exists s1 s2,
    dispose s = Returned s1 /\
    updateWeather Math_random w s1 = Returned s2 /\
    windIndicator s2 = Some g /\
    instances WindIndicatorInstance s2 = 0%nat /\
    indicator_instance s2 = None /\
    instances CloudInstance s2 = 1%nat /\
    instances FogInstance s2 = 1%nat /\
    forall calm,
      completes calm = true -> gtb (windSpeed calm) 0 = false ->
      exists s3 s4 a,
        updateWeather Math_random calm s2 = Returned s3 /\
        updateWeather Math_random w s3 = Returned s4 /\
        instances WindIndicatorInstance s4 = 1%nat /\
        indicator_instance s4 = Some a.
Proof.
  intros R Hg C Hwind. pose proof (reached_Loose _ _ _ _ R) as I.
  destruct (dispose_loose I) as (s1 & E1 & Hr1 & _ & _ & _ & _ & _ & Hg1 & _).
  assert (I1 : Loose s1) by (apply (dispose_Loose I E1)).
  pose proof (updateWeather_loose Math_random w I1) as U.
  destruct (updateWeather Math_random w s1) as [s2|e s2|] eqn:E2;
    [|destruct U as [U _]; congruence|congruence].
  destruct U as (_ & W2 & I2 & F2 & (cg & n & Vc & _) & _ & _ & Di & _).
  rewrite Hwind in Di. destruct Di as (g2 & a2 & G2 & A2 & _ & _ & M).
  rewrite Hg1, Hg in M. destruct M as [-> M]. rewrite Hr1 in M.
  exists s1, s2. split; [exact E1|]. split; [exact E2|]. split; [exact G2|].
  split; [simpl; now rewrite M|]. split; [now apply indicator_instance_out|].
  split; [simpl in Vc; injection Vc as _ Vc; simpl; now rewrite Vc|].
  split; [simpl in F2; injection F2 as F2 _; simpl; now rewrite F2|].
  intros calm Cc Hcalm.
  pose proof (updateWeather_loose Math_random calm I2) as U3.
  destruct (updateWeather Math_random calm s2) as [s3|e s3|] eqn:E3;
    [|destruct U3 as [U3 _]; congruence|congruence].
  destruct U3 as (_ & W3 & I3 & _ & _ & _ & _ & Di3 & _).
  rewrite Hcalm in Di3. simpl in Di3. injection Di3 as G3 A3 R3.
  pose proof (updateWeather_loose Math_random w I3) as U4.
  destruct (updateWeather Math_random w s3) as [s4|e s4|] eqn:E4;
    [|destruct U4 as [U4 _]; congruence|congruence].
  destruct U4 as (_ & W4 & I4 & _ & _ & _ & _ & Di4 & _).
  rewrite Hwind, G3 in Di4. destruct Di4 as (g4 & a4 & G4 & A4 & _ & _ & M4).
  exists s3, s4, a4. split; [reflexivity|]. split; [exact E4|].
  split; [simpl; now rewrite M4|]. now apply (@indicator_instance_in s4 g4 a4).
Qed.

Lemma indicator_stays_out_after_dispose_witness :
  exists s g,
    after_calls sample_random (new sample_lights sample_fog) [UpdateWeather sample_rain]
    = Some s /\
    windIndicator s = Some g /\
    completes sample_rain = true /\
    gtb (windSpeed sample_rain) 0 = true /\
    exists s1 s2,
      dispose s = Returned s1 /\
      updateWeather sample_random sample_rain s1 = Returned s2 /\
      indicator_instance s2 = None.
Proof.
  assert (R : exists s g,
             after_calls sample_random (new sample_lights sample_fog)
               [UpdateWeather sample_rain] = Some s /\ windIndicator s = Some g)
    by (vm_compute; do 2 eexists; split; reflexivity).
  destruct R as (s & g & R & Hg). exists s, g.
  split; [exact R|]. split; [exact Hg|].
  assert (C : completes sample_rain = true) by (vm_compute; reflexivity).
  split; [exact C|]. split; [reflexivity|].
  destruct (indicator_stays_out_after_dispose sample_random sample_lights sample_fog
              [UpdateWeather sample_rain] sample_rain R Hg C eq_refl)
    as (s1 & s2 & E1 & E2 & _ & _ & H & _).
  exists s1, s2. split; [exact E1|]. split; [exact E2|exact H].
Defined.

(** [dispose] a second time changes nothing: the objects are out of
    the scene already and the fog is cleared. *)
Theorem dispose_twice_is_dispose_once
        (Math_random : nat -> float) (children : list Object3D)
        (fog0 : option FogExp2) (cs : list Call) (s : t) :
  after_calls Math_random (new children fog0) cs = Some s ->
  exists s1, dispose s = Returned s1 /\ dispose s1 = Returned s1.
Proof.
  intros R. pose proof (reached_Loose _ _ _ _ R) as I.
  destruct (dispose_loose I) as (s1 & E1 & Hr & _ & Hfog & _ & _ & _ & _ & _ & _ & Hf & _).
  exists s1. split; [exact E1|].
  pose proof (Hr Clouds) as Hc. pose proof (Hr Rain) as Hp.
  pose proof (Hr WindLines) as Hl. pose proof (Hr WindIndicator) as Hi.
  rewrite <- Hf in Hfog. clear E1 Hr Hf I R.
  destruct s1 as [ch sf c p l f ws wi wa ni rc]. simpl in *.
  unfold dispose. simpl.
  destruct c as [c|]; simpl; rewrite ?refs_remove_absent by assumption;
    destruct p as [p|]; simpl; rewrite ?refs_remove_absent by assumption;
    destruct l as [l|]; simpl; rewrite ?refs_remove_absent by assumption;
    destruct f as [f|]; simpl in *; rewrite ?Hfog;
    destruct wi as [wi|]; simpl; rewrite ?refs_remove_absent by assumption;
    reflexivity.
Qed.

Lemma dispose_twice_is_dispose_once_witness :
  exists s, after_calls sample_random (new sample_lights sample_fog)
              [UpdateWeather sample_rain; Animate 1] = Some s /\
            exists s1, dispose s = Returned s1 /\ dispose s1 = Returned s1.
Proof.
  pose proof (dispose_twice_is_dispose_once sample_random sample_lights sample_fog
                [UpdateWeather sample_rain; Animate 1]) as T.
  assert (R : exists s, after_calls sample_random (new sample_lights sample_fog)
                [UpdateWeather sample_rain; Animate 1] = Some s)
    by (vm_compute; eexists; reflexivity).
  destruct R as [s R]. exists s. split; [exact R|]. apply (T s R).
Defined.

(** *** The lights, the fog and the frames *)

Lemma updateWeather_loose_returns (Math_random : nat -> float) (s : t) (w : WeatherState) :
  Loose s -> completes w = true ->
  exists s', updateWeather Math_random w s = Returned s' /\ Rebuilt w s s'.
Proof.
  intros I C. pose proof (updateWeather_loose Math_random w I) as H.
  destruct (updateWeather Math_random w s) as [s'|e s'|].
  - exists s'. split; [reflexivity|apply H].
  - destruct H as [H _]. congruence.
  - congruence.
Qed.

Lemma existsb_find_index {A : Type} (p : A -> bool) (l : list A) :
  existsb p l = truthy (find_index p l).
Proof.
  induction l as [|x l IH]; simpl; [reflexivity|].
  destruct (p x); simpl; [reflexivity|].
  rewrite IH. now destruct (find_index p l).
Qed.

(** [relit], by the positions of the two lights. *)
Lemma relit_update_at (w : WeatherState) (l : list Object3D) :
  relit w l =
  match find_index is_ambient l, find_index is_sun l with
  | Some i, Some j =>
      if rainy w || cloudy w
      then update_at j (lit_sun 0.5 0xccccff) (update_at i (lit_ambient 0.4) l)
      else update_at j (lit_sun 0.8 0xfff4e6) (update_at i (lit_ambient 0.6) l)
  | _, _ => l
  end.
Proof.
  unfold relit, preset. rewrite !existsb_find_index.
  destruct (find_index is_ambient l) as [i|] eqn:Ei; [|reflexivity].
  destruct (find_index is_sun l) as [j|] eqn:Ej; [|reflexivity].
  cbn [truthy andb].
  assert (G : forall ia id hex,
             relit_pass ia id hex false false l
             = update_at j (lit_sun id hex) (update_at i (lit_ambient ia) l)).
  { intros ia id hex. rewrite <- relit_pass_both.
    rewrite (update_at_find_index is_ambient (lit_ambient ia) l Ei).
    symmetry. apply update_at_find_index.
    rewrite find_index_update_first; [exact Ej|].
    intros [c k|p c k|n]; reflexivity. }
  destruct (rainy w || cloudy w); apply G.
Qed.

(** Among the objects that the engine did not create, an update
    changes the first ambient light (its intensity) and the first
    directional light above y = 20 (its intensity and colour), and
    no other object; a scene without one of the two is not changed. *)
Theorem lighting_changes_two_lights_at_most
        (Math_random : nat -> float) (children : list Object3D)
        (fog0 : option FogExp2) (cs : list Call) (s : t) (w : WeatherState) :
  after_calls Math_random (new children fog0) cs = Some s ->
  completes w = true ->
  exists s', updateWeather Math_random w s = Returned s' /\
    foreigns (scene_children s') =
    match find_index is_ambient (foreigns (scene_children s)),
          find_index is_sun (foreigns (scene_children s)) with
    | Some i, Some j =>
        if rainy w || cloudy w
        then update_at j (lit_sun 0.5 0xccccff)
               (update_at i (lit_ambient 0.4) (foreigns (scene_children s)))
        else update_at j (lit_sun 0.8 0xfff4e6)
               (update_at i (lit_ambient 0.6) (foreigns (scene_children s)))
    | _, _ => foreigns (scene_children s)
    end.
Proof.
  intros R C. pose proof (reached_Loose _ _ _ _ R) as I.
  destruct (@updateWeather_loose_returns Math_random s w I C) as (s' & E & D).
  exists s'. split; [exact E|].
  destruct D as (_ & _ & _ & _ & _ & _ & _ & L).
  rewrite L. apply relit_update_at.
Qed.

Definition sample_unlit : list Object3D :=
  [ AmbientLight 0xffffff 0.6; DirectionalLight (vec3 (-10) 20 (-5)) 0xccf0ff 0.3;
    OtherObject "ground" ].

Lemma lighting_changes_two_lights_at_most_witness :
  after_calls sample_random (new sample_unlit None) [] = Some (new sample_unlit None) /\
  completes sample_rain = true /\
  exists s', updateWeather sample_random sample_rain (new sample_unlit None) = Returned s' /\
             foreigns (scene_children s') = sample_unlit.
Proof.
  split; [reflexivity|].
  assert (C : completes sample_rain = true) by (vm_compute; reflexivity).
  split; [exact C|].
  destruct (lighting_changes_two_lights_at_most sample_random sample_unlit None []
              (s := new sample_unlit None) sample_rain eq_refl C) as (s' & E & H).
  exists s'. split; [exact E|]. rewrite H. vm_compute. reflexivity.
Defined.

(** Every update that ends, by returning or by throwing, has replaced
    the fog of the scene by its own (colour 0x87ceeb, density 0.001 +
    humidity / 100 * 0.002), whatever fog the scene had; [dispose]
    then leaves the scene without fog: the fog that the scene had
    before the engine is not put back. *)
Theorem scene_fog_is_replaced_and_not_restored
        (Math_random : nat -> float) (children : list Object3D)
        (fog0 : option FogExp2) (cs : list Call) (s s1 : t) (w : WeatherState) :
  after_calls Math_random (new children fog0) cs = Some s ->
  state_after (updateWeather Math_random w s) = Some s1 ->
  scene_fog s1 = Some {| fog_color := 0x87ceeb;
                         fog_density := 0.001 + (humidity w / 100) * 0.002 |} /\
  exists s2, dispose s1 = Returned s2 /\ scene_fog s2 = None.
Proof.
  intros R E. pose proof (reached_Loose _ _ _ _ R) as I.
  pose proof (updateWeather_loose Math_random w I) as H.
  assert (G : Loose s1 /\ view CFog s1 = VFog (Some (fog_of w)) (Some (fog_of w))).
  { destruct (updateWeather Math_random w s) as [s'|e s'|]; simpl in E;
      [injection E as <-|injection E as <-|discriminate E].
    - destruct H as (_ & _ & I1 & F & _). now split.
    - destruct H as (_ & _ & _ & I1 & F & _). now split. }
  destruct G as [I1 F]. simpl in F. injection F as F1 F2.
  split; [exact F1|].
  destruct (dispose_loose I1) as (s2 & E2 & _ & _ & Hfog & _).
  exists s2. split; [exact E2|]. rewrite Hfog, F2. reflexivity.
Qed.

Lemma scene_fog_is_replaced_and_not_restored_witness :
  exists s1,
    after_calls sample_random (new sample_lights sample_fog) []
    = Some (new sample_lights sample_fog) /\
    state_after (updateWeather sample_random sample_clear (new sample_lights sample_fog))
    = Some s1 /\
    scene_fog (new sample_lights sample_fog)
    = Some {| fog_color := 0x87ceeb; fog_density := 0.002 |} /\
    exists s2, dispose s1 = Returned s2 /\ scene_fog s2 = None.
Proof.
  assert (R : exists s1, state_after (updateWeather sample_random sample_clear
                                        (new sample_lights sample_fog)) = Some s1)
    by (vm_compute; eexists; reflexivity).
  destruct R as [s1 R]. exists s1.
  split; [reflexivity|]. split; [exact R|]. split; [reflexivity|].
  apply (scene_fog_is_replaced_and_not_restored sample_random sample_lights sample_fog []
           (s := new sample_lights sample_fog) sample_clear eq_refl R).
Defined.

(** *** The frames *)

Lemma animate_rain_length (Math_random : nat -> float) (delta : float) (n : nat) :
  forall i r a, List.length (fst (animate_rain Math_random delta n i r a)) = List.length a.
Proof.
  induction n as [|n IH]; intros i r a; [reflexivity|].
  cbn [animate_rain].
  destruct (load (i + 1) (store (i + 1) (load (i + 1) a - 10 * delta) a) <? 0);
    rewrite IH, ?store_length; reflexivity.
Qed.

Lemma animate_wind_length (Math_random : nat -> float) (speed delta : float) (n : nat) :
  forall i r a,
    List.length (fst (animate_wind Math_random speed delta n i r a)) = List.length a.
Proof.
  induction n as [|n IH]; intros i r a; [reflexivity|].
  cbn [animate_wind].
  match goal with |- context [if ?c then _ else _] => destruct c end;
    rewrite IH, ?store_length; reflexivity.
Qed.

(** The cloud offset stays at or below 60 wherever the engine holds
    clouds, and the engine holds clouds only with a weather state. *)
Definition Drifting (s : t) : Prop :=
  forall c, clouds s = Some c ->
            truthy (weatherState s) = true /\ gtb (clouds_position_x c) 60 = false.

(** What a frame keeps of the engine's objects: their identity and
    their size. *)
Definition same_sizes (s s' : t) : Prop :=
  (forall k, handle k s' = handle k s) /\
  option_map (fun c => List.length (clouds_children c)) (clouds s')
  = option_map (fun c => List.length (clouds_children c)) (clouds s) /\
  option_map (fun p => List.length (positions p)) (rainParticles s')
  = option_map (fun p => List.length (positions p)) (rainParticles s) /\
  option_map (fun l => List.length (positions l)) (windLines s')
  = option_map (fun l => List.length (positions l)) (windLines s).

Lemma animate_frame (Math_random : nat -> float) (delta : float) (s : t) :
  Drifting s ->
  exists s', animate Math_random delta s = Returned s' /\
             same_scene s s' /\ same_sizes s s' /\ Drifting s'.
Proof.
  intros D. unfold animate. eexists. split; [reflexivity|].
  split; [destruct (animate_scene Math_random delta s) as (s' & E & H);
          unfold animate in E; injection E as <-; exact H|].
  assert (A : same_sizes s (animate_clouds delta s) /\ Drifting (animate_clouds delta s)).
  { unfold animate_clouds.
    destruct (clouds s) as [c|] eqn:Hc;
      [destruct (weatherState s) as [w|] eqn:Hw|];
      try (split; [repeat split; intros k; reflexivity|exact D]).
    split.
    - split; [intros k; destruct k; simpl; rewrite ?Hc; reflexivity|].
      simpl. rewrite Hc. repeat split.
    - intros c' Hc'. simpl in Hc'. injection Hc' as <-. simpl. rewrite Hw.
      split; [reflexivity|].
      destruct (gtb (clouds_position_x c + windSpeed w * delta * 0.05) 60) eqn:G;
        [reflexivity|exact G]. }
  revert A. generalize (animate_clouds delta s). intros s1 [S1 D1].
  assert (B : same_sizes s1 (animate_rainParticles Math_random delta s1) /\
              Drifting (animate_rainParticles Math_random delta s1)).
  { unfold animate_rainParticles.
    destruct (rainParticles s1) as [p|] eqn:Hp;
      [destruct (weatherState s1) as [w|] eqn:Hw|];
      try (split; [repeat split; intros k; reflexivity|exact D1]).
    pose proof (animate_rain_length Math_random delta
                  (strides (List.length (positions p)) 3) 0 (random_calls s1)
                  (positions p)) as L.
    destruct (animate_rain Math_random delta _ 0 _ _) as [a r]. simpl in L.
    split.
    - split; [intros k; destruct k; simpl; rewrite ?Hp; reflexivity|].
      simpl. rewrite Hp, L. repeat split.
    - intros c Hc. simpl in Hc. destruct (D1 c Hc) as [_ G]. simpl. rewrite Hw.
      split; [reflexivity|exact G]. }
  revert B. generalize (animate_rainParticles Math_random delta s1). intros s2 [S2 D2].
  assert (C : same_sizes s2 (animate_windLines Math_random delta s2) /\
              Drifting (animate_windLines Math_random delta s2)).
  { unfold animate_windLines.
    destruct (windLines s2) as [l|] eqn:Hl;
      [destruct (weatherState s2) as [w|] eqn:Hw|];
      try (split; [repeat split; intros k; reflexivity|exact D2]).
    pose proof (animate_wind_length Math_random (windSpeed w) delta
                  (strides (List.length (positions l)) 6) 0 (random_calls s2)
                  (positions l)) as L.
    destruct (animate_wind Math_random _ delta _ 0 _ _) as [a r]. simpl in L.
    split.
    - split; [intros k; destruct k; simpl; rewrite ?Hl; reflexivity|].
      simpl. rewrite Hl, L. repeat split.
    - intros c Hc. simpl in Hc. destruct (D2 c Hc) as [_ G]. simpl. rewrite Hw.
      split; [reflexivity|exact G]. }
  destruct C as [S3 D3]. split; [|exact D3].
  destruct S1 as (A1 & A2 & A3 & A4), S2 as (B1 & B2 & B3 & B4), S3 as (C1 & C2 & C3 & C4).
  repeat split; try intros k; congruence.
Qed.

Lemma call_Drifting (Math_random : nat -> float) (c : Call) (s s' : t) :
  Loose s -> Drifting s -> state_after (call Math_random c s) = Some s' -> Drifting s'.
Proof.
  intros I D. destruct c as [w|delta|]; cbn [call].
  - pose proof (updateWeather_loose Math_random w I) as H.
    destruct (updateWeather Math_random w s) as [s1|e s1|]; simpl; intros E;
      [injection E as <-|injection E as <-|discriminate E].
    + destruct H as (_ & W & _ & _ & (g & n & V & X & _) & _).
      intros c Hc. simpl in V. rewrite W. split; [reflexivity|].
      assert (c = g) by congruence. subst c. rewrite X. reflexivity.
    + destruct H as (_ & _ & W & _ & _ & g & Hg & X).
      intros c Hc. rewrite W. split; [reflexivity|].
      assert (c = g) by congruence. subst c. rewrite X. reflexivity.
  - destruct (animate_frame Math_random delta D) as (s1 & E1 & _ & _ & D1).
    rewrite E1. simpl. intros E. now injection E as <-.
  - destruct (dispose_loose I) as (s1 & E1 & _ & _ & _ & Hc & _ & _ & _ & _ & Hw & _).
    rewrite E1. simpl. intros E. injection E as <-.
    intros c H. rewrite Hw. apply D. now rewrite <- Hc.
Qed.

Lemma after_calls_Drifting (Math_random : nat -> float) (cs : list Call) :
  forall s s', Loose s -> Drifting s -> after_calls Math_random s cs = Some s' ->
               Drifting s'.
Proof.
  induction cs as [|c cs IH]; intros s s' I D; simpl.
  - intros E. injection E as <-. exact D.
  - destruct (state_after (call Math_random c s)) as [s1|] eqn:E1; [|discriminate].
    apply IH; [apply (@call_Loose Math_random c s s1 I E1)
              |apply (@call_Drifting Math_random c s s1 I D E1)].
Qed.

(** A frame on any engine, whatever was called before: [animate]
    returns; it adds, removes and creates nothing (the same children,
    fog, indicator and handles); the number of clouds and the lengths
    of the rain and streak buffers are kept; and the cloud offset is
    not above 60 afterwards. *)
Theorem animate_keeps_instances_and_sizes
        (Math_random : nat -> float) (children : list Object3D)
        (fog0 : option FogExp2) (cs : list Call) (s : t) (delta : float) :
  after_calls Math_random (new children fog0) cs = Some s ->
  exists s', animate Math_random delta s = Returned s' /\
    scene_children s' = scene_children s /\
    scene_fog s' = scene_fog s /\
    windIndicator s' = windIndicator s /\
    windArrow s' = windArrow s /\
    (forall k, handle k s' = handle k s) /\
    option_map (fun c => List.length (clouds_children c)) (clouds s')
    = option_map (fun c => List.length (clouds_children c)) (clouds s) /\
    option_map (fun p => List.length (positions p)) (rainParticles s')
    = option_map (fun p => List.length (positions p)) (rainParticles s) /\
    option_map (fun l => List.length (positions l)) (windLines s')
    = option_map (fun l => List.length (positions l)) (windLines s) /\
    forall c, clouds s' = Some c -> gtb (clouds_position_x c) 60 = false.
Proof.
  intros R.
  assert (D : Drifting s).
  { apply (@after_calls_Drifting Math_random cs (new children fog0) s
             (Inv_Loose (Inv_new children fog0))); [|exact R].
    intros c Hc. discriminate Hc. }
  destruct (animate_frame Math_random delta D)
    as (s' & E & (H1 & H2 & _ & _ & _ & H6 & H7) & (S1 & S2 & S3 & S4) & D').
  exists s'. repeat (split; [assumption|]).
  intros c Hc. apply (D' c Hc).
Qed.

Lemma animate_keeps_instances_and_sizes_witness :
  exists s, after_calls sample_random (new sample_lights sample_fog)
              [UpdateWeather sample_rain; Animate 1; Animate 1] = Some s /\
    exists s', animate sample_random 1 s = Returned s' /\
               scene_children s' = scene_children s /\
               forall c, clouds s' = Some c -> gtb (clouds_position_x c) 60 = false.
Proof.
  pose proof (animate_keeps_instances_and_sizes sample_random sample_lights sample_fog
                [UpdateWeather sample_rain; Animate 1; Animate 1]) as T.
  assert (R : exists s, after_calls sample_random (new sample_lights sample_fog)
                [UpdateWeather sample_rain; Animate 1; Animate 1] = Some s)
    by (vm_compute; eexists; reflexivity).
  destruct R as [s R]. exists s. split; [exact R|].
  destruct (T s 1 R) as (s' & E & H1 & _ & _ & _ & _ & _ & _ & _ & H).
  exists s'. split; [exact E|]. split; [exact H1|exact H].
Defined.

End LifecycleFacts.

(* ================================================================== *)
(** ** The scene builder: progress, population and the frame loop      *)
(* ================================================================== *)

Module SceneBuildFacts.

Import JS THREE Field.
Local Open Scope float_scope.

(** *** The progress figure *)

(** A count as a number. *)
Definition count (n : nat) : float := of_Z (Z.of_nat n).

(** The percentage [100 * loaded / total], rounded to the nearest
    whole number, a half going up. *)
Definition rounded_percentage (loaded total : nat) : nat :=
  ((200 * loaded + total) / (2 * total))%nat.

Definition progress_check (total loaded : nat) : bool :=
  PrimFloat.Leibniz.eqb (onProgress (count loaded) (count total))
                        (count (rounded_percentage loaded total)).

Definition progress_check_row (total : nat) : bool :=
  forallb (progress_check total) (seq 0 (S total)).

Lemma progress_check_all : forallb progress_check_row (seq 1 39) = true.
Proof. vm_compute. reflexivity. Qed.

(** With up to 39 items, the progress figure is the exact percentage
    of loaded items rounded to the nearest whole number (a half going
    up): a whole number from 0 to 100, 100 exactly when every item is
    loaded and 0 exactly when none is. *)
Theorem progress_is_the_rounded_percentage (loaded total : nat) :
  (1 <= total <= 39)%nat ->
  (loaded <= total)%nat ->
  onProgress (count loaded) (count total) = count (rounded_percentage loaded total) /\
  (rounded_percentage loaded total <= 100)%nat /\
  (rounded_percentage loaded total = 100%nat <-> loaded = total) /\
  (rounded_percentage loaded total = 0%nat <-> loaded = 0%nat).
Proof.
  intros Ht Hl. split.
  - pose proof progress_check_all as A. rewrite forallb_forall in A.
    assert (B : progress_check_row total = true) by (apply A, in_seq; lia).
    unfold progress_check_row in B. rewrite forallb_forall in B.
    assert (C : progress_check total loaded = true) by (apply B, in_seq; lia).
    apply FloatAxioms.Leibniz.eqb_spec. exact C.
  - unfold rounded_percentage.
    pose proof (Nat.div_mod_eq (200 * loaded + total) (2 * total)) as E.
    assert (U : ((200 * loaded + total) mod (2 * total) < 2 * total)%nat)
      by (apply Nat.mod_upper_bound; lia).
    set (q := ((200 * loaded + total) / (2 * total))%nat) in *.
    set (m := ((200 * loaded + total) mod (2 * total))%nat) in *.
    clearbody q m.
    split; [nia|]. split; split; intros H; nia.
Qed.

Lemma progress_is_the_rounded_percentage_witness :
  (1 <= 8 <= 39)%nat /\ (3 <= 8)%nat /\ onProgress 3 8 = 38.
Proof.
  split; [lia|]. split; [lia|].
  destruct (@progress_is_the_rounded_percentage 3 8) as [H _]; [lia|lia|].
  exact H.
Defined.

(** The figure is not the rounded percentage for every count: 23 of
    40 items are 57.5 per cent, and the figure is 57. *)
Example progress_of_23_in_40 : onProgress 23 40 = 57.
Proof. vm_compute. reflexivity. Qed.

(** *** The plant grid and the grass *)

Section Population.

Variable Math_random : nat -> float.
Variables Math_sin Math_cos : float -> float.

(** The plant of row [r], column [c]: the grid point with a jitter of
    a quarter unit at most on each axis, drawn from two consecutive
    random numbers. *)
Definition plant_at (selectedPlant : PlantModel) (k r c : nat) : PlantInstance :=
  {| plant_position :=
       vec3 (-10 + count c * 5 + (Math_random k - 0.5) * 0.5)
            0
            (-10 + count r * 10 + (Math_random (k + 1) - 0.5) * 0.5);
     plant_clips := plant_animations selectedPlant |}.

Lemma baseX_value : baseX = -10.
Proof. vm_compute. reflexivity. Qed.

Lemma baseZ_value : baseZ = -10.
Proof. vm_compute. reflexivity. Qed.

Lemma plant_row_nth (p : PlantModel) (r n : nat) :
  forall c k j, (j < n)%nat ->
    nth_error (plant_row Math_random p r n c k) j = Some (plant_at p (k + 2 * j) r (c + j)).
Proof.
  induction n as [|n IH]; intros c k j Hj; [lia|].
  destruct j as [|j]; cbn [plant_row nth_error].
  - unfold plant_at, count. rewrite baseX_value, baseZ_value.
    replace (k + 2 * 0)%nat with k by lia. replace (c + 0)%nat with c by lia.
    reflexivity.
  - rewrite IH by lia. f_equal. f_equal; lia.
Qed.

Lemma plant_rows_nth (p : PlantModel) (n : nat) :
  forall r k i j, (i < n)%nat -> (j < cols)%nat ->
    nth_error (plant_rows Math_random p n r k) (i * cols + j)
    = Some (plant_at p (k + 2 * (i * cols + j)) (r + i) j).
Proof.
  induction n as [|n IH]; intros r k i j Hi Hj; [lia|].
  unfold plant_rows; fold plant_rows.
  destruct i as [|i].
  - rewrite nth_error_app1 by (rewrite FieldFacts.plant_row_length; unfold cols in *; lia).
    simpl Nat.add. rewrite plant_row_nth by exact Hj.
    f_equal. f_equal; lia.
  - rewrite nth_error_app2 by (rewrite FieldFacts.plant_row_length; unfold cols in *; lia).
    rewrite FieldFacts.plant_row_length.
    replace (S i * cols + j - cols)%nat with (i * cols + j)%nat by (unfold cols; lia).
    rewrite IH by lia. f_equal. f_equal; unfold cols; lia.
Qed.

(** [createPlantField] with at least one loaded model adds one group
    of 15 plants, all clones of the first model: the plant of row [r]
    (of 3) and column [c] (of 5) stands at x = -10 + 5c, z = -10 + 10r
    with its jitter, and plays the clips of that model; 15 mixers are
    added and 30 random numbers drawn.  With no model it does nothing. *)
Theorem plant_field_is_a_three_by_five_grid
        (selectedPlant : PlantModel) (others : list PlantModel) (s : state) :
  createPlantField Math_random [] s = s /\
  exists plants,
    scene (createPlantField Math_random (selectedPlant :: others) s)
    = (scene s ++ [FieldGroup plants])%list /\
    List.length plants = 15%nat /\
    mixers (createPlantField Math_random (selectedPlant :: others) s)
    = (mixers s + 15)%nat /\
    random_calls (createPlantField Math_random (selectedPlant :: others) s)
    = (random_calls s + 30)%nat /\
    forall r c, (r < 3)%nat -> (c < 5)%nat ->
      nth_error plants (5 * r + c)
      = Some (plant_at selectedPlant (random_calls s + 2 * (5 * r + c)) r c).
Proof.
  split; [reflexivity|].
  exists (plant_rows Math_random selectedPlant rows 0 (random_calls s)).
  split; [reflexivity|].
  split; [apply (FieldFacts.plant_rows_length Math_random selectedPlant 3 0)|].
  split; [reflexivity|]. split; [reflexivity|].
  intros r c Hr Hc.
  replace (5 * r + c)%nat with (r * cols + c)%nat by (unfold cols; lia).
  rewrite plant_rows_nth by (unfold rows, cols; lia). reflexivity.
Qed.

(** The blade that the grass loop makes from four consecutive random
    numbers: a point of the disc of radius 45 (angle, and radius by a
    square root), lying flat, turned and scaled at random. *)
Definition blade_at (k : nat) : GrassMesh :=
  let angle := Math_random k * Math_PI * 2 in
  let radius := Math_sqrt (Math_random (k + 1)) * 45 in
  {| grass_position := vec3 (radius * Math_cos angle) 0 (radius * Math_sin angle);
     grass_rotation_x := - Math_PI / 2;
     grass_rotation_z := Math_random (k + 2) * Math_PI;
     grass_scale := 0.8 + Math_random (k + 3) * 1.2 |}.

Lemma make_grass_nth (n : nat) :
  forall k i, (i < n)%nat ->
    nth_error (make_grass Math_random Math_sin Math_cos n k) i = Some (blade_at (k + 4 * i)).
Proof.
  induction n as [|n IH]; intros k i Hi; [lia|].
  destruct i as [|i]; cbn [make_grass nth_error].
  - replace (k + 4 * 0)%nat with k by lia. reflexivity.
  - rewrite IH by lia. f_equal. f_equal. lia.
Qed.

Lemma make_grass_length (n : nat) :
  forall k, List.length (make_grass Math_random Math_sin Math_cos n k) = n.
Proof. induction n as [|n IH]; intros k; simpl; [reflexivity|now rewrite IH]. Qed.


(** [createGrass] adds one group of 200 blades, the blade [i] made
    from the random numbers [4i] to [4i + 3] after those drawn before:
    every blade lies flat at height 0; 800 random numbers are drawn. *)
Theorem grass_is_two_hundred_flat_blades (textures : TextureMaps) (s : state) :
  exists blades,
    scene (createGrass Math_random Math_sin Math_cos textures s)
    = (scene s ++ [GrassGroup blades])%list /\
    List.length blades = 200%nat /\
    random_calls (createGrass Math_random Math_sin Math_cos textures s)
    = (random_calls s + 800)%nat /\
    (forall i, (i < 200)%nat ->
       nth_error blades i = Some (blade_at (random_calls s + 4 * i))) /\
    (forall b, In b blades ->
       grass_rotation_x b = - Math_PI / 2 /\ vy (grass_position b) = 0).
Proof.
  exists (make_grass Math_random Math_sin Math_cos 200 (random_calls s)).
  split; [reflexivity|]. split; [apply make_grass_length|]. split; [reflexivity|].
  split; [intros i Hi; now apply make_grass_nth|].
  intros b Hb. apply In_nth_error in Hb. destruct Hb as [i Hi].
  assert (L : (i < 200)%nat).
  { rewrite <- (make_grass_length 200 (random_calls s)).
    apply nth_error_Some. congruence. }
  rewrite make_grass_nth in Hi by exact L. injection Hi as <-. split; reflexivity.
Qed.

End Population.

(** *** The frame loop *)

Lemma next_frame_of_one (rt : Runtime) :
  frame_requests rt = 1%nat ->
  frame_requests (next_frame rt) = 1%nat /\
  frames_rendered (next_frame rt) = S (frames_rendered rt) /\
  frames_rendered_disposed (next_frame rt)
  = (if renderer_disposed rt then S (frames_rendered_disposed rt)
     else frames_rendered_disposed rt) /\
  renderer_disposed (next_frame rt) = renderer_disposed rt /\
  mountRef_current (next_frame rt) = mountRef_current rt /\
  resize_listeners (next_frame rt) = resize_listeners rt.
Proof. intros H. unfold next_frame. rewrite H. repeat split. Qed.

Lemma frames_of_one (n : nat) (rt : Runtime) :
  frame_requests rt = 1%nat ->
  frame_requests (Nat.iter n next_frame rt) = 1%nat /\
  frames_rendered (Nat.iter n next_frame rt) = (frames_rendered rt + n)%nat /\
  frames_rendered_disposed (Nat.iter n next_frame rt)
  = (if renderer_disposed rt then frames_rendered_disposed rt + n
     else frames_rendered_disposed rt)%nat /\
  renderer_disposed (Nat.iter n next_frame rt) = renderer_disposed rt /\
  mountRef_current (Nat.iter n next_frame rt) = mountRef_current rt /\
  resize_listeners (Nat.iter n next_frame rt) = resize_listeners rt.
Proof.
  intros H. induction n as [|n (I1 & I2 & I3 & I4 & I5 & I6)]; simpl.
  - repeat split; try lia. destruct (renderer_disposed rt); lia.
  - destruct (next_frame_of_one _ I1) as (N1 & N2 & N3 & N4 & N5 & N6).
    rewrite N1, N2, N3, N4, N5, N6, I2, I3, I4, I5, I6.
    repeat split; try lia. destruct (renderer_disposed rt); lia.
Qed.

(** The frame loop neither stops nor multiplies.  After the mount and
    any number of frames exactly one [animate] callback is requested;
    an unmount does not change that: every later frame still runs
    [animate] once, renders and requests the next.  The renderer is
    not disposed by the unmount, whose cleanup finds the ref cleared. *)
Theorem frame_loop_never_stops (n m : nat) :
  frame_requests (Nat.iter n next_frame mount) = 1%nat /\
  frames_rendered (Nat.iter n next_frame mount) = S n /\
  frame_requests (Nat.iter m next_frame (unmount (Nat.iter n next_frame mount))) = 1%nat /\
  frames_rendered (Nat.iter m next_frame (unmount (Nat.iter n next_frame mount)))
  = (S n + m)%nat /\
  renderer_disposed (Nat.iter m next_frame (unmount (Nat.iter n next_frame mount)))
  = false /\
  resize_listeners (Nat.iter m next_frame (unmount (Nat.iter n next_frame mount)))
  = 0%nat.
Proof.
  destruct (@frames_of_one n mount eq_refl) as (A1 & A2 & A3 & A4 & A5 & A6).
  cbn [renderer_disposed mount animate frames_rendered_disposed mountRef_current
       resize_listeners] in A3, A4, A5, A6.
  split; [exact A1|]. split; [rewrite A2; reflexivity|].
  set (rt := Nat.iter n next_frame mount) in *.
  assert (C1 : frame_requests (unmount rt) = 1%nat) by exact A1.
  destruct (@frames_of_one m (unmount rt) C1) as (B1 & B2 & _ & B4 & _ & B6).
  split; [exact B1|]. split; [rewrite B2; simpl; rewrite A2; reflexivity|].
  split; [rewrite B4; exact A4|].
  rewrite B6. unfold unmount, cleanup, detach_ref. cbn [resize_listeners].
  rewrite A6. reflexivity.
Qed.

End SceneBuildFacts.

(* ================================================================== *)
(** ** The weather card *)
(* ================================================================== *)

Module WeatherCardFacts.

Import JS Web Weather.
Local Open Scope string_scope.


(** [data.key], for the parsed body. *)
Definition part (data : JSON) (key : string) : Value := own data key.

(** [data.weather[0]], when [data.weather] can be indexed. *)
Definition weather0 (data : JSON) : Value :=
  match part data "weather" with
  | Some w => first w
  | None => None
  end.

Section Card.

Variable TypeError_message : Value -> string -> string.
Variable ToNumber_text : JSON -> float.
Variable onWeatherUpdate : option (WeatherData -> option Thrown).





(** What makes a fetch fail, with the value that the [catch] block
    receives: the request itself, the status, the parsing of the body,
    a body without one of its three parts. *)
Definition failure_before_data (fetched : Thrown + Response) : option Thrown :=
  match fetched with
  | inl reason => Some reason
  | inr response =>
      if negb (ok response)
      then Some (ErrorObject (if Nat.eqb (status response) 401
                              then "Invalid API key" else "Weather data unavailable"))
      else match json response with
           | inl reason => Some reason
           | inr data =>
               match weatherData_of TypeError_message ToNumber_text data with
               | inl reason => Some reason
               | inr _ => None
               end
           end
  end.

(** The data of a response that is accepted. *)
Definition accepted (fetched : Thrown + Response) : option WeatherData :=
  match fetched with
  | inr response =>
      if ok response then
        match json response with
        | inr data =>
            match weatherData_of TypeError_message ToNumber_text data with
            | inr d => Some d
            | inl _ => None
            end
        | inl _ => None
        end
      else None
  | inl _ => None
  end.

Lemma accepted_or_failed (fetched : Thrown + Response) :
  (exists d, accepted fetched = Some d /\ failure_before_data fetched = None) \/
  (exists e, accepted fetched = None /\ failure_before_data fetched = Some e).
Proof.
  unfold accepted, failure_before_data.
  destruct fetched as [reason|response]; [right; eexists; split; reflexivity|].
  destruct (ok response); cbn [negb]; [|right; eexists; split; reflexivity].
  destruct (json response) as [reason|data]; [right; eexists; split; reflexivity|].
  destruct (weatherData_of TypeError_message ToNumber_text data) as [reason|d];
    [right|left]; eexists; split; reflexivity.
Qed.

Lemma fetchWeather_try_failed (fetched : Thrown + Response) (e : Thrown) (s : state) :
  failure_before_data fetched = Some e ->
  fetchWeather_try TypeError_message ToNumber_text onWeatherUpdate fetched s = (inl e, s).
Proof.
  unfold failure_before_data, fetchWeather_try, bind, eval, throw, ret, modify.
  destruct fetched as [reason|response]; [intros H; injection H as <-; reflexivity|].
  destruct (ok response); cbn [negb]; [|intros H; injection H as <-; reflexivity].
  destruct (json response) as [reason|data]; [intros H; injection H as <-; reflexivity|].
  destruct (weatherData_of TypeError_message ToNumber_text data) as [reason|d];
    [intros H; injection H as <-; reflexivity|discriminate].
Qed.

Lemma fetchWeather_try_accepted (fetched : Thrown + Response) (d : WeatherData) (s : state) :
  accepted fetched = Some d ->
  fetchWeather_try TypeError_message ToNumber_text onWeatherUpdate fetched s =
  match onWeatherUpdate with
  | Some callback =>
      (match callback d with Some thrown => inl thrown | None => inr tt end,
       report d (setWeather (Some d) s))
  | None => (inr tt, setWeather (Some d) s)
  end.
Proof.
  unfold accepted, fetchWeather_try, bind, eval, throw, ret, modify.
  destruct fetched as [reason|response]; [discriminate|].
  destruct (ok response); cbn [negb]; [|discriminate].
  destruct (json response) as [reason|data]; [discriminate|].
  destruct (weatherData_of TypeError_message ToNumber_text data) as [reason|d'];
    [discriminate|].
  intros H. injection H as ->.
  destruct onWeatherUpdate as [callback|]; [|reflexivity].
  destruct (callback d); reflexivity.
Qed.

(** A [fetchWeather] call ends in one of three ways, whatever the
    request came to and whatever the state was.  Always [loading] is
    false.  Either the response was accepted and the callback (if
    any) returned: no error, the fresh data stored, and the callback
    called once, with the object that was stored.  Or the fetch failed
    before the data was complete: the error is set and logged, and
    neither the stored weather nor the caller has seen anything of
    this response.  Or the callback threw: the fresh data is stored
    and was reported, and yet the error is set. *)
Theorem fetch_ends_with_fresh_weather_or_an_error
        (fetched : Thrown + Response) (s : state) :
  let s' := fetchWeather TypeError_message ToNumber_text onWeatherUpdate fetched s in
  loading s' = false /\
  ((exists d,
       accepted fetched = Some d /\
       error s' = None /\ logged s' = logged s /\ weather s' = Some d /\
       reported s' = match onWeatherUpdate with
                     | Some _ => d :: reported s
                     | None => reported s
                     end) \/
   (exists e,
       failure_before_data fetched = Some e /\
       error s' = Some (message_or "Unknown error" e) /\ logged s' = S (logged s) /\
       weather s' = weather s /\ reported s' = reported s) \/
   (exists d callback e,
       accepted fetched = Some d /\
       onWeatherUpdate = Some callback /\ callback d = Some e /\
       error s' = Some (message_or "Unknown error" e) /\ logged s' = S (logged s) /\
       weather s' = Some d /\ reported s' = d :: reported s)).
Proof.
  intros s'. subst s'. unfold fetchWeather, fetchWeather_settle.
  destruct (accepted_or_failed fetched) as [(d & A & F)|(e & A & F)].
  - rewrite (@fetchWeather_try_accepted fetched d _ A).
    destruct onWeatherUpdate as [callback|] eqn:Ecb.
    + destruct (callback d) as [e|] eqn:Ec.
      * split; [reflexivity|]. right. right. exists d, callback, e.
        repeat split; assumption.
      * split; [reflexivity|]. left. exists d. repeat split. exact A.
    + split; [reflexivity|]. left. exists d. repeat split. exact A.
  - rewrite (@fetchWeather_try_failed fetched e _ F).
    split; [reflexivity|]. right. left. exists e. repeat split. exact F.
Qed.

End Card.

(** *** What the card shows after a fetch *)

Section Shown.

Variable TypeError_message : Value -> string -> string.
Variable ToNumber_text : JSON -> float.
Variable onWeatherUpdate : option (WeatherData -> option Thrown).

(** After a fetch the placeholder is gone.  An error with a message
    is shown in place of the card, whatever weather is stored; an
    error whose message is empty is not shown: the card shows the
    stored weather, as it does after a fetch without error. *)
Theorem card_after_a_fetch (fetched : Thrown + Response) (s : state) :
  let s' := fetchWeather TypeError_message ToNumber_text onWeatherUpdate fetched s in
  render s' <> Skeleton /\
  (forall m, error s' = Some m -> m <> "" -> render s' = ErrorPanel m) /\
  (error s' = None \/ error s' = Some "" ->
   render s' = match weather s' with Some w => Card w | None => Nothing end).
Proof.
  intros s'.
  assert (L : loading s' = false)
    by apply (fetch_ends_with_fresh_weather_or_an_error
                TypeError_message ToNumber_text onWeatherUpdate fetched s).
  unfold render. rewrite L. split; [|split].
  - destruct (ToBoolean (option_map JString (error s')));
      [discriminate|destruct (weather s'); discriminate].
  - intros m E Hm. rewrite E. simpl.
    destruct (String.eqb m "") eqn:Em; [apply String.eqb_eq in Em; contradiction|].
    reflexivity.
  - intros [E|E]; rewrite E; reflexivity.
Qed.

End Shown.

(** *** The refresh interval *)

Lemma filter_out_only (i : nat) :
  List.filter (fun j => negb (Nat.eqb j i)) [i] = [].
Proof. simpl. now rewrite Nat.eqb_refl. Qed.

(** While the component is mounted exactly one interval is set, the
    one that the pending cleanup holds. *)
Definition one_interval (t : Timers) : Prop :=
  exists i, intervals t = [i] /\ held t = Some i.

Lemma step_one_interval (t : Timers) (e : Event) :
  one_interval t ->
  one_interval (step t e) /\ fetches (step t e) = S (fetches t).
Proof.
  intros (i & Hi & Hh). destruct e; simpl.
  - split; [|unfold cleanup; rewrite Hh; reflexivity].
    eexists. split; [|reflexivity].
    unfold cleanup. rewrite Hh, Hi. simpl. now rewrite Nat.eqb_refl.
  - split; [exists i; now split|]. rewrite Hi. simpl. lia.
Qed.

Lemma steps_one_interval (events : list Event) :
  forall t, one_interval t ->
            one_interval (fold_left step events t) /\
            fetches (fold_left step events t) = (fetches t + List.length events)%nat.
Proof.
  induction events as [|e events IH]; intros t H; simpl.
  - split; [exact H|lia].
  - destruct (step_one_interval e H) as [H1 F1].
    destruct (IH _ H1) as [H2 F2]. split; [exact H2|]. rewrite F2, F1. lia.
Qed.

(** However often the dependencies change and however long the
    component stays mounted, exactly one refresh interval is set at
    any time, so every period starts exactly one fetch (and every
    change of the dependencies one more); the unmount leaves no
    interval behind. *)
Theorem one_refresh_interval (events : list Event) :
  (exists i, intervals (mounted events) = [i]) /\
  fetches (mounted events) = S (List.length events) /\
  intervals (unmounted events) = [].
Proof.
  assert (H0 : one_interval (effect (mkTimers [] 0 None 0)))
    by (exists 0%nat; split; reflexivity).
  destruct (steps_one_interval events H0) as [(i & Hi & Hh) F].
  split; [exists i; exact Hi|]. split; [exact F|].
  unfold unmounted, cleanup. fold (mounted events).
  unfold mounted. rewrite Hh, Hi. simpl. now rewrite Nat.eqb_refl.
Qed.

End WeatherCardFacts.

(* ================================================================== *)
(** ** The soil panel *)
(* ================================================================== *)

Module SoilPanelFacts.

Import JS Web SoilMetrics.
Local Open Scope string_scope.

(** The body of a response that the panel takes: the request arrived,
    its status is in 200..299, and the body parsed. *)
Definition soil_body (fetched : Thrown + Response) : option JSON :=
  match fetched with
  | inr response =>
      if ok response then match json response with
                          | inr data => Some data
                          | inl _ => None
                          end
      else None
  | inl _ => None
  end.

(** The panel after its one fetch.  The loading line is gone.  Every
    failure (the request, the status, the parsing) shows the same
    line, "Failed to load soil data.", and no metrics.  A body that
    arrives is shown without any check: its six properties where it
    has them; and a body that counts as false ([null], [false], [0],
    the empty string) leaves the panel without error and without
    metrics. *)
Theorem soil_panel_after_its_fetch (fetched : Thrown + Response) :
  let panel := render (fetchSoilData fetched initial) in
  loading_line panel = false /\
  match soil_body fetched with
  | None =>
      error_line panel = Some "Failed to load soil data." /\
      data_block panel = NoBlock
  | Some data =>
      error_line panel = None /\
      soilData (fetchSoilData fetched initial) = data /\
      (ToBoolean (Some data) = true ->
       data_block panel =
       Metrics (own data "soil_pH") (own data "nitrogen") (own data "organic_carbon")
               (own data "sand_content") (own data "clay_content")
               (own data "soil_moisture")) /\
      (ToBoolean (Some data) = false ->
       data_block panel = match data with JNumber n => ZeroText n | _ => NoBlock end)
  end.
Proof.
  intros panel. subst panel. unfold soil_body, fetchSoilData, render.
  destruct fetched as [reason|response]; [repeat split|].
  destruct (ok response); cbn [negb]; [|repeat split].
  destruct (json response) as [reason|data]; [repeat split|].
  cbn [soilData loading error initial option_map ToBoolean loading_line error_line
       data_block].
  split; [reflexivity|]. split; [reflexivity|]. split; [reflexivity|].
  split; intros H; rewrite H; reflexivity.
Qed.

End SoilPanelFacts.

(* ================================================================== *)
(** ** The database connection *)
(* ================================================================== *)

Module ConnectionFacts.

Import Web Mongodb.
Local Open Scope string_scope.

(** What a caller of [dbConnect] gets for what the driver did. *)
Definition result_of (outcome : Thrown + Mongoose) : Thrown + Mongoose :=
  match outcome with
  | inr m => inr m
  | inl (ErrorObject message) =>
      inl (ErrorObject ("Database connection failed: " ++ message))
  | inl OtherValue => inl (ErrorObject "Database connection failed")
  end.

(** [n] calls, each awaited before the next is made. *)
Fixpoint calls (driver : nat -> Thrown + Mongoose) (n : nat) (s : state)
  : option (list (Thrown + Mongoose) * state) :=
  match n with
  | O => Some ([], s)
  | S n' =>
      match dbConnect driver s with
      | Some (r, s') =>
          match calls driver n' s' with
          | Some (rs, s'') => Some (r :: rs, s'')
          | None => None
          end
      | None => None
      end
  end.

Lemma nth_error_set_nth {A : Type} (a : A) (l : list A) :
  forall i, (i < List.length l)%nat -> nth_error (set_nth i a l) i = Some a.
Proof.
  induction l as [|x l IH]; intros i Hi; simpl in Hi; [lia|].
  destruct i as [|i]; simpl; [reflexivity|]. apply IH. lia.
Qed.

Lemma set_nth_last {A : Type} (a b : A) (l : list A) :
  set_nth (List.length l) a (l ++ [b])%list = (l ++ [a])%list.
Proof. induction l as [|x l IH]; simpl; [reflexivity|now rewrite IH]. Qed.

Lemma nth_error_last {A : Type} (a : A) (l : list A) :
  nth_error (l ++ [a])%list (List.length l) = Some a.
Proof. induction l as [|x l IH]; simpl; [reflexivity|exact IH]. Qed.

(** A call on an empty cache makes one attempt and gives its outcome. *)
Lemma dbConnect_empty (driver : nat -> Thrown + Mongoose) (ps : list PromiseState) (c : nat) :
  dbConnect driver (mk {| conn := None; promise := None |} ps c) =
  Some (result_of (driver (List.length ps)),
        match driver (List.length ps) with
        | inr m => mk {| conn := Some m; promise := Some (List.length ps) |}
                      (ps ++ [Fulfilled m])%list (S c)
        | inl e => mk {| conn := None; promise := None |}
                      (ps ++ [connection_promise (inl e)])%list (S c)
        end).
Proof.
  unfold dbConnect, dbConnect_start, settle, dbConnect_resume. simpl.
  rewrite nth_error_last. simpl. rewrite set_nth_last, nth_error_last.
  destruct (driver (List.length ps)) as [[message|]|m]; reflexivity.
Qed.

(** A call on a cache that holds a connection gives it at once. *)
Lemma dbConnect_cached (driver : nat -> Thrown + Mongoose) (m : Mongoose)
      (p : option nat) (ps : list PromiseState) (c : nat) :
  dbConnect driver (mk {| conn := Some m; promise := p |} ps c) =
  Some (inr m, mk {| conn := Some m; promise := p |} ps c).
Proof. reflexivity. Qed.

Lemma calls_cached (driver : nat -> Thrown + Mongoose) (m : Mongoose)
      (p : option nat) (ps : list PromiseState) (c : nat) (n : nat) :
  calls driver n (mk {| conn := Some m; promise := p |} ps c) =
  Some (List.repeat (inr m) n, mk {| conn := Some m; promise := p |} ps c).
Proof.
  induction n as [|n IH]; [reflexivity|].
  cbn [calls]. rewrite dbConnect_cached, IH. reflexivity.
Qed.

Lemma calls_app (driver : nat -> Thrown + Mongoose) (a b : nat) :
  forall s,
    calls driver (a + b) s =
    match calls driver a s with
    | Some (rs, s') =>
        match calls driver b s' with
        | Some (rs', s'') => Some ((rs ++ rs')%list, s'')
        | None => None
        end
    | None => None
    end.
Proof.
  induction a as [|a IH]; intros s.
  - simpl. destruct (calls driver b s) as [[rs' s'']|]; reflexivity.
  - cbn [Nat.add calls]. destruct (dbConnect driver s) as [[r s']|]; [|reflexivity].
    rewrite IH. destruct (calls driver a s') as [[rs s1]|]; [|reflexivity].
    destruct (calls driver b s1) as [[rs' s2]|]; reflexivity.
Qed.

Lemma calls_failing (driver : nat -> Thrown + Mongoose) (n : nat) :
  forall ps c,
    (forall j, (j < n)%nat -> exists e, driver (List.length ps + j) = inl e) ->
    exists ps',
      calls driver n (mk {| conn := None; promise := None |} ps c) =
      Some (map (fun j => result_of (driver (List.length ps + j))) (seq 0 n),
            mk {| conn := None; promise := None |} (ps ++ ps')%list (c + n)) /\
      List.length ps' = n.
Proof.
  induction n as [|n IH]; intros ps c H.
  - exists []. rewrite app_nil_r, Nat.add_0_r. split; reflexivity.
  - cbn [calls]. rewrite dbConnect_empty.
    destruct (H 0%nat) as [e He]; [lia|]. rewrite Nat.add_0_r in He. rewrite He.
    destruct (IH (ps ++ [connection_promise (inl e)])%list (S c)) as (ps' & E & L).
    { intros j Hj. rewrite length_app. simpl.
      replace (List.length ps + 1 + j)%nat with (List.length ps + S j)%nat by lia.
      apply H. lia. }
    rewrite E. exists (connection_promise (inl e) :: ps').
    split; [|simpl; now rewrite L].
    rewrite <- app_assoc. simpl. f_equal. f_equal; [|f_equal; lia].
    cbn [seq map]. rewrite Nat.add_0_r, He. f_equal.
    rewrite <- seq_shift, map_map. apply map_ext. intros j.
    rewrite length_app. simpl. f_equal. f_equal. lia.
Qed.

(** Calls made one after the other on a new module: as long as the
    driver fails, every call makes a new attempt and throws an [Error]
    whose message starts with "Database connection failed" (the
    message "Unknown database connection error" is never used); the
    first attempt that succeeds gives the connection that every later
    call returns, and no attempt is made after it. *)
Theorem calls_retry_until_connected_then_reuse
        (driver : nat -> Thrown + Mongoose) (k n : nat) (m : Mongoose) :
  (forall j, (j < k)%nat -> exists e, driver j = inl e) ->
  driver k = inr m ->
  exists s,
    calls driver n initial =
    Some ((map (fun j => result_of (driver j)) (seq 0 (Nat.min n k))
           ++ List.repeat (inr m) (n - k))%list, s) /\
    connects s = Nat.min n (S k) /\
    conn (cached s) = (if (k <? n)%nat then Some m else None).
Proof.
  intros Hfail Hk. unfold initial.
  destruct (Nat.le_gt_cases n k) as [Hn|Hn].
  - destruct (@calls_failing driver n [] 0%nat) as (ps' & E & L).
    { intros j Hj. simpl. apply Hfail. lia. }
    simpl in E. eexists. split.
    + rewrite E. replace (Nat.min n k) with n by lia.
      replace (n - k)%nat with 0%nat by lia. simpl. now rewrite app_nil_r.
    + simpl. split; [lia|].
      destruct (k <? n)%nat eqn:C; [apply Nat.ltb_lt in C; lia|reflexivity].
  - destruct (@calls_failing driver k [] 0%nat) as (ps' & E & L).
    { intros j Hj. simpl. apply Hfail. exact Hj. }
    simpl in E.
    assert (En : exists r, n = (k + S r)%nat) by (exists (n - S k)%nat; lia).
    destruct En as [r ->].
    rewrite (calls_app driver k (S r)), E.
    cbn [calls]. rewrite dbConnect_empty, L, Hk. cbn [result_of].
    rewrite calls_cached. eexists. split.
    + replace (Nat.min (k + S r) k) with k by lia.
      replace (k + S r - k)%nat with (S r) by lia. reflexivity.
    + simpl. split; [lia|].
      destruct (k <? k + S r)%nat eqn:C; [reflexivity|apply Nat.ltb_ge in C; lia].
Qed.

Lemma calls_retry_until_connected_then_reuse_witness :
  (forall j, (j < 2)%nat ->
     exists e, (fun p => match p with
                         | 0%nat => inl (ErrorObject "timeout")
                         | 1%nat => inl OtherValue
                         | _ => inr 7%nat
                         end) j = inl e) /\
  exists s,
    calls (fun p => match p with
                    | 0%nat => inl (ErrorObject "timeout")
                    | 1%nat => inl OtherValue
                    | _ => inr 7%nat
                    end) 5 initial =
    Some ([inl (ErrorObject "Database connection failed: timeout");
           inl (ErrorObject "Database connection failed");
           inr 7%nat; inr 7%nat; inr 7%nat], s) /\
    connects s = 3%nat.
Proof.
  assert (F : forall j, (j < 2)%nat ->
     exists e, (fun p => match p with
                         | 0%nat => inl (ErrorObject "timeout")
                         | 1%nat => inl OtherValue
                         | _ => @inr Thrown Mongoose 7%nat
                         end) j = inl e).
  { intros j Hj. destruct j as [|[|j]]; [eexists; reflexivity|eexists; reflexivity|lia]. }
  split; [exact F|].
  destruct (@calls_retry_until_connected_then_reuse _ 2 5 7%nat F eq_refl) as (s & E & C & _).
  exists s. split; [exact E|exact C].
Defined.

(** *** Calls that overlap *)

(** [n] calls made before any of them resumes. *)
Fixpoint starts (n : nat) (s : state) : list Started * state :=
  match n with
  | O => ([], s)
  | S n' => let '(r, s') := dbConnect_start s in
            let '(rs, s'') := starts n' s' in
            (r :: rs, s'')
  end.

(** The calls that await promise [p] resume, one after the other. *)
Fixpoint resumes (p n : nat) (s : state) : option (list (Thrown + Mongoose) * state) :=
  match n with
  | O => Some ([], s)
  | S n' =>
      match dbConnect_resume p s with
      | Some (r, s') =>
          match resumes p n' s' with
          | Some (rs, s'') => Some (r :: rs, s'')
          | None => None
          end
      | None => None
      end
  end.

Lemma starts_awaiting (n : nat) (p c : nat) (ps : list PromiseState) :
  starts n (mk {| conn := None; promise := Some p |} ps c) =
  (List.repeat (Awaiting p) n, mk {| conn := None; promise := Some p |} ps c).
Proof.
  induction n as [|n IH]; [reflexivity|].
  cbn [starts]. unfold dbConnect_start at 1. cbn [conn promise cached].
  rewrite IH. reflexivity.
Qed.

Lemma resumes_fulfilled (n : nat) (m : Mongoose) :
  forall c0,
    resumes 0 (S n) (mk {| conn := c0; promise := Some 0%nat |} [Fulfilled m] 1) =
    Some (List.repeat (inr m) (S n),
          mk {| conn := Some m; promise := Some 0%nat |} [Fulfilled m] 1).
Proof.
  induction n as [|n IH]; intros c0; [reflexivity|].
  change (resumes 0 (S (S n)) ?s) with
    (match dbConnect_resume 0 s with
     | Some (r, s') => match resumes 0 (S n) s' with
                       | Some (rs, s'') => Some (r :: rs, s'')
                       | None => None
                       end
     | None => None
     end).
  unfold dbConnect_resume at 1. cbn [nth_error promises cached conn promise connects].
  rewrite IH. reflexivity.
Qed.

Lemma resumes_rejected (n : nat) (message : string) :
  forall p0,
    resumes 0 (S n) (mk {| conn := None; promise := p0 |}
                        [RejectedWith (ErrorObject message)] 1) =
    Some (List.repeat (inl (ErrorObject message)) (S n),
          mk {| conn := None; promise := None |} [RejectedWith (ErrorObject message)] 1).
Proof.
  induction n as [|n IH]; intros p0; [reflexivity|].
  change (resumes 0 (S (S n)) ?s) with
    (match dbConnect_resume 0 s with
     | Some (r, s') => match resumes 0 (S n) s' with
                       | Some (rs, s'') => Some (r :: rs, s'')
                       | None => None
                       end
     | None => None
     end).
  unfold dbConnect_resume at 1. cbn [nth_error promises cached conn promise connects].
  rewrite IH. reflexivity.
Qed.

(** Calls that are made on a new module before the first attempt has
    settled share that attempt: [mongoose.connect] is called once, all
    of them await the same promise and none can resume before it
    settles; then all return the same connection, or all throw the
    same error, and after a failure the cache is empty again, so that
    the next call makes a new attempt. *)
Theorem overlapping_calls_share_one_attempt (n : nat) (outcome : Thrown + Mongoose) :
  exists s1,
    starts (S n) initial = (List.repeat (Awaiting 0) (S n), s1) /\
    connects s1 = 1%nat /\
    dbConnect_resume 0 s1 = None /\
    exists s2,
      resumes 0 (S n) (settle 0 outcome s1)
      = Some (List.repeat (result_of outcome) (S n), s2) /\
      connects s2 = 1%nat /\
      match outcome with
      | inr m => cached s2 = {| conn := Some m; promise := Some 0%nat |}
      | inl _ => cached s2 = {| conn := None; promise := None |}
      end.
Proof.
  eexists. split.
  { cbn [starts]. unfold dbConnect_start at 1, initial.
    cbn [conn promise cached promises connects List.length app].
    rewrite starts_awaiting. reflexivity. }
  split; [reflexivity|]. split; [reflexivity|].
  unfold settle. cbn [nth_error promises cached connects set_nth].
  destruct outcome as [[message|]|m]; cbn [connection_promise result_of].
  - rewrite resumes_rejected. eexists. repeat split.
  - rewrite resumes_rejected. eexists. repeat split.
  - rewrite resumes_fulfilled. eexists. repeat split.
Qed.

End ConnectionFacts.

(* ================================================================== *)
(** ** The frame loops of the engine, particle by particle           *)
(* ================================================================== *)

Module FrameFacts.

Import JS THREE WeatherEffects SceneFacts.
Local Open Scope float_scope.

(** *** Position buffers, read point by point *)

Lemma load_app (pre l : list float) (k : nat) :
  load (List.length pre + k) (pre ++ l) = load k l.
Proof. unfold load. induction pre as [|x pre IH]; simpl; [reflexivity|exact IH]. Qed.

Lemma store_app (pre l : list float) (k : nat) (v : float) :
  store (List.length pre + k) v (pre ++ l) = pre ++ store k v l.
Proof. induction pre as [|x pre IH]; simpl; [reflexivity|now rewrite IH]. Qed.

Lemma store_app0 (pre l : list float) (v : float) :
  store (List.length pre) v (pre ++ l) = pre ++ store 0 v l.
Proof. induction pre as [|x pre IH]; simpl; [reflexivity|now rewrite IH]. Qed.

Lemma load_app0 (pre l : list float) :
  load (List.length pre) (pre ++ l) = load 0 l.
Proof. unfold load. induction pre as [|x pre IH]; simpl; [reflexivity|exact IH]. Qed.

Definition Point : Type := (float * float * float)%type.

(** The buffer of a list of points. *)
Fixpoint flat (ps : list Point) : list float :=
  match ps with
  | [] => []
  | (x, y, z) :: rest => x :: y :: z :: flat rest
  end.

Lemma flat_length (ps : list Point) : List.length (flat ps) = (3 * List.length ps)%nat.
Proof. induction ps as [|[[x y] z] ps IH]; simpl; [reflexivity|rewrite IH; lia]. Qed.

Lemma flat_of_length (n : nat) :
  forall a, List.length a = (3 * n)%nat -> exists ps, a = flat ps /\ List.length ps = n.
Proof.
  induction n as [|n IH]; intros a H.
  - destruct a; [exists []; split; reflexivity|discriminate H].
  - destruct a as [|x [|y [|z a]]]; simpl in H; try lia.
    destruct (IH a) as (ps & -> & L); [lia|].
    exists ((x, y, z) :: ps). split; [reflexivity|simpl; now rewrite L].
Qed.

Lemma strides_3 (n : nat) : strides (3 * n) 3 = n.
Proof.
  unfold strides. replace (3 * n + 3 - 1)%nat with (2 + n * 3)%nat by lia.
  rewrite Nat.div_add by lia. reflexivity.
Qed.

Section Rain.

Variable Math_random : nat -> float.

(** What a frame does to one rain particle, [r] random numbers having
    been drawn: it falls by [10 * delta]; a particle that is then
    below the ground is put back at a height of 20 to 50 and at a new
    place, which draws three numbers. *)
Definition fall (delta : float) (p : Point) (r : nat) : Point * nat :=
  let '(x, y, z) := p in
  let y' := Math_fround (y - 10 * delta) in
  if y' <? 0
  then ((Math_fround (Math_random (r + 1) * 100 - 50),
         Math_fround (20 + Math_random r * 30),
         Math_fround (Math_random (r + 2) * 100 - 50)), (r + 3)%nat)
  else ((x, y', z), r).

Fixpoint fall_all (delta : float) (ps : list Point) (r : nat) : list Point * nat :=
  match ps with
  | [] => ([], r)
  | p :: rest =>
      let '(p', r') := fall delta p r in
      let '(rest', r'') := fall_all delta rest r' in
      (p' :: rest', r'')
  end.

Lemma animate_rain_points (delta : float) (ps : list Point) :
  forall pre r,
    animate_rain Math_random delta (List.length ps) (List.length pre) r (pre ++ flat ps)
    = (pre ++ flat (fst (fall_all delta ps r)), snd (fall_all delta ps r)).
Proof.
  induction ps as [|[[x y] z] ps IH]; intros pre r; [reflexivity|].
  cbn [List.length flat animate_rain fall_all fall].
  repeat (rewrite ?load_app, ?store_app, ?store_app0; cbn [load store nth]).
  destruct (Math_fround (y - 10 * delta) <? 0).
  - specialize (IH (pre ++ [Math_fround (Math_random (r + 1) * 100 - 50);
                            Math_fround (20 + Math_random r * 30);
                            Math_fround (Math_random (r + 2) * 100 - 50)]) (r + 3)%nat).
    rewrite length_app in IH. cbn [List.length] in IH.
    rewrite <- app_assoc in IH. cbn [app] in IH. rewrite IH.
    destruct (fall_all delta ps (r + 3)) as [rest' r'']. cbn [fst snd flat].
    now rewrite <- app_assoc.
  - specialize (IH (pre ++ [x; Math_fround (y - 10 * delta); z]) r).
    rewrite length_app in IH. cbn [List.length] in IH.
    rewrite <- app_assoc in IH. cbn [app] in IH. rewrite IH.
    destruct (fall_all delta ps r) as [rest' r'']. cbn [fst snd flat].
    now rewrite <- app_assoc.
Qed.


Lemma fall_all_length (delta : float) (ps : list Point) :
  forall r, List.length (fst (fall_all delta ps r)) = List.length ps.
Proof.
  induction ps as [|p ps IH]; intros r; [reflexivity|].
  cbn [fall_all]. destruct (fall delta p r) as [p' r'].
  specialize (IH r'). destruct (fall_all delta ps r') as [rest' r''].
  simpl in *. now rewrite IH.
Qed.

(** The rain loop of [animate], on a buffer of whole particles, is a
    pass over the particles in their order: every particle falls by
    [10 * delta] (as a binary32 number) and keeps its x and z, unless
    it is then below 0; such a particle gets a new height [20 + 30 *
    random] and a new x and z in [-50, 50), from the next three random
    numbers.  No particle is added or lost. *)
Theorem rain_falls_particle_by_particle
        (delta : float) (r n : nat) (a : list float) :
  List.length a = (3 * n)%nat ->
  exists ps,
    a = flat ps /\ List.length ps = n /\
    animate_rain Math_random delta (strides (List.length a) 3) 0 r a
    = (flat (fst (fall_all delta ps r)), snd (fall_all delta ps r)) /\
    List.length (fst (fall_all delta ps r)) = n.
Proof.
  intros H. destruct (flat_of_length n a H) as (ps & -> & L).
  exists ps. split; [reflexivity|]. split; [exact L|].
  split; [|now rewrite fall_all_length].
  rewrite flat_length, strides_3.
  apply (animate_rain_points delta ps [] r).
Qed.

End Rain.

Lemma rain_falls_particle_by_particle_witness :
  List.length [1; 0.5; 2; 3; 40; 4] = (3 * 2)%nat /\
  animate_rain (fun _ => 0.5) 0.1 (strides 6 3) 0 0 [1; 0.5; 2; 3; 40; 4]
  = ([0; 35; 0; 3; 39; 4], 3%nat).
Proof.
  split; [reflexivity|].
  destruct (@rain_falls_particle_by_particle (fun _ => 0.5) 0.1 0 2 [1; 0.5; 2; 3; 40; 4]
              eq_refl) as (ps & E & _ & H & _).
  etransitivity; [exact H|].
  assert (P : ps = [(1, 0.5, 2); (3, 40, 4)]).
  { destruct ps as [|[[x1 y1] z1] [|[[x2 y2] z2] [|p ps]]]; try discriminate E.
    - simpl in E. injection E as <- <- <- <- <- <-. reflexivity.
    - destruct p as [[x3 y3] z3]. discriminate E. }
  rewrite P. vm_compute. reflexivity.
Defined.

(** *** The streaks *)

Section Streaks.

Variable Math_random : nat -> float.

(** A streak: its start point and its end point. *)
Definition Streak : Type := (Point * Point)%type.

Fixpoint flat_streaks (ss : list Streak) : list float :=
  match ss with
  | [] => []
  | ((x, y, z), (x', y', z')) :: rest => x :: y :: z :: x' :: y' :: z' :: flat_streaks rest
  end.

Lemma flat_streaks_length (ss : list Streak) :
  List.length (flat_streaks ss) = (6 * List.length ss)%nat.
Proof.
  induction ss as [|[[[x y] z] [[x' y'] z']] ss IH]; simpl; [reflexivity|rewrite IH; lia].
Qed.

Lemma flat_streaks_of_length (n : nat) :
  forall a, List.length a = (6 * n)%nat ->
            exists ss, a = flat_streaks ss /\ List.length ss = n.
Proof.
  induction n as [|n IH]; intros a H.
  - destruct a; [exists []; split; reflexivity|discriminate H].
  - destruct a as [|x [|y [|z [|x' [|y' [|z' a]]]]]]; simpl in H; try lia.
    destruct (IH a) as (ss & -> & L); [lia|].
    exists (((x, y, z), (x', y', z')) :: ss). split; [reflexivity|simpl; now rewrite L].
Qed.

Lemma strides_6 (n : nat) : strides (6 * n) 6 = n.
Proof.
  unfold strides. replace (6 * n + 6 - 1)%nat with (5 + n * 6)%nat by lia.
  rewrite Nat.div_add by lia. reflexivity.
Qed.

(** What a frame does to one streak: both ends move by [speed * delta
    * 0.2] against x; a streak whose start is then left of -60 starts
    again at x = 60, at a new height and depth, with a new end, which
    draws five numbers. *)
Definition drift (speed delta : float) (s : Streak) (r : nat) : Streak * nat :=
  let '((x, y, z), (x', y', z')) := s in
  let moved := Math_fround (x - speed * delta * 0.2) in
  let moved' := Math_fround (x' - speed * delta * 0.2) in
  if moved <? -60
  then
    let ny := 0.5 + Math_random r * 2 in
    let nz := Math_random (r + 1) * 100 - 50 in
    (((Math_fround 60, Math_fround ny, Math_fround nz),
      (Math_fround (60 - speed * (0.5 + Math_random (r + 2))),
       Math_fround (ny - speed * 0.2 * Math_random (r + 3)),
       Math_fround (nz + speed * (0.5 - Math_random (r + 4))))), (r + 5)%nat)
  else (((moved, y, z), (moved', y', z')), r).

Fixpoint drift_all (speed delta : float) (ss : list Streak) (r : nat)
  : list Streak * nat :=
  match ss with
  | [] => ([], r)
  | s :: rest =>
      let '(s', r') := drift speed delta s r in
      let '(rest', r'') := drift_all speed delta rest r' in
      (s' :: rest', r'')
  end.

Lemma animate_wind_streaks (speed delta : float) (ss : list Streak) :
  forall pre r,
    animate_wind Math_random speed delta (List.length ss) (List.length pre) r
                 (pre ++ flat_streaks ss)
    = (pre ++ flat_streaks (fst (drift_all speed delta ss r)),
       snd (drift_all speed delta ss r)).
Proof.
  induction ss as [|[[[x y] z] [[x' y'] z']] ss IH]; intros pre r; [reflexivity|].
  cbn [List.length flat_streaks animate_wind drift_all drift].
  repeat (rewrite ?load_app, ?store_app, ?store_app0, ?load_app0; cbn [load store nth]).
  destruct (Math_fround (x - speed * delta * 0.2) <? -60).
  - match goal with
    | |- animate_wind _ _ _ _ _ _ (pre ++ ?a :: ?b :: ?c :: ?d :: ?e :: ?f :: _) = _ =>
        specialize (IH (pre ++ [a; b; c; d; e; f]) (r + 5)%nat)
    end.
    rewrite length_app in IH. cbn [List.length] in IH.
    rewrite <- app_assoc in IH. cbn [app] in IH. rewrite IH.
    destruct (drift_all speed delta ss (r + 5)) as [rest' r'']. cbn [fst snd flat_streaks].
    now rewrite <- app_assoc.
  - match goal with
    | |- animate_wind _ _ _ _ _ _ (pre ++ ?a :: ?b :: ?c :: ?d :: ?e :: ?f :: _) = _ =>
        specialize (IH (pre ++ [a; b; c; d; e; f]) r)
    end.
    rewrite length_app in IH. cbn [List.length] in IH.
    rewrite <- app_assoc in IH. cbn [app] in IH. rewrite IH.
    destruct (drift_all speed delta ss r) as [rest' r'']. cbn [fst snd flat_streaks].
    now rewrite <- app_assoc.
Qed.

Lemma drift_all_length (speed delta : float) (ss : list Streak) :
  forall r, List.length (fst (drift_all speed delta ss r)) = List.length ss.
Proof.
  induction ss as [|s ss IH]; intros r; [reflexivity|].
  cbn [drift_all]. destruct (drift speed delta s r) as [s' r'].
  specialize (IH r'). destruct (drift_all speed delta ss r') as [rest' r''].
  simpl in *. now rewrite IH.
Qed.

(** The streak loop of [animate], on a buffer of whole streaks, is a
    pass over the streaks in their order: both ends of a streak move
    by [speed * delta * 0.2] against x and keep their y and z, unless
    the start is then left of -60; such a streak starts again at x =
    60 with a new start and end, from the next five random numbers.
    No streak is added or lost. *)
Theorem streaks_drift_streak_by_streak
        (speed delta : float) (r n : nat) (a : list float) :
  List.length a = (6 * n)%nat ->
  exists ss,
    a = flat_streaks ss /\ List.length ss = n /\
    animate_wind Math_random speed delta (strides (List.length a) 6) 0 r a
    = (flat_streaks (fst (drift_all speed delta ss r)), snd (drift_all speed delta ss r)) /\
    List.length (fst (drift_all speed delta ss r)) = n.
Proof.
  intros H. destruct (flat_streaks_of_length n a H) as (ss & -> & L).
  exists ss. split; [reflexivity|]. split; [exact L|].
  split; [|now rewrite drift_all_length].
  rewrite flat_streaks_length, strides_6.
  apply (animate_wind_streaks speed delta ss [] r).
Qed.

End Streaks.

Lemma streaks_drift_streak_by_streak_witness :
  List.length [-59; 1; 2; -62; 1; 2] = (6 * 1)%nat /\
  animate_wind (fun _ => 0.5) 10 1 (strides 6 6) 0 0 [-59; 1; 2; -62; 1; 2]
  = ([60; 1.5; 0; 50; 0.5; 0], 5%nat).
Proof.
  split; [reflexivity|].
  destruct (@streaks_drift_streak_by_streak (fun _ => 0.5) 10 1 0 1
              [-59; 1; 2; -62; 1; 2] eq_refl) as (ss & E & _ & H & _).
  etransitivity; [exact H|].
  assert (P : ss = [((-59, 1, 2), (-62, 1, 2))]).
  { destruct ss as [|[[[x y] z] [[x' y'] z']] [|s ss]]; try discriminate E.
    - simpl in E. injection E as <- <- <- <- <- <-. reflexivity.
    - destruct s as [[[x3 y3] z3] [[x4 y4] z4]]. discriminate E. }
  rewrite P. vm_compute. reflexivity.
Defined.

End FrameFacts.

(* ================================================================== *)
(** ** The earlier scene builder                                     *)
(* ================================================================== *)

Module EarlierFieldFacts.

Import JS THREE SceneFacts EarlierField.
Local Open Scope string_scope.
Local Open Scope float_scope.

Section Terrain.

Variable Math_random : nat -> float.
Variable Math_exp : float -> float.
Variable Math_pow : float -> float -> float.

(** What a row within the bandwidth makes of the height: it replaces
    it by [z] plus the bump, where [z] is what the loop read. *)
Definition raised (y z h rowY : float) : float :=
  if Math_abs (y - rowY) <? rowWidth
  then Math_fround (z + 0.3 * Math_exp (- Math_pow ((y - rowY) / rowWidth) 2))
  else h.

(** The height of a vertex after the loop: [z] is the number that
    follows the vertex in the array (the x of the next vertex), [h]
    the height the vertex had, [random] the number drawn for it. *)
Definition earlier_height (z y h random : float) : float :=
  Math_fround (fold_left (raised y z) rowYPositions h + (random - 0.5) * 0.05).

Lemma earlier_row_bumps (i : nat) (y z : float) (rowYs : list float) :
  forall a,
    List.length (fold_left (row_bump Math_exp Math_pow i y z) rowYs a) = List.length a /\
    (forall j, (i + 2)%nat <> j ->
               load j (fold_left (row_bump Math_exp Math_pow i y z) rowYs a) = load j a) /\
    ((i + 2 < List.length a)%nat ->
     load (i + 2) (fold_left (row_bump Math_exp Math_pow i y z) rowYs a)
     = fold_left (raised y z) rowYs (load (i + 2) a)).
Proof.
  induction rowYs as [|rowY rowYs IH]; intros a; simpl; [auto|].
  destruct (IH (row_bump Math_exp Math_pow i y z a rowY)) as (L & Oth & Sm).
  assert (L0 : List.length (row_bump Math_exp Math_pow i y z a rowY) = List.length a)
    by (unfold row_bump; destruct (_ <? _); [apply store_length|reflexivity]).
  rewrite L0 in L, Sm. split; [exact L|]. split.
  - intros j H. rewrite Oth by exact H. unfold row_bump.
    destruct (_ <? _); [now apply FieldFacts.load_store_other|reflexivity].
  - intros H. rewrite Sm by exact H. f_equal. unfold row_bump, raised.
    destruct (_ <? _); [now apply FieldFacts.load_store_same|reflexivity].
Qed.

(** The body of the vertex loop. *)
Definition displace_vertex (i r : nat) (a : list float) : list float :=
  displace Math_random Math_exp Math_pow 1 i r a.

Lemma earlier_displace_vertex (i r : nat) (a : list float) :
  List.length (displace_vertex i r a) = List.length a /\
  (forall j, (i + 2)%nat <> j -> load j (displace_vertex i r a) = load j a) /\
  ((i + 2 < List.length a)%nat ->
   load (i + 2) (displace_vertex i r a)
   = earlier_height (load (i + 3) a) (load (i + 1) a) (load (i + 2) a) (Math_random r)).
Proof.
  unfold displace_vertex, displace.
  destruct (earlier_row_bumps i (load (i + 1) a) (load (i + 3) a) rowYPositions a)
    as (L & Oth & Sm).
  split; [now rewrite store_length|]. split.
  - intros j H. rewrite FieldFacts.load_store_other by exact H. now apply Oth.
  - intros H. rewrite FieldFacts.load_store_same by (rewrite L; exact H).
    rewrite Sm by exact H. reflexivity.
Qed.

Lemma earlier_displace (n : nat) :
  forall i r a,
    List.length (displace Math_random Math_exp Math_pow n i r a) = List.length a /\
    (forall j, (forall k, (k < n)%nat -> j <> (i + 3 * k + 2)%nat) ->
               load j (displace Math_random Math_exp Math_pow n i r a) = load j a) /\
    (forall k, (k < n)%nat -> (i + 3 * k + 2 < List.length a)%nat ->
               load (i + 3 * k + 2) (displace Math_random Math_exp Math_pow n i r a)
               = earlier_height (load (i + 3 * k + 3) a) (load (i + 3 * k + 1) a)
                                (load (i + 3 * k + 2) a) (Math_random (r + k))).
Proof.
  induction n as [|n IH]; intros i r a.
  - split; [reflexivity|]. split; [reflexivity|]. intros k H. lia.
  - change (displace Math_random Math_exp Math_pow (S n) i r a)
      with (displace Math_random Math_exp Math_pow n (i + 3) (S r) (displace_vertex i r a)).
    destruct (earlier_displace_vertex i r a) as (L1 & O1 & S1).
    destruct (IH (i + 3)%nat (S r) (displace_vertex i r a)) as (L & Oth & Sm).
    split; [now rewrite L|]. split.
    + intros j H. rewrite Oth.
      * apply O1. specialize (H 0%nat). lia.
      * intros k Hk. specialize (H (S k)). lia.
    + intros k Hk Hlen. destruct k as [|k].
      * replace (i + 3 * 0 + 2)%nat with (i + 2)%nat in * by lia.
        replace (i + 3 * 0 + 1)%nat with (i + 1)%nat by lia.
        replace (i + 3 * 0 + 3)%nat with (i + 3)%nat by lia.
        replace (r + 0)%nat with r by lia.
        rewrite Oth by (intros k Hk'; lia). now apply S1.
      * replace (i + 3 * S k + 2)%nat with (i + 3 + 3 * k + 2)%nat in * by lia.
        replace (i + 3 * S k + 1)%nat with (i + 3 + 3 * k + 1)%nat by lia.
        replace (i + 3 * S k + 3)%nat with (i + 3 + 3 * k + 3)%nat by lia.
        replace (r + S k)%nat with (S r + k)%nat by lia.
        rewrite Sm by (rewrite ?L1; lia).
        rewrite !O1 by lia. reflexivity.
Qed.

(** The ground of the earlier version.  The loop keeps the x and the y
    of every vertex.  The height of the vertex [v] comes from the
    number at [3v + 3], which is the x of the next vertex (and nothing
    for the last vertex): inside the band of a row the height is that
    number plus the bump, whatever height the vertex had; outside the
    bands it is the vertex's own height.  A random number is added,
    one for each vertex, so that the ground differs from one build to
    the next. *)
Theorem earlier_ground_takes_the_next_x (r : nat) (positions : list float) (v : nat) :
  (3 * v + 2 < List.length positions)%nat ->
  let displaced :=
    displace Math_random Math_exp Math_pow (Field.strides (List.length positions) 3) 0 r
             positions in
  List.length displaced = List.length positions /\
  load (3 * v) displaced = load (3 * v) positions /\
  load (3 * v + 1) displaced = load (3 * v + 1) positions /\
  load (3 * v + 2) displaced
  = earlier_height (load (3 * v + 3) positions) (load (3 * v + 1) positions)
                   (load (3 * v + 2) positions) (Math_random (r + v)) /\
  ((Math_abs (load (3 * v + 1) positions - 10) <? rowWidth) = true ->
   load (3 * v + 2) displaced
   = Math_fround
       (Math_fround (load (3 * v + 3) positions
                     + 0.3 * Math_exp (- Math_pow ((load (3 * v + 1) positions - 10)
                                                   / rowWidth) 2))
        + (Math_random (r + v) - 0.5) * 0.05)).
Proof.
  intros Hv displaced. subst displaced.
  destruct (earlier_displace (Field.strides (List.length positions) 3) 0 r positions)
    as (L & Oth & Sm).
  assert (Hn : (v < Field.strides (List.length positions) 3)%nat).
  { unfold Field.strides.
    apply Nat.div_le_lower_bound with (b := 3%nat) (q := S v); lia. }
  split; [exact L|].
  split; [apply Oth; intros k Hk; lia|]. split; [apply Oth; intros k Hk; lia|].
  pose proof (Sm v Hn Hv) as H. cbn [Nat.add] in H.
  split; [exact H|].
  intros Hband. rewrite H. unfold earlier_height, rowYPositions.
  cbn [fold_left]. unfold raised at 1. rewrite Hband. reflexivity.
Qed.

End Terrain.

(** Two vertices on the row at y = 10, the second at x = 49: the first
    is raised to 49 and the bump, although its height was 0. *)
Lemma earlier_ground_takes_the_next_x_witness :
  (3 * 0 + 2 < List.length [48; 10; 0; 49; 10; 0])%nat /\
  load 2 (displace (fun _ => 0.5) (fun _ => 1) (fun x _ => x)
                   (Field.strides 6 3) 0 0 [48; 10; 0; 49; 10; 0])
  = 49.29999923706055.
Proof.
  split; [simpl; lia|].
  destruct (@earlier_ground_takes_the_next_x (fun _ => 0.5) (fun _ => 1) (fun x _ => x)
              0 [48; 10; 0; 49; 10; 0] 0) as (_ & _ & _ & H & _); [simpl; lia|].
  etransitivity; [exact H|]. vm_compute. reflexivity.
Defined.

(** *** The loading pipeline of the earlier version *)

Section Pipeline.

Variable Math_random : nat -> float.
Variable Math_exp : float -> float.
Variable Math_pow : float -> float -> float.
Variable PlaneGeometry_positions : list float.
Variable computeVertexNormals : list float -> list float.

(** The state when everything that was started has settled. *)
Definition earlier_settled (assets : Field.Assets) : state :=
  settled assets Math_random Math_exp Math_pow PlaneGeometry_positions
          computeVertexNormals.

Definition two_lights : list SceneObject := scene (add_lights initial).

Lemma earlier_loadTextures_cases (assets : Field.Assets) :
  (exists maps,
      loadTextures assets = Field.Resolved maps /\
      forall url, In url FieldFacts.texture_paths ->
                  exists d, Field.texture_at assets url = Field.Resolved d)
  \/
  (exists reason url,
      loadTextures assets = Field.Rejected reason /\
      In url FieldFacts.texture_paths /\
      Field.texture_at assets url = Field.Rejected reason).
Proof.
  unfold loadTextures, Field.await_all, Field.loadAsync, FieldFacts.texture_paths.
  destruct (Field.texture_at assets "/textures/soil/Ground0825_2K-JPG_Color.jpg")
    as [d0|r0] eqn:E0;
    [|right; exists r0; eexists; split; [reflexivity|]; split; [|exact E0]; simpl; tauto].
  destruct (Field.texture_at assets "/textures/soil/Ground0825_2K-JPG_NormalGL.jpg")
    as [d1|r1] eqn:E1;
    [|right; exists r1; eexists; split; [reflexivity|]; split; [|exact E1]; simpl; tauto].
  destruct (Field.texture_at assets "/textures/soil/Ground0825_2K-JPG_Roughness.jpg")
    as [d2|r2] eqn:E2;
    [|right; exists r2; eexists; split; [reflexivity|]; split; [|exact E2]; simpl; tauto].
  destruct (Field.texture_at assets "/textures/soil/Ground0825_2K-JPG_Displacement.jpg")
    as [d3|r3] eqn:E3;
    [|right; exists r3; eexists; split; [reflexivity|]; split; [|exact E3]; simpl; tauto].
  destruct (Field.texture_at assets "/textures/grass/grass_path_3_diff_4k.jpg")
    as [d4|r4] eqn:E4;
    [|right; exists r4; eexists; split; [reflexivity|]; split; [|exact E4]; simpl; tauto].
  destruct (Field.texture_at assets "/textures/grass/grass_path_3_nor_gl_4k.exr")
    as [d5|r5] eqn:E5;
    [|right; exists r5; eexists; split; [reflexivity|]; split; [|exact E5]; simpl; tauto].
  destruct (Field.texture_at assets "/textures/grass/grass_path_3_rough_4k.jpg")
    as [d6|r6] eqn:E6;
    [|right; exists r6; eexists; split; [reflexivity|]; split; [|exact E6]; simpl; tauto].
  left. eexists. split; [reflexivity|].
  intros url H. simpl in H.
  repeat (destruct H as [<-|H]; [eexists; eassumption|]). contradiction.
Qed.

Lemma earlier_make_grass_length (n r : nat) :
  List.length (make_grass Math_random n r) = n.
Proof. revert r. induction n as [|n IH]; intros r; simpl; [reflexivity|now rewrite IH]. Qed.

Lemma earlier_plant_row_length (p : PlantModel) (r n c : nat) :
  List.length (plant_row p r n c) = n.
Proof. revert c. induction n as [|n IH]; intros c; simpl; [reflexivity|now rewrite IH]. Qed.

Lemma earlier_plant_rows_length (p : PlantModel) (n r : nat) :
  List.length (plant_rows p n r) = (n * cols)%nat.
Proof.
  revert r. induction n as [|n IH]; intros r; [reflexivity|].
  unfold plant_rows; fold plant_rows.
  rewrite length_app, earlier_plant_row_length, IH. reflexivity.
Qed.

Lemma progress_of_the_one_model :
  Math_round (of_Z (Z.of_nat 1) / of_Z (Z.of_nat plantTypes_length) * 100) = 100.
Proof. vm_compute. reflexivity. Qed.

#[local] Arguments make_grass : simpl never.
#[local] Arguments plant_rows : simpl never.
#[local] Arguments displace : simpl never.
#[local] Arguments Math_round : simpl never.
#[local] Arguments of_Z : simpl never.

(** How the earlier version ends.  A texture that fails leaves the
    page loading for ever, at 0 per cent, with the two lights only:
    the rejection has no handler and no message is shown.  A plant
    model that fails is logged; the progress goes to 100 and [loading]
    to false, and then [createField] throws a TypeError on the missing
    model, which nothing catches: the scene has the ground and the
    200 blades and no plant.  When everything loads, 15 plants and
    their mixers follow the blades. *)
Theorem earlier_pipeline_outcomes (assets : Field.Assets) :
  (forall url reason,
      In url FieldFacts.texture_paths ->
      Field.texture_at assets url = Field.Rejected reason ->
      loading (earlier_settled assets) = true /\
      progress (earlier_settled assets) = 0 /\
      scene (earlier_settled assets) = two_lights /\
      uncaught (earlier_settled assets) = ["unhandled rejection"]) /\
  ((forall url, In url FieldFacts.texture_paths ->
                exists d, Field.texture_at assets url = Field.Resolved d) ->
   loading (earlier_settled assets) = false /\
   progress (earlier_settled assets) = 100 /\
   exists g blades,
     List.length blades = 200%nat /\
     match Field.model_at assets "/models/plants/tomato_plant.glb" with
     | Field.Rejected _ =>
         scene (earlier_settled assets) = (two_lights ++ [Ground g] ++ blades)%list /\
         mixers (earlier_settled assets) = 0%nat /\
         logged (earlier_settled assets) = 1%nat /\
         uncaught (earlier_settled assets) = ["TypeError"]
     | Field.Resolved gltf =>
         exists plants,
           scene (earlier_settled assets)
           = (two_lights ++ [Ground g] ++ blades ++ plants)%list /\
           List.length plants = 15%nat /\
           mixers (earlier_settled assets) = 15%nat /\
           logged (earlier_settled assets) = 0%nat /\
           uncaught (earlier_settled assets) = []
     end).
Proof.
  unfold earlier_settled, settled.
  destruct (earlier_loadTextures_cases assets)
    as [(maps & E & Hall)|(reason & url & E & Hin & Hrej)]; rewrite E.
  - split.
    + intros url reason Hin Hrej. destruct (Hall url Hin) as [d Hd]. congruence.
    + intros _. unfold load_plants.
      destruct (Field.model_at assets "/models/plants/tomato_plant.glb") as [gltf|reason];
        unfold tryCreateField; rewrite progress_of_the_one_model;
        cbv [Nat.eqb plantTypes_length createField add_grass add_ground add_lights
             scene_add scene_add_all set_random_calls set_mixers setProgress setLoading
             console_error escape initial
             loading progress scene mixers random_calls logged uncaught two_lights].
      * split; [reflexivity|]. split; [reflexivity|].
        eexists. eexists. split; [apply (earlier_make_grass_length 200)|].
        eexists. split; [rewrite <- !app_assoc; reflexivity|].
        split; [apply (earlier_plant_rows_length _ 3 0)|].
        split; [reflexivity|]. split; reflexivity.
      * split; [reflexivity|]. split; [reflexivity|].
        eexists. eexists. split; [apply (earlier_make_grass_length 200)|].
        split; [rewrite <- !app_assoc; reflexivity|].
        split; [reflexivity|]. split; reflexivity.
  - split.
    + intros _ _ _ _.
      cbv [escape add_lights scene_add initial loading progress scene uncaught two_lights].
      repeat split.
    + intros Hall. destruct (Hall url Hin) as [d Hd]. congruence.
Qed.

End Pipeline.

(** An asset server on which the textures load and the plant model
    does not. *)
Definition earlier_assets_without_model : Field.Assets :=
  {| Field.texture_at := fun _ =>
       Field.Resolved {| Field.data_wrapS := Field.ClampToEdgeWrapping;
                         Field.data_wrapT := Field.ClampToEdgeWrapping;
                         Field.data_repeat := (1, 1);
                         Field.data_colorSpace := Field.NoColorSpace |};
     Field.model_at := fun _ => Field.Rejected "404" |}.

Lemma earlier_pipeline_outcomes_witness :
  let s := earlier_settled (fun _ => 0.5) (fun x => x) (fun x _ => x)
                           [ -50; 50; 0; 0; 1; 0 ] (fun positions => positions)
                           earlier_assets_without_model in
  loading s = false /\ progress s = 100 /\ List.length (scene s) = 203%nat /\
  mixers s = 0%nat /\ logged s = 1%nat /\ uncaught s = ["TypeError"].
Proof.
  intros s.
  destruct (@earlier_pipeline_outcomes (fun _ => 0.5) (fun x => x) (fun x _ => x)
              [ -50; 50; 0; 0; 1; 0 ] (fun positions => positions)
              earlier_assets_without_model) as [_ H].
  destruct H as (L & P & g & blades & B & Sc & M & Lg & U).
  { intros url _. eexists. reflexivity. }
  unfold s. rewrite Sc, !length_app, B.
  repeat split; assumption.
Defined.

End EarlierFieldFacts.
